(** * Ulisha Store storefront: a shallow embedding of its React components

    The development follows the three components of the repository:
    [ProductCard] (src/components/ProductCard.tsx), [ProductDetails]
    (src/pages/ProductDetails.tsx) and [OrderReceipt].  Event handlers are
    programs of a small free monad [Prog]: a state setter of the component
    ([Upd]) or a call that leaves the component ([Vis]): a request to the
    hosted backend, the cart store, the router, the clipboard, the DOM.
    [run] interprets a program against an arbitrary environment and records
    every call, its answer and the component state at the time of the call.

    A JavaScript number that a component only stores, compares or passes
    on is kept by its value, a rational ([Q]); where a component computes
    with numbers (the average of line 195 of ProductDetails.tsx) the
    operations are those of IEEE 754 binary64 ([Number], [round]).  Array
    indices are integers ([Z]) with [None] for NaN.

    An async handler is suspended at every promise it awaits: [run] executes
    a handler that is alone on the page, [advance] and [deliver] execute it
    one await at a time, so that several handlers can be in flight. *)

From Stdlib Require Import ZArith QArith Qround Qabs Qreduction List String Ascii Bool Lia.
From Stdlib Require SpecFloat.
Import ListNotations.

Local Open Scope string_scope.
Local Open Scope Z_scope.
Local Open Scope list_scope.

Set Implicit Arguments.

(** ** Data of src/types as the components use it *)

Module Product.
(** [rating], [seller_phone] and [store_id] may be absent or null. *)
Record t : Type := mk {
  id : string;
  name : string;
  price : Q;
  image : string;
  category : string;
  description : string;
  rating : option Q;
  seller_phone : option string;
  store_id : option string
}.
End Product.
Abbreviation Product := Product.t.

Module User.
Record t : Type := mk { id : string }.
End User.
Abbreviation User := User.t.

(** ** JavaScript values *)

(** A thrown or returned error value. *)
Inductive Error : Type :=
| BackendError (message : string)
| TypeError (message : string).

(** The [{ data, error }] object a supabase query resolves to. *)
Record Response (A : Type) : Type := mkResponse {
  data : option A;
  error : option Error
}.

(** The outcome of awaiting a promise. *)
Inductive Settled (A : Type) : Type :=
| Fulfilled (a : A)
| Rejected (e : Error).
Arguments Rejected {A} e.

(** [x || d] on a nullable number: null, undefined and 0 are falsy. *)
Definition falsy_or (x : option Q) (d : Q) : Q :=
  match x with
  | Some q => if Qeq_bool q 0 then d else q
  | None => d
  end.

(** [a > b] on numbers. *)
Definition gt (a b : Q) : bool := negb (Qle_bool a b).

(** [a % b] on integers: the remainder has the sign of the dividend, and
    the result is NaN ([None]) when [b] is 0. *)
Definition js_rem (a b : Z) : option Z :=
  if Z.eqb b 0 then None else Some (Z.rem a b).

(** ** Arithmetic on numbers: IEEE 754 binary64

    Every finite double is a whole multiple of 2^-1074, the least positive
    double; a normal double has 53 significant bits.  [round] gives the
    double nearest to a rational, the one with the even significand when two
    are equally near, and an infinity from 2^1024 - 2^970 on: the rounding
    of every arithmetic operation of JavaScript.  The sign of a zero is not
    kept: the only division in the components is by an array length, so no
    result depends on it. *)

Inductive Number : Type :=
| Finite (value : Q)
| Infinity (negative : bool)
| NaN.

(** The integer nearest to [N / D], the even one of two equally near. *)
Definition nearest_even (N D : Z) : Z :=
  match 2 * (N mod D) ?= D with
  | Lt => N / D
  | Gt => N / D + 1
  | Eq => if Z.even (N / D) then N / D else N / D + 1
  end.

(** 1 / quantum is the least positive double. *)
Definition quantum : positive := 2 ^ 1074.

(** The double nearest to [n / d], counted in quanta: with [N / d] the
    value in quanta, its significand is kept to 53 bits (to fewer below
    2^-1022, where the spacing of the doubles stays one quantum). *)
Definition quanta (n d : positive) : Z :=
  let N := Zpos n * Zpos quantum in
  let k := Z.max 0 (Z.log2 (N / Zpos d) - 52) in
  nearest_even N (Zpos d * 2 ^ k) * 2 ^ k.

Definition of_quanta (z : Z) : Q := Qred (z # quantum).

(** 2^2098 quanta are 2^1024. *)
Definition round (q : Q) : Number :=
  match Qred q with
  | Qmake Z0 _ => Finite 0
  | Qmake (Zpos n) d =>
      if 2 ^ 2098 <=? quanta n d then Infinity false else Finite (of_quanta (quanta n d))
  | Qmake (Zneg n) d =>
      if 2 ^ 2098 <=? quanta n d then Infinity true else Finite (of_quanta (- quanta n d))
  end.

(** [a + b] on numbers. *)
Definition js_add (a b : Number) : Number :=
  match a, b with
  | NaN, _ | _, NaN => NaN
  | Infinity s, Infinity t => if Bool.eqb s t then a else NaN
  | Infinity _, Finite _ => a
  | Finite _, Infinity _ => b
  | Finite x, Finite y => round (x + y)
  end.

(** [a / l.length]: a length is a whole number from +0 up. *)
Definition js_div_length (a : Number) (n : nat) : Number :=
  match a with
  | NaN => NaN
  | Infinity s => Infinity s
  | Finite x =>
      match n with
      | O => if Qeq_bool x 0 then NaN else Infinity (negb (Qle_bool 0 x))
      | S _ => round (x / inject_Z (Z.of_nat n))
      end
  end.

(** [JSON.stringify] of a number in a request body: NaN and the infinities
    are sent as null. *)
Definition json_number (x : Number) : option Q :=
  match x with
  | Finite q => Some q
  | _ => None
  end.

(** ** Calls that leave the component *)

(** The supabase queries the components build and await. *)
Inductive Query : Type :=
| products_select_single (id : string)
    (* from('products').select('*').eq('id', id).single() *)
| product_images_select (product_id : string)
    (* from('product_images').select('image_url').eq('product_id', ..) *)
| product_ratings_select_user (product_id user_id : string)
    (* from('product_ratings').select('rating').eq('product_id', ..).eq('user_id', ..) *)
| product_ratings_upsert (product_id user_id : string) (rating : Q)
    (* from('product_ratings').upsert({ product_id, user_id, rating }) *)
| product_ratings_select (product_id : string)
    (* from('product_ratings').select('rating').eq('product_id', ..) *)
| products_update_rating (id : string) (rating : Number).
    (* from('products').update({ rating }).eq('id', id) *)

(** The type of [data] of each query; a row with a single selected column
    is that column's value. *)
Definition Rows (q : Query) : Type :=
  match q with
  | products_select_single _ => Product
  | product_images_select _ => list string
  | product_ratings_select_user _ _ => list Q
  | product_ratings_upsert _ _ _ => unit
  | product_ratings_select _ => list Q
  | products_update_rating _ _ => unit
  end.

(** A query that changes the backend's tables. *)
Definition is_write (q : Query) : bool :=
  match q with
  | product_ratings_upsert _ _ _ | products_update_rating _ _ => true
  | _ => false
  end.

(** The transient notification element of [showNotification]. *)
Record Element : Type := mkElement {
  className : string;
  textContent : string
}.

(** The functions handed to [setTimeout]. *)
Inductive Callback : Type :=
| ResetLinkCopied                 (* () => setLinkCopied(false) *)
| FadeOut (notification : Element)  (* adds 'animate-fade-out', then schedules the removal *)
| Remove (notification : Element).  (* document.body.removeChild(notification) *)

Inductive Ext : Type -> Type :=
| await_query (q : Query) : Ext (Settled (Response (Rows q)))
| await_addToCart (product : Product) : Ext (Settled unit)
| navigate (to : string) : Ext unit
| location_href_set (url : string) : Ext unit
| clipboard_writeText (text : string) : Ext (Settled unit)
| console_error (label : string) (e : Error) : Ext unit
| body_appendChild (el : Element) : Ext unit
| body_removeChild (el : Element) : Ext unit
| classList_add (el : Element) (cls : string) : Ext unit
| setTimeout (cb : Callback) (ms : Z) : Ext unit
| window_open (url target : string) : Ext bool
    (* true when a window was opened, false for null *)
| printWindow_write (html : string) : Ext unit
    (* printWindow.document.body.innerHTML = html *)
| printWindow_do (method : string) : Ext unit
    (* document.close(), focus(), print(), close() *)
| createObjectURL (blob type : string) : Ext string
| anchor_click (href download : string) : Ext unit
    (* appendChild(a); a.click(); removeChild(a) *)
| revokeObjectURL (url : string) : Ext unit.

(** ** Programs *)

Inductive Prog (S A : Type) : Type :=
| Ret (a : A)
| Upd (f : S -> S) (k : Prog S A)
| Vis (R : Type) (e : Ext R) (k : R -> Prog S A).
Arguments Ret {S A} a.
Arguments Upd {S A} f k.
Arguments Vis {S A R} e k.

Fixpoint bind {S A B} (p : Prog S A) (f : A -> Prog S B) : Prog S B :=
  match p with
  | Ret a => f a
  | Upd g k => Upd g (bind k f)
  | Vis e k => Vis e (fun r => bind (k r) f)
  end.

Definition call {S R} (e : Ext R) : Prog S R := Vis e (fun r => Ret r).
Definition update {S} (f : S -> S) : Prog S unit := Upd f (Ret tt).

Declare Scope prog_scope.
Delimit Scope prog_scope with prog.
Notation "x <- c ;; k" := (bind c (fun x => k))
  (at level 61, c at next level, right associativity) : prog_scope.
Notation "c ;; k" := (bind c (fun _ => k))
  (at level 61, right associativity) : prog_scope.

(** *** Exceptions: a body that may throw returns [inl e] *)

Definition Exc (S A : Type) : Type := Prog S (Error + A).

Definition throw {S A} (e : Error) : Exc S A := Ret (inl e).
Definition pure {S A} (a : A) : Exc S A := Ret (inr a).
Definition lift {S A} (p : Prog S A) : Exc S A := bind p (fun a => Ret (inr a)).

Definition bindE {S A B} (p : Exc S A) (f : A -> Exc S B) : Exc S B :=
  bind p (fun r => match r with inl e => Ret (inl e) | inr a => f a end).

(** [await] of a promise: a rejection is thrown. *)
Definition await {S A} (e : Ext (Settled A)) : Exc S A :=
  bind (call e) (fun r =>
    match r with Fulfilled a => pure a | Rejected err => throw err end).

(** [try { body } catch (error) { handler error }] *)
Definition try_catch {S A} (body : Exc S A) (handler : Error -> Prog S A) : Prog S A :=
  bind body (fun r => match r with inl e => handler e | inr a => Ret a end).

(** [try { body } finally { cleanup }] around a body that cannot throw any more *)
Definition finally {S A} (body : Prog S A) (cleanup : Prog S unit) : Prog S A :=
  bind body (fun a => bind cleanup (fun _ => Ret a)).

Notation "x <-! c ;; k" := (bindE c (fun x => k))
  (at level 61, c at next level, right associativity) : prog_scope.
Notation "c ;;! k" := (bindE c (fun _ => k))
  (at level 61, right associativity) : prog_scope.

Local Open Scope prog_scope.

(** ** Running a program *)

Inductive Event : Type :=
| Ev (R : Type) (e : Ext R) (answer : R).
Arguments Ev {R} e answer.

(** A step of a run: the call, its answer, and the component state that is
    committed (and so rendered) while the call is pending. *)
Record Step (S : Type) : Type := mkStep {
  pending : S;
  event : Event
}.

Definition Trace (S : Type) : Type := list (Step S).

(** An environment: the world outside the component and how it answers. *)
Record Env : Type := mkEnv {
  world : Type;
  respond : forall R, Ext R -> world -> R * world
}.

Record Outcome (S W A : Type) : Type := mkOutcome {
  result : A;
  state : S;
  after : W;
  trace : Trace S
}.

Fixpoint run (env : Env) {S A} (p : Prog S A) (s : S) (w : world env) : Outcome S (world env) A :=
  match p with
  | Ret a => mkOutcome a s w []
  | Upd f k => run env k (f s) w
  | Vis e k =>
      let (r, w') := respond env e w in
      let o := run env (k r) s w' in
      mkOutcome (result o) (state o) (after o) (mkStep s (Ev e r) :: trace o)
  end.

(** The events of a trace, and the backend queries among them, in order. *)
Definition events {S} (t : Trace S) : list Event := map (@event S) t.

Definition query_of (ev : Event) : option Query :=
  match ev with
  | Ev (await_query q) _ => Some q
  | Ev _ _ => None
  end.

Fixpoint queries (l : list Event) : list Query :=
  match l with
  | [] => []
  | ev :: l' =>
      match query_of ev with
      | Some q => q :: queries l'
      | None => queries l'
      end
  end.

Definition is_await (ev : Event) : bool :=
  match ev with
  | Ev (await_query _) _ | Ev (await_addToCart _) _ | Ev (clipboard_writeText _) _ => true
  | Ev _ _ => false
  end.

(** ** Handlers in flight

    An async handler runs until it has to wait for a promise, and goes on
    when the promise has settled; what happens on the page in between is
    not its doing.  [advance] runs a program up to the next promise it
    awaits: state setters and synchronous calls are carried out and
    recorded.  [deliver] settles the promise a task waits for and lets the
    task run on.  A handler that is alone on the page is [advance] followed
    by [deliver] until it has finished, which is [run]. *)

Definition returns_promise {R} (e : Ext R) : bool :=
  match e with
  | await_query _ | await_addToCart _ | clipboard_writeText _ => true
  | _ => false
  end.

Inductive Task (S : Type) : Type :=
| Finished
| Awaiting (R : Type) (e : Ext R) (k : R -> Prog S unit).
Arguments Finished {S}.
Arguments Awaiting {S R} e k.

Record Progress (S W : Type) : Type := mkProgress {
  task : Task S;
  shown : S;
  outside : W;
  steps : Trace S
}.

Fixpoint advance (env : Env) {S} (p : Prog S unit) (s : S) (w : world env)
  : Progress S (world env) :=
  match p with
  | Ret _ => mkProgress Finished s w []
  | Upd f k => advance env k (f s) w
  | Vis e k =>
      if returns_promise e then mkProgress (Awaiting e k) s w []
      else
        let (r, w') := respond env e w in
        let o := advance env (k r) s w' in
        mkProgress (task o) (shown o) (outside o) (mkStep s (Ev e r) :: steps o)
  end.

Definition deliver (env : Env) {S} (t : Task S) (s : S) (w : world env)
  : Progress S (world env) :=
  match t with
  | Finished => mkProgress Finished s w []
  | Awaiting e k =>
      let (r, w') := respond env e w in
      let o := advance env (k r) s w' in
      mkProgress (task o) (shown o) (outside o) (mkStep s (Ev e r) :: steps o)
  end.

(** A task that is left alone: each promise it awaits settles before
    anything else happens on the page.  The fuel bounds the number of
    awaits. *)
Fixpoint alone (env : Env) {S} (fuel : nat) (o : Progress S (world env))
  : Progress S (world env) :=
  match fuel with
  | O => o
  | Datatypes.S fuel' =>
      match task o with
      | Finished => o
      | Awaiting _ _ =>
          let o' := deliver env (task o) (shown o) (outside o) in
          alone env fuel' (mkProgress (task o') (shown o') (outside o') (steps o ++ steps o'))
      end
  end.

(** The request a task waits for. *)
Definition awaited {S} (t : Task S) : option Query :=
  match t with
  | Awaiting (await_query q) _ => Some q
  | _ => None
  end.

Definition in_progress {S} (t : Task S) : bool :=
  match t with
  | Finished => false
  | Awaiting _ _ => true
  end.

(** *** A page with several handlers in flight

    The component state and the world are shared; a handler is called, or
    the promise that one of the tasks awaits settles. *)

Record Page (S W : Type) : Type := mkPage {
  component : S;
  surroundings : W;
  in_flight : list (Task S)
}.

Inductive Action (S : Type) : Type :=
| starts (p : Prog S unit)
| settles (i : nat).
Arguments settles {S} i.

Fixpoint replace_nth {A} (i : nat) (a : A) (l : list A) : list A :=
  match l, i with
  | [], _ => []
  | _ :: l', O => a :: l'
  | x :: l', Datatypes.S i' => x :: replace_nth i' a l'
  end.

Definition act (env : Env) {S} (a : Action S) (pg : Page S (world env))
  : Page S (world env) :=
  match a with
  | starts p =>
      let o := advance env p (component pg) (surroundings pg) in
      mkPage (shown o) (outside o) (in_flight pg ++ [task o])
  | settles i =>
      match nth_error (in_flight pg) i with
      | Some t =>
          let o := deliver env t (component pg) (surroundings pg) in
          mkPage (shown o) (outside o) (replace_nth i (task o) (in_flight pg))
      | None => pg
      end
  end.

Definition acts (env : Env) {S} (l : list (Action S)) (pg : Page S (world env))
  : Page S (world env) :=
  fold_left (fun pg a => act env a pg) l pg.

(** ** Built-ins of the JavaScript runtime the components call

    Their results depend on the browser (its ICU data, locale and time
    zone) or on the Unicode tables, so they are fields of an interface
    rather than definitions. *)

(** A rendered DOM node: a text node, or an element with its class and children. *)
#[local] Unset Elimination Schemes.
Inductive Node : Type :=
| Text (s : string)
| Elem (tag : string) (class : option string) (children : list Node).
#[local] Set Elimination Schemes.

Record NumberFormatOptions : Type := mkOptions {
  style : string;
  currency : string
}.

Class JSRuntime : Type := {
  (* new Intl.NumberFormat(locale, options).format(x) *)
  Intl_NumberFormat_format : string -> NumberFormatOptions -> Q -> string;
  (* new Date(s).getTime(); None is NaN (an invalid date) *)
  Date_getTime : string -> option Z;
  (* new Date(s).toLocaleDateString() *)
  Date_toLocaleDateString : string -> string;
  (* x.toLocaleString() on a number *)
  Number_toLocaleString : Q -> string;
  (* String(x) on a number, as React renders a number child *)
  Number_toString : Q -> string;
  (* s.substring(start, end): counts UTF-16 code units *)
  String_substring : string -> nat -> nat -> string;
  (* s.toUpperCase(): the Unicode upper-case mapping, which can lengthen s *)
  String_toUpperCase : string -> string;
  (* el.innerHTML, the serialisation of the children of an element *)
  innerHTML : list Node -> string
}.

(** ** showNotification (the same function in ProductCard and ProductDetails) *)

Inductive NotificationType : Type := success | error_.

Definition notification_element (message : string) (type : NotificationType) : Element :=
  {| className :=
       "fixed bottom-4 right-4 "
       ++ match type with success => "bg-green-500" | error_ => "bg-red-500" end
       ++ " text-white px-6 py-3 rounded-lg shadow-lg z-50 animate-fade-in";
     textContent := message |}.

Definition showNotification {S} (message : string) (type : NotificationType) : Prog S unit :=
  let notification := notification_element message type in
  call (body_appendChild notification) ;;
  call (setTimeout (FadeOut notification) 3000).

(** What a timer does when it fires; [setLinkCopied] is the setter of the
    component that armed it. *)
Definition fire {S} (setLinkCopied : bool -> Prog S unit) (cb : Callback) : Prog S unit :=
  match cb with
  | ResetLinkCopied => setLinkCopied false
  | FadeOut notification =>
      call (classList_add notification "animate-fade-out") ;;
      call (setTimeout (Remove notification) 300)
  | Remove notification => call (body_removeChild notification)
  end.

(** The five star positions [[...Array(5)].map((_, i) => ..)]. *)
Definition star_indices : list Q := [0%Q; 1%Q; 2%Q; 3%Q; 4%Q].

(** ** src/pages/ProductDetails.tsx *)

Module ProductDetails.

Record State : Type := mkState {
  loading : bool;
  product : option Product;
  productImages : list string;
  currentImageIndex : option Z;
  linkCopied : bool;
  rating : Q;
  hoverRating : Q;
  hasRated : bool
}.

(** The [useState] initial values. *)
Definition initial : State :=
  mkState true None [] (Some 0) false 0%Q 0%Q false.

Definition setLoading (b : bool) : Prog State unit :=
  update (fun s => mkState b (product s) (productImages s) (currentImageIndex s)
                           (linkCopied s) (rating s) (hoverRating s) (hasRated s)).
Definition setProduct (p : option Product) : Prog State unit :=
  update (fun s => mkState (loading s) p (productImages s) (currentImageIndex s)
                           (linkCopied s) (rating s) (hoverRating s) (hasRated s)).
Definition setProductImages (l : list string) : Prog State unit :=
  update (fun s => mkState (loading s) (product s) l (currentImageIndex s)
                           (linkCopied s) (rating s) (hoverRating s) (hasRated s)).
(** The functional form [setCurrentImageIndex(prev => ..)]. *)
Definition setCurrentImageIndex (f : option Z -> option Z) : Prog State unit :=
  update (fun s => mkState (loading s) (product s) (productImages s) (f (currentImageIndex s))
                           (linkCopied s) (rating s) (hoverRating s) (hasRated s)).
Definition setLinkCopied (b : bool) : Prog State unit :=
  update (fun s => mkState (loading s) (product s) (productImages s) (currentImageIndex s)
                           b (rating s) (hoverRating s) (hasRated s)).
Definition setRating (r : Q) : Prog State unit :=
  update (fun s => mkState (loading s) (product s) (productImages s) (currentImageIndex s)
                           (linkCopied s) r (hoverRating s) (hasRated s)).
Definition setHoverRating (r : Q) : Prog State unit :=
  update (fun s => mkState (loading s) (product s) (productImages s) (currentImageIndex s)
                           (linkCopied s) (rating s) r (hasRated s)).
Definition setHasRated (b : bool) : Prog State unit :=
  update (fun s => mkState (loading s) (product s) (productImages s) (currentImageIndex s)
                           (linkCopied s) (rating s) (hoverRating s) b).

(** [const isLoggedIn = useAuthStore((state) => !!state.user)] *)
Definition isLoggedIn (user : option User) : bool :=
  match user with Some _ => true | None => false end.

(** Lines 30-76. [productId] is the route parameter, [user] the value of
    the auth store in the render that started the fetch. *)
Definition fetchProductDetails (productId : string) (user : option User) : Prog State unit :=
  finally
    (try_catch
       (lift (setLoading true) ;;!
        r <-! await (await_query (products_select_single productId)) ;;
        match error r with
        | Some productError => throw productError
        | None =>
            lift (setProduct (data r)) ;;!
            match data r with
            | None => throw (TypeError "Cannot read properties of null (reading 'rating')")
            | Some productData =>
                lift (setRating (falsy_or (Product.rating productData) 5)) ;;!
                r2 <-! await (await_query (product_images_select productId)) ;;
                match error r2 with
                | Some imagesError => throw imagesError
                | None =>
                    let allImages :=
                      Product.image productData
                        :: match data r2 with Some l => l | None => [] end in
                    lift (setProductImages allImages) ;;!
                    match user with
                    | Some u =>
                        r3 <-! await (await_query
                                 (product_ratings_select_user productId (User.id u))) ;;
                        match error r3, data r3 with
                        | None, Some (first :: _) =>
                            lift (setHasRated true ;; setRating first)
                        | _, _ => pure tt
                        end
                    | None => pure tt
                    end
                end
            end
        end)
       (fun e => call (console_error "Error fetching product details:" e)))
    (setLoading false).

(** Lines 24-28: the effect that runs when [productId] changes. *)
Definition useEffect_productId (productId : option string) (user : option User)
  : Prog State unit :=
  match productId with
  | Some (String c rest) => fetchProductDetails (String c rest) user
  | _ => Ret tt
  end.

(** Lines 78-93. [s] is the state of the render whose button was clicked. *)
Definition handleAddToCart (s : State) (user : option User) : Prog State unit :=
  match product s with
  | None => Ret tt
  | Some p =>
      if negb (isLoggedIn user) then call (location_href_set "/login")
      else
        try_catch
          (await (await_addToCart p) ;;!
           lift (showNotification "Product added to cart!" success))
          (fun e =>
             call (console_error "Error adding to cart:" e) ;;
             showNotification "Failed to add product to cart. Please try again." error_)
  end.

(** Lines 117-123: the updaters of the image gallery, for a list of [n] images. *)
Definition next_index (n : Z) (prev : option Z) : option Z :=
  match prev with Some i => js_rem (i + 1) n | None => None end.

Definition prev_index (n : Z) (prev : option Z) : option Z :=
  match prev with Some i => js_rem (i - 1 + n) n | None => None end.

Definition nextImage (s : State) : Prog State unit :=
  setCurrentImageIndex (next_index (Z.of_nat (List.length (productImages s)))).

Definition prevImage (s : State) : Prog State unit :=
  setCurrentImageIndex (prev_index (Z.of_nat (List.length (productImages s)))).

(** Lines 125-127; an undefined route parameter prints as "undefined". *)
Definition getProductLink (productId : option string) : string :=
  "https://ulishastore.netlify.app/product/"
  ++ match productId with Some i => i | None => "undefined" end.

(** Lines 129-141. *)
Definition copyToClipboard (productId : option string) : Prog State unit :=
  let link := getProductLink productId in
  r <- call (clipboard_writeText link) ;;
  match r with
  | Fulfilled _ =>
      setLinkCopied true ;;
      showNotification "Link copied to clipboard!" success ;;
      call (setTimeout ResetLinkCopied 2000)
  | Rejected err =>
      call (console_error "Failed to copy link: " err) ;;
      showNotification "Failed to copy link" error_
  end.

(** Line 195: [ratings.reduce((sum, item) => sum + item.rating, 0) / ratings.length].
    A rating of the answer is read as the double nearest to it. *)
Definition avgRating (ratings : list Q) : Number :=
  js_div_length (fold_left (fun sum item => js_add sum (round item)) ratings (Finite 0))
                (List.length ratings).

(** Lines 163-207. *)
Definition handleRating (s : State) (user : option User) (value : Q) : Prog State unit :=
  match user, product s with
  | Some u, Some p =>
      try_catch
        (r <-! await (await_query
                 (product_ratings_upsert (Product.id p) (User.id u) value)) ;;
         match error r with
         | Some e => throw e
         | None =>
             lift (setRating value ;;
                   setHasRated true ;;
                   showNotification "Thank you for rating this product!" success) ;;!
             r2 <-! await (await_query (product_ratings_select (Product.id p))) ;;
             match error r2 with
             | Some ratingsError => throw ratingsError
             | None =>
                 match data r2 with
                 | Some ratings =>
                     if 0 <? Z.of_nat (List.length ratings) then
                       await (await_query
                         (products_update_rating (Product.id p) (avgRating ratings))) ;;!
                       pure tt
                     else pure tt
                 | None => pure tt
                 end
             end
         end)
        (fun e =>
           call (console_error "Error rating product:" e) ;;
           showNotification "Failed to submit rating. Please try again." error_)
  | _, _ => call (location_href_set "/login")
  end.

(** *** What the component renders (lines 209-424) *)

Record DetailsView : Type := mkDetails {
  main_image : option string;   (* productImages[currentImageIndex] *)
  gallery_buttons : bool;       (* productImages.length > 1 *)
  thumbnails : list string;
  stars : list bool;            (* 'fill-current' or 'text-gray-300' *)
  rating_label : string;
  price_text : string;
  link_value : string;
  copy_done : bool              (* the Check icon instead of Copy *)
}.

Inductive View : Type :=
| Spinner
| NotFound
| Details (d : DetailsView).

Definition array_get {A} (l : list A) (i : option Z) : option A :=
  match i with
  | Some z => if z <? 0 then None else nth_error l (Z.to_nat z)
  | None => None
  end.

Section Render.
Context {rt : JSRuntime}.

(** Lines 328-331. *)
Definition price_of (p : Product) : string :=
  Intl_NumberFormat_format "en-NG" (mkOptions "currency" "NGN") (Product.price p).

(** Line 316: [(hoverRating || rating) > i]. *)
Definition star_filled (s : State) (i : Q) : bool :=
  gt (falsy_or (Some (hoverRating s)) (rating s)) i.

Definition render (productId : option string) (s : State) : View :=
  if loading s then Spinner
  else
    match product s with
    | None => NotFound
    | Some p =>
        Details
          {| main_image := array_get (productImages s) (currentImageIndex s);
             gallery_buttons := (1 <? Z.of_nat (List.length (productImages s)));
             thumbnails :=
               if 1 <? Z.of_nat (List.length (productImages s)) then productImages s else [];
             stars := map (star_filled s) star_indices;
             rating_label := if hasRated s then "Thanks for rating!" else "Click to rate";
             price_text := price_of p;
             link_value := getProductLink productId;
             copy_done := linkCopied s |}
    end.
End Render.

End ProductDetails.

(** ** Fetches in flight on the detail page

    The effect of lines 24-28 calls [fetchProductDetails] whenever the route
    parameter changes (and twice on mount under StrictMode, main.tsx lines
    48-52) and cancels nothing, so a fetch can start while another is in
    flight. *)

Module Fetches.
Import ProductDetails.

(** What is left of a fetch that is under way: setters that leave
    [loading] alone and calls, and last of all [setLoading(false)]. *)
Inductive remainder : Prog State unit -> Prop :=
| remainder_last (f : State -> State) (a : unit) :
    (forall s, loading (f s) = false) -> remainder (Upd f (Ret a))
| remainder_set (f : State -> State) (k : Prog State unit) :
    (forall s, loading (f s) = loading s) -> remainder k -> remainder (Upd f k)
| remainder_call (R : Type) (e : Ext R) (k : R -> Prog State unit) :
    (forall r, remainder (k r)) -> remainder (Vis e k).

Definition fetch_task (t : Task State) : Prop :=
  match t with
  | Finished => True
  | Awaiting _ k => forall r, remainder (k r)
  end.

(** The pages on which only fetches are in flight: from a page at rest,
    fetches start and promises settle in any order. *)
Inductive fetching (env : Env) : Page State (world env) -> Prop :=
| fetching_rest (s : State) (w : world env) : fetching env (mkPage s w [])
| fetching_start (pg : Page State (world env)) (productId : string) (user : option User) :
    fetching env pg ->
    fetching env (act env (starts (fetchProductDetails productId user)) pg)
| fetching_settle (pg : Page State (world env)) (i : nat) :
    fetching env pg -> fetching env (act env (settles i) pg).

(** Task [i] finishes when its promise settles now. *)
Definition finishes (env : Env) (i : nat) (pg : Page State (world env)) : bool :=
  match nth_error (in_flight pg) i, nth_error (in_flight (act env (settles i) pg)) i with
  | Some (Awaiting _ _), Some Finished => true
  | _, _ => false
  end.

(** "While the product fetch is in progress the detail page shows only a
    spinner", for a page with fetches in flight. *)
Definition spinner_while_fetching {rt : JSRuntime} (env : Env) (productId : option string)
    (pg : Page State (world env)) : Prop :=
  existsb in_progress (in_flight pg) = true -> render productId (component pg) = Spinner.

End Fetches.

(** ** src/components/ProductCard.tsx *)

Module ProductCard.

Record State : Type := mkState {
  showShareOptions : bool;
  linkCopied : bool
}.

Definition initial : State := mkState false false.

Definition setShowShareOptions (b : bool) : Prog State unit :=
  update (fun s => mkState b (linkCopied s)).
Definition setLinkCopied (b : bool) : Prog State unit :=
  update (fun s => mkState (showShareOptions s) b).

(** [const isLoggedIn = useAuthStore((state) => !!state.user)] *)
Definition isLoggedIn (user : option User) : bool :=
  match user with Some _ => true | None => false end.

(** Lines 16-19. *)
Definition formattedPrice {rt : JSRuntime} (product : Product) : string :=
  Intl_NumberFormat_format "en-NG" (mkOptions "currency" "NGN") (Product.price product).

(** Lines 21-34. *)
Definition handleAddToCart (product : Product) (user : option User) : Prog State unit :=
  if negb (isLoggedIn user) then call (navigate "/login")
  else
    try_catch
      (await (await_addToCart product) ;;!
       lift (showNotification "Product added to cart!" success))
      (fun e =>
         call (console_error "Error adding to cart:" e) ;;
         showNotification "Failed to add product to cart. Please try again." error_).

(** Lines 42-44. *)
Definition getProductLink (product : Product) : string :=
  "https://ulishastore.netlify.app/product/" ++ Product.id product.

(** Lines 46-58. *)
Definition copyToClipboard (product : Product) : Prog State unit :=
  let link := getProductLink product in
  r <- call (clipboard_writeText link) ;;
  match r with
  | Fulfilled _ =>
      setLinkCopied true ;;
      showNotification "Link copied to clipboard!" success ;;
      call (setTimeout ResetLinkCopied 2000)
  | Rejected err =>
      call (console_error "Failed to copy link: " err) ;;
      showNotification "Failed to copy link" error_
  end.

(** Line 184: [(product.rating || 5) > i] for each of the five stars. *)
Definition star_filled (product : Product) (i : Q) : bool :=
  gt (falsy_or (Product.rating product) 5) i.

Definition stars (product : Product) : list bool :=
  map (star_filled product) star_indices.

End ProductCard.

(** ** String methods used by the receipt *)

(** [s.slice(-k)]: the last [k] characters, or all of [s] when it is shorter. *)
Definition slice_last (k : nat) (s : string) : string :=
  substring (String.length s - k) k s.

(** What the string built-ins do to ASCII text, where a character is one
    code unit and one byte: [toUpperCase] turns a-z into A-Z and leaves the
    other characters, [substring(0, k)] keeps the first [k] characters. *)
Definition upper_ascii (c : ascii) : ascii :=
  let n := nat_of_ascii c in
  if (97 <=? n)%nat && (n <=? 122)%nat then ascii_of_nat (n - 32) else c.

Fixpoint ascii_toUpperCase (s : string) : string :=
  match s with
  | EmptyString => EmptyString
  | String c rest => String (upper_ascii c) (ascii_toUpperCase rest)
  end.

Fixpoint ascii_text (s : string) : Prop :=
  match s with
  | EmptyString => True
  | String c rest => (nat_of_ascii c < 128)%nat /\ ascii_text rest
  end.

Record ascii_built_ins (rt : JSRuntime) : Prop := mkAsciiBuiltIns {
  substring_ascii : forall s k, ascii_text s -> String_substring s 0 k = substring 0 k s;
  toUpperCase_ascii : forall s, ascii_text s -> String_toUpperCase s = ascii_toUpperCase s
}.

(** [String(n)] for an integer: decimal digits, least significant first in
    [digits_rev]; the fuel exceeds the number of digits. *)
Definition digit (d : Z) : ascii := ascii_of_nat (48 + Z.to_nat d).

Fixpoint digits_rev (fuel : nat) (n : Z) : list ascii :=
  match fuel with
  | O => []
  | S fuel' =>
      digit (n mod 10) :: (if n / 10 =? 0 then [] else digits_rev fuel' (n / 10))
  end.

Definition nat_digits (n : Z) : string :=
  string_of_list_ascii (rev (digits_rev (S (Z.to_nat (Z.log2 n))) n)).

Definition Z_toString (n : Z) : string :=
  if n <? 0 then String "-" (nat_digits (- n)) else nat_digits n.

(** [x.getTime().toString()] where [None] is NaN. *)
Definition time_toString (t : option Z) : string :=
  match t with Some n => Z_toString n | None => "NaN" end.

(** ** OrderReceipt *)

Module OrderReceipt.

Record ItemProduct : Type := mkItemProduct {
  name : string;
  image : string
}.

Record OrderItem : Type := mkOrderItem {
  product : ItemProduct;
  quantity : Q;
  price : Q
}.

Record Order : Type := mkOrder {
  id : string;
  created_at : string;
  total : Q;
  status : string;
  delivery_name : string;
  delivery_phone : string;
  delivery_address : string;
  payment_ref : option string;
  payment_method : option string;
  items : list OrderItem
}.

Section WithRuntime.
Context {rt : JSRuntime}.

(** Lines 70-72. *)
Definition generateVerificationCode (order : Order) : string :=
  String_toUpperCase
    (String_substring (id order) 0 6
     ++ slice_last 5 (time_toString (Date_getTime (created_at order)))).

(** Lines 88-105: the children of the [div] that [receiptRef] points to. *)
Definition receipt (order : Order) : list Node :=
  [ Elem "h1" (Some "text-2xl font-bold text-orange-500") [Text "Ulisha Store"];
    Elem "p" None [Text "Order ID: "; Text (String_substring (id order) 0 8)];
    Elem "p" None [Text "Date: "; Text (Date_toLocaleDateString (created_at order))];
    Elem "p" None [Text "Total: ₦"; Text (Number_toLocaleString (total order))];
    Elem "h3" (Some "font-semibold") [Text "Delivery Info"];
    Elem "p" None [Text "Name: "; Text (delivery_name order)];
    Elem "p" None [Text "Phone: "; Text (delivery_phone order)];
    Elem "p" None [Text "Address: "; Text (delivery_address order)];
    Elem "h3" (Some "font-semibold") [Text "Items"];
    Elem "ul" None
      (map (fun item =>
              Elem "li" None
                [Text (Number_toString (quantity item)); Text " x ";
                 Text (name (product item)); Text " - ₦";
                 Text (Number_toLocaleString (price item))])
           (items order));
    Elem "h3" (Some "font-semibold") [Text "Verification Code"];
    Elem "p" (Some "text-xl font-bold bg-gray-100 p-2 inline-block")
      [Text (generateVerificationCode order)] ].

(** Lines 38-47: the document written into the print window. *)
Definition print_document (body : string) : string :=
  "
          <!DOCTYPE html>
          <html>
            <head>
              <title>Ulisha Store - Order Receipt</title>
              <style>@media print { .no-print { display: none; } }</style>
            </head>
            <body>" ++ body ++ "</body>
          </html>
        ".

(** Lines 34-54. [mounted] says whether [receiptRef.current] is set; the
    element it points to is the one rendered from [order]. *)
Definition handlePrint (order : Order) (mounted : bool) : Prog unit unit :=
  if mounted then
    printWindow <- call (window_open "" "_blank") ;;
    if (printWindow : bool) then
      call (printWindow_write (print_document (innerHTML (receipt order)))) ;;
      call (printWindow_do "document.close") ;;
      call (printWindow_do "focus") ;;
      call (printWindow_do "print") ;;
      call (printWindow_do "close")
    else Ret tt
  else Ret tt.

(** Lines 56-68. *)
Definition handleDownload (order : Order) (mounted : bool) : Prog unit unit :=
  if mounted then
    url <- call (createObjectURL (innerHTML (receipt order)) "text/html") ;;
    call (anchor_click url ("order-receipt-" ++ String_substring (id order) 0 8 ++ ".html")) ;;
    call (revokeObjectURL url)
  else Ret tt.
End WithRuntime.

End OrderReceipt.

(** * Environments and sample data

    The hosted backend, the cart store and the browser are not code of the
    repository.  The properties below quantify over every environment and
    every runtime; the two environments and the runtime defined here are
    concrete worlds to run the components in. *)

(** ** An in-memory environment

    Tables are lists of rows, a rating row is keyed by product and user,
    and every call succeeds. *)

Module InMemory.

Record RatingRow : Type := mkRow {
  product_id : string;
  user_id : string;
  rating : Q
}.

Record World : Type := mkWorld {
  products : list Product;
  product_images : list (string * string);   (* product_id, image_url *)
  product_ratings : list RatingRow;
  cart : list Product
}.

Definition ok {A} (a : A) : Settled (Response A) :=
  Fulfilled (mkResponse (Some a) None).

(** A write without [.select()] resolves to [{ data: null, error: null }]. *)
Definition done : Settled (Response unit) :=
  Fulfilled (mkResponse None None).

Definition ratings_of (pid : string) (rows : list RatingRow) : list Q :=
  map rating (filter (fun r => String.eqb (product_id r) pid) rows).

Fixpoint upsert (row : RatingRow) (rows : list RatingRow) : list RatingRow :=
  match rows with
  | [] => [row]
  | r :: rest =>
      if String.eqb (product_id r) (product_id row) && String.eqb (user_id r) (user_id row)
      then row :: rest
      else r :: upsert row rest
  end.

Definition set_rating (pid : string) (x : option Q) (p : Product) : Product :=
  if String.eqb (Product.id p) pid
  then Product.mk (Product.id p) (Product.name p) (Product.price p) (Product.image p)
         (Product.category p) (Product.description p) x
         (Product.seller_phone p) (Product.store_id p)
  else p.

Definition answer (q : Query) (w : World) : Settled (Response (Rows q)) * World :=
  match q return Settled (Response (Rows q)) * World with
  | products_select_single i =>
      (match find (fun p => String.eqb (Product.id p) i) (products w) with
       | Some p => ok p
       | None => Fulfilled (mkResponse None (Some (BackendError "no rows returned")))
       end, w)
  | product_images_select pid =>
      (ok (map snd (filter (fun r => String.eqb (fst r) pid) (product_images w))), w)
  | product_ratings_select_user pid uid =>
      (ok (map rating
             (filter (fun r => String.eqb (product_id r) pid && String.eqb (user_id r) uid)
                     (product_ratings w))), w)
  | product_ratings_upsert pid uid x =>
      (done, mkWorld (products w) (product_images w)
                      (upsert (mkRow pid uid x) (product_ratings w)) (cart w))
  | product_ratings_select pid =>
      (ok (ratings_of pid (product_ratings w)), w)
  | products_update_rating i x =>
      (done, mkWorld (map (set_rating i (json_number x)) (products w)) (product_images w)
                      (product_ratings w) (cart w))
  end.

Definition respond (R : Type) (e : Ext R) (w : World) : R * World :=
  match e in Ext R0 return R0 * World with
  | await_query q => answer q w
  | await_addToCart p =>
      (Fulfilled tt, mkWorld (products w) (product_images w) (product_ratings w) (p :: cart w))
  | navigate _ => (tt, w)
  | location_href_set _ => (tt, w)
  | clipboard_writeText _ => (Fulfilled tt, w)
  | console_error _ _ => (tt, w)
  | body_appendChild _ => (tt, w)
  | body_removeChild _ => (tt, w)
  | classList_add _ _ => (tt, w)
  | setTimeout _ _ => (tt, w)
  | window_open _ _ => (true, w)
  | printWindow_write _ => (tt, w)
  | printWindow_do _ => (tt, w)
  | createObjectURL _ _ => ("blob:receipt", w)
  | anchor_click _ _ => (tt, w)
  | revokeObjectURL _ => (tt, w)
  end.

Definition env : Env := mkEnv respond.

(** The rating column of a product record. *)
Definition product_rating (w : World) (pid : string) : option Q :=
  match find (fun p => String.eqb (Product.id p) pid) (products w) with
  | Some p => Product.rating p
  | None => None
  end.

End InMemory.

(** The ratings recorded for a product, and whether the product's record
    carries a given rating. *)
Definition in_memory_recorded (w : InMemory.World) (pid : string) : list Q :=
  InMemory.ratings_of pid (InMemory.product_ratings w).

Definition in_memory_rating_is (w : InMemory.World) (pid : string) (x : Number) : Prop :=
  forall p, In p (InMemory.products w) -> Product.id p = pid -> Product.rating p = json_number x.

(** ** A backend with another shopper

    The in-memory environment, except that right after the list of a
    product's ratings has been read another user's rating of that product
    is recorded. *)

Module Crowded.
Definition respond (R : Type) (e : Ext R) (w : InMemory.World) : R * InMemory.World :=
  match e in Ext R0 return R0 * InMemory.World with
  | await_query q =>
      match q return Settled (Response (Rows q)) * InMemory.World with
      | product_ratings_select pid =>
          (InMemory.ok (InMemory.ratings_of pid (InMemory.product_ratings w)),
           InMemory.mkWorld (InMemory.products w) (InMemory.product_images w)
             (InMemory.upsert (InMemory.mkRow pid "u3" 3) (InMemory.product_ratings w))
             (InMemory.cart w))
      | other => InMemory.answer other w
      end
  | other => InMemory.respond other w
  end.

Definition env : Env := mkEnv respond.
End Crowded.

(** ** An environment that is offline

    Every promise is rejected and no window opens: the other extreme of
    [InMemory]. *)

Module Offline.
Definition network_error : Error := BackendError "Failed to fetch".

Definition respond (R : Type) (e : Ext R) (w : unit) : R * unit :=
  match e in Ext R0 return R0 * unit with
  | await_query _ => (Rejected network_error, w)
  | await_addToCart _ => (Rejected network_error, w)
  | navigate _ => (tt, w)
  | location_href_set _ => (tt, w)
  | clipboard_writeText _ => (Rejected (BackendError "NotAllowedError"), w)
  | console_error _ _ => (tt, w)
  | body_appendChild _ => (tt, w)
  | body_removeChild _ => (tt, w)
  | classList_add _ _ => (tt, w)
  | setTimeout _ _ => (tt, w)
  | window_open _ _ => (false, w)
  | printWindow_write _ => (tt, w)
  | printWindow_do _ => (tt, w)
  | createObjectURL _ _ => ("blob:none", w)
  | anchor_click _ _ => (tt, w)
  | revokeObjectURL _ => (tt, w)
  end.

Definition env : Env := mkEnv respond.
End Offline.

(** ** A sample runtime

    The theorems hold for every [JSRuntime]; this one instantiates them in
    examples.  It formats a number as its integer part, knows the time value
    of one date, treats strings as ASCII text and serialises nodes without
    escaping. *)

Fixpoint sample_html (n : Node) : string :=
  match n with
  | Text s => s
  | Elem tag cls children =>
      "<" ++ tag
      ++ match cls with Some c => " class='" ++ c ++ "'" | None => "" end
      ++ ">" ++ String.concat "" (map sample_html children) ++ "</" ++ tag ++ ">"
  end.

Definition sample_runtime : JSRuntime := {|
  Intl_NumberFormat_format := fun _ opts x => (currency opts ++ " " ++ Z_toString (Qfloor x))%string;
  Date_getTime := fun s =>
    if String.eqb s "2024-01-15T10:30:12.345Z" then Some 1705314612345 else None;
  Date_toLocaleDateString := fun s => substring 0 10 s;
  Number_toLocaleString := fun x => Z_toString (Qfloor x);
  Number_toString := fun x => Z_toString (Qfloor x);
  String_substring := fun s a b => substring a (b - a) s;
  String_toUpperCase := ascii_toUpperCase;
  innerHTML := fun children => String.concat "" (map sample_html children)
|}.

(** The same browser set to another locale: dates are written day first. *)
Definition day_first_runtime : JSRuntime := {|
  Intl_NumberFormat_format := @Intl_NumberFormat_format sample_runtime;
  Date_getTime := @Date_getTime sample_runtime;
  Date_toLocaleDateString := fun s =>
    (substring 8 2 s ++ "/" ++ substring 5 2 s ++ "/" ++ substring 0 4 s)%string;
  Number_toLocaleString := @Number_toLocaleString sample_runtime;
  Number_toString := @Number_toString sample_runtime;
  String_substring := @String_substring sample_runtime;
  String_toUpperCase := @String_toUpperCase sample_runtime;
  innerHTML := @innerHTML sample_runtime
|}.

(** ** Sample values *)

Definition lamp : Product :=
  Product.mk "p1" "Lamp" 2500 "lamp.png" "Home" "A desk lamp" None None None.

Definition ada : User := User.mk "u1".

Definition shop : InMemory.World :=
  InMemory.mkWorld [lamp] [("p1", "lamp-side.png")]
                   [InMemory.mkRow "p1" "u2" 4; InMemory.mkRow "p9" "u1" 1] [].

Definition rated_lamp : Product :=
  Product.mk "p2" "Rated lamp" 4000 "lamp2.png" "Home" "A rated lamp" (Some (7 # 2)) None None.

(** The detail page of the lamp with a gallery of three images, on the last one. *)
Definition three_images : ProductDetails.State :=
  ProductDetails.mkState false (Some lamp) ["a.png"; "b.png"; "c.png"] (Some 2)
                         false 5 0 false.

Definition sample_order : OrderReceipt.Order :=
  OrderReceipt.mkOrder "a1b2c3d4-0000-4000-8000-000000000000" "2024-01-15T10:30:12.345Z"
    6500 "paid" "Ada" "0800 000 0000" "1 Market Road" None None
    [OrderReceipt.mkOrderItem (OrderReceipt.mkItemProduct "Lamp" "lamp.png") 1 2500;
     OrderReceipt.mkOrderItem (OrderReceipt.mkItemProduct "Rated lamp" "lamp2.png") 1 4000].

(** Ada rates the lamp 5 when another user has rated it 4. *)
Definition ada_rates_lamp : Outcome ProductDetails.State InMemory.World unit :=
  run InMemory.env (ProductDetails.handleRating three_images (Some ada) 5) three_images shop.

(** The same when two other users have rated it 4 and 5, *)
Definition busy_shop : InMemory.World :=
  InMemory.mkWorld [lamp] [("p1", "lamp-side.png")]
                   [InMemory.mkRow "p1" "u2" 4; InMemory.mkRow "p1" "u4" 5] [].

Definition ada_rates_busy_lamp : Outcome ProductDetails.State InMemory.World unit :=
  run InMemory.env (ProductDetails.handleRating three_images (Some ada) 5) three_images
      busy_shop.

(** and when a third user rates it 3 while Ada's rating is being processed. *)
Definition ada_rates_lamp_in_a_crowd : Outcome ProductDetails.State InMemory.World unit :=
  run Crowded.env (ProductDetails.handleRating three_images (Some ada) 5) three_images shop.

(** Two fetches of the lamp, as on a mount under StrictMode; the answers
    to the first one arrive before any answer to the second. *)
Definition double_fetch : Page ProductDetails.State InMemory.World :=
  acts InMemory.env
       [ starts (ProductDetails.fetchProductDetails "p1" (Some ada));
         starts (ProductDetails.fetchProductDetails "p1" (Some ada));
         settles 0; settles 0; settles 0 ]
       (mkPage ProductDetails.initial shop []).

(** * Observations

    The functions on traces and views in which the properties are stated. *)

(** The number of filled stars. *)
Definition count_filled (l : list bool) : Z :=
  Z.of_nat (List.length (filter (fun b => b) l)).

(** The rating shown while the second request of the fetch is pending,
    that is, right after [setRating(productData.rating || 5)]. *)
Definition rating_after_product (t : Trace ProductDetails.State) : option Q :=
  match t with
  | _ :: step :: _ => Some (ProductDetails.rating (pending step))
  | _ => None
  end.

(** The prefix of every product link. *)
Definition link_prefix : string := "https://ulishastore.netlify.app/product/".

(** What the environment sees when the clipboard accepts the link... *)
Definition copy_succeeded (link : string) : list Event :=
  let note := notification_element "Link copied to clipboard!" success in
  [ Ev (clipboard_writeText link) (Fulfilled tt);
    Ev (body_appendChild note) tt;
    Ev (setTimeout (FadeOut note) 3000) tt;
    Ev (setTimeout ResetLinkCopied 2000) tt ].

(** ... and when it refuses with [err]. *)
Definition copy_failed (link : string) (err : Error) : list Event :=
  let note := notification_element "Failed to copy link" error_ in
  [ Ev (clipboard_writeText link) (Rejected err);
    Ev (console_error "Failed to copy link: " err) tt;
    Ev (body_appendChild note) tt;
    Ev (setTimeout (FadeOut note) 3000) tt ].

(** A call that reaches the cart store or the backend. *)
Definition reaches_store (ev : Event) : bool :=
  match ev with
  | Ev (await_query _) _ | Ev (await_addToCart _) _ => true
  | Ev _ _ => false
  end.

(** The decimal digits print the number: read back, least significant
    first, they give it again. *)
Fixpoint digits_value (l : list ascii) : Z :=
  match l with
  | [] => 0
  | c :: l' => (Z.of_nat (nat_of_ascii c) - 48) + 10 * digits_value l'
  end.

(** The five low decimal digits of [t], most significant first. *)
Definition five_digits (t : Z) : string :=
  string_of_list_ascii
    [ digit (t / 10000 mod 10); digit (t / 1000 mod 10); digit (t / 100 mod 10);
      digit (t / 10 mod 10); digit (t mod 10) ].

(** The documents written to a print window, and the blobs offered for download. *)
Fixpoint printed (l : list Event) : list string :=
  match l with
  | [] => []
  | Ev (printWindow_write html) _ :: l' => html :: printed l'
  | _ :: l' => printed l'
  end.

Fixpoint downloaded (l : list Event) : list string :=
  match l with
  | [] => []
  | Ev (createObjectURL blob _) _ :: l' => blob :: downloaded l'
  | _ :: l' => downloaded l'
  end.

(** The arithmetic mean as the specification has it: sum divided by count. *)
Definition Qsum (l : list Q) : Q := fold_right Qplus 0%Q l.

Definition arithmetic_mean (l : list Q) : Q :=
  (Qsum l / inject_Z (Z.of_nat (List.length l)))%Q.

(** The finite doubles: a significand below 2^53 times a power of two
    between 2^-1074 and 2^971. *)
Definition is_double (x : Q) : Prop :=
  exists m k, Z.abs m < 2 ^ 53 /\ 0 <= k <= 2045 /\ (x == m * 2 ^ k # quantum)%Q.

(** A rating as the stars write it ([handleRating(i + 1)], line 310): a
    whole number from 1 to 5. *)
Definition star_value (r : Q) : Prop := exists z, 1 <= z <= 5 /\ (r == inject_Z z)%Q.

(** A double of the Standard Library's specification of binary64, by value. *)
Definition number_of_spec (f : SpecFloat.spec_float) : Number :=
  match f with
  | SpecFloat.S754_zero _ => Finite 0
  | SpecFloat.S754_infinity s => Infinity s
  | SpecFloat.S754_nan => NaN
  | SpecFloat.S754_finite s m e =>
      Finite (Qred ((if s then -1 else 1) * (inject_Z (Zpos m) * Qpower 2 e)))
  end.

Definition binary64 (z : Z) : SpecFloat.spec_float :=
  SpecFloat.binary_normalize 53 1024 z 0 false.

(** The values a run writes to [products.rating]. *)
Fixpoint written_back (l : list Event) : list Number :=
  match l with
  | [] => []
  | Ev (await_query (products_update_rating _ x)) _ :: l' => x :: written_back l'
  | _ :: l' => written_back l'
  end.

(** The rating numbers in the answer to a query, *)
Definition ratings_in (q : Query) : Settled (Response (Rows q)) -> list Q :=
  match q return Settled (Response (Rows q)) -> list Q with
  | product_ratings_select _ | product_ratings_select_user _ _ =>
      fun r =>
        match r with
        | Fulfilled a => match data a with Some l => l | None => [] end
        | Rejected _ => []
        end
  | products_select_single _ =>
      fun r =>
        match r with
        | Fulfilled a =>
            match data a with
            | Some p => match Product.rating p with Some x => [x] | None => [] end
            | None => []
            end
        | Rejected _ => []
        end
  | _ => fun _ => []
  end.

(** and all rating numbers the backend sent during a run. *)
Fixpoint received_ratings (l : list Event) : list Q :=
  match l with
  | [] => []
  | Ev e r :: l' =>
      match e in Ext R return R -> list Q with
      | await_query q => ratings_in q
      | _ => fun _ => []
      end r ++ received_ratings l'
  end.

(** "The aggregate is produced by the backend": whatever is written back
    is a number the backend sent. *)
Definition aggregate_from_backend (l : list Event) : Prop :=
  forall x, In x (written_back l) ->
    exists y, In y (received_ratings l)
              /\ match x with Finite q => (q == y)%Q | _ => False end.

(** The select of [handleRating] answered with [ratings]. *)
Definition ratings_answer (pid : string) (ratings : list Q) : Event :=
  Ev (await_query (product_ratings_select pid)) (Fulfilled (mkResponse (Some ratings) None)).

(** A query that was answered without an error; other calls always count. *)
Definition succeeded (ev : Event) : Prop :=
  match ev with
  | Ev e r =>
      match e in Ext R return R -> Prop with
      | await_query _ =>
          fun r => match r with
                   | Fulfilled a => error a = None
                   | Rejected _ => False
                   end
      | _ => fun _ => True
      end r
  end.

(** The select of [handleRating] returned at least one rating. *)
Definition some_rating (ev : Event) : Prop :=
  match ev with
  | Ev e r =>
      match e in Ext R return R -> Prop with
      | await_query q =>
          match q return Settled (Response (Rows q)) -> Prop with
          | product_ratings_select _ =>
              fun r => match r with
                       | Fulfilled a => exists x l, data a = Some (x :: l)
                       | Rejected _ => False
                       end
          | _ => fun _ => True
          end
      | _ => fun _ => True
      end r
  end.

(** The page load for a logged-in user, *)
Definition page_load (env : Env) (productId : string) (u : User)
    (s : ProductDetails.State) (w : world env) :=
  run env (ProductDetails.fetchProductDetails productId (Some u)) s w.

(** and a click on a star after it. *)
Definition star_click (env : Env) (u : User) (v : Q)
    (before : Outcome ProductDetails.State (world env) unit) :=
  run env (ProductDetails.handleRating (state before) (Some u) v) (state before) (after before).

(** A request to the backend, as opposed to a call to the browser. *)
Definition is_query {R} (e : Ext R) : bool :=
  match e with
  | await_query _ => true
  | _ => false
  end.

(** * The remaining handlers of the components *)

(** ** String built-ins used by the share links *)

(** The characters [encodeURIComponent] leaves alone:
    A-Z a-z 0-9 - _ . ! ~ * ' ( ) *)
Definition unreserved (c : ascii) : bool :=
  let n := nat_of_ascii c in
  ((65 <=? n)%nat && (n <=? 90)%nat)
  || ((97 <=? n)%nat && (n <=? 122)%nat)
  || ((48 <=? n)%nat && (n <=? 57)%nat)
  || (n =? 45)%nat || (n =? 95)%nat || (n =? 46)%nat || (n =? 33)%nat
  || (n =? 126)%nat || (n =? 42)%nat || (n =? 39)%nat || (n =? 40)%nat || (n =? 41)%nat.

Definition hex_digit (n : nat) : ascii :=
  if (n <? 10)%nat then ascii_of_nat (48 + n) else ascii_of_nat (55 + n).

(** [%XX] for one byte. *)
Definition percent_encode (c : ascii) : string :=
  let n := nat_of_ascii c in
  String "%" (String (hex_digit (n / 16)) (String (hex_digit (n mod 16)) EmptyString)).

(** [encodeURIComponent(s)] on a string held as its UTF-8 bytes: every byte
    that is not an unreserved character becomes [%XX]. *)
Fixpoint encodeURIComponent (s : string) : string :=
  match s with
  | EmptyString => EmptyString
  | String c rest =>
      (if unreserved c then String c EmptyString else percent_encode c)
      ++ encodeURIComponent rest
  end.

(** A string value in a condition: null, undefined and the empty string are falsy. *)
Definition truthy (x : option string) : option string :=
  match x with
  | Some (String c rest) => Some (String c rest)
  | _ => None
  end.

Inductive Platform : Type := facebook | twitter | whatsapp.

(** The [switch] of [shareToSocial], the same in both components. *)
Definition shareUrl (platform : Platform) (text link : string) : string :=
  match platform with
  | facebook =>
      "https://www.facebook.com/sharer/sharer.php?u=" ++ encodeURIComponent link
  | twitter =>
      "https://twitter.com/intent/tweet?text=" ++ encodeURIComponent text
      ++ "&url=" ++ encodeURIComponent link
  | whatsapp =>
      "https://wa.me/?text=" ++ encodeURIComponent (text ++ " " ++ link)
  end.

(** ** src/pages/ProductDetails.tsx, the other handlers *)

Module DetailsActions.
Import ProductDetails.

(** Lines 111-115. *)
Definition handleCallSeller (s : State) : Prog State unit :=
  match product s with
  | Some p =>
      match truthy (Product.seller_phone p) with
      | Some phone => call (location_href_set ("tel:" ++ phone)%string)
      | None => Ret tt
      end
  | None => Ret tt
  end.

(** Lines 143-161. *)
Definition shareToSocial (s : State) (productId : option string) (platform : Platform)
  : Prog State unit :=
  let link := getProductLink productId in
  let text :=
    match product s with
    | Some p => ("Check out this product: " ++ Product.name p)%string
    | None => "Check out this product"
    end in
  call (window_open (shareUrl platform text link) "_blank") ;;
  Ret tt.

(** Line 277: a click on thumbnail [index]. *)
Definition selectImage (index : Z) : Prog State unit :=
  setCurrentImageIndex (fun _ => Some index).

(** Lines 310-312: the star at position [i] (0..4). *)
Definition star_onClick (s : State) (user : option User) (i : Z) : Prog State unit :=
  handleRating s user (inject_Z (i + 1)).
Definition star_onMouseEnter (i : Z) : Prog State unit :=
  setHoverRating (inject_Z (i + 1)).
Definition star_onMouseLeave : Prog State unit :=
  setHoverRating 0.

End DetailsActions.

(** ** src/components/ProductCard.tsx, the other handlers *)

Module CardActions.
Import ProductCard.

(** Lines 36-40. *)
Definition handleCallSeller (product : Product) : Prog State unit :=
  match truthy (Product.seller_phone product) with
  | Some phone => call (location_href_set ("tel:" ++ phone)%string)
  | None => Ret tt
  end.

(** Lines 60-79. *)
Definition shareToSocial (product : Product) (platform : Platform) : Prog State unit :=
  let link := getProductLink product in
  let text := ("Check out this product: " ++ Product.name product)%string in
  call (window_open (shareUrl platform text link) "_blank") ;;
  setShowShareOptions false.

(** Line 109: the share button, with [s] the state of the render it belongs to. *)
Definition share_onClick (s : State) : Prog State unit :=
  setShowShareOptions (negb (showShareOptions s)).

End CardActions.

(** ** Timers

    [run] records the timers a handler arms.  [settle] is the browser's
    timer loop: it fires the armed timers in the order of their due times
    (first armed first among equals), running each callback against the
    environment and scheduling the timers the callback arms. *)

Record Timer : Type := mkTimer {
  due : Z;
  callback : Callback
}.

(** The timers armed in a trace, as (delay, callback). *)
Fixpoint armed (l : list Event) : list (Z * Callback) :=
  match l with
  | [] => []
  | Ev (setTimeout cb ms) _ :: l' => (ms, cb) :: armed l'
  | _ :: l' => armed l'
  end.

Fixpoint schedule (t : Timer) (q : list Timer) : list Timer :=
  match q with
  | [] => [t]
  | t' :: q' => if due t <? due t' then t :: q else t' :: schedule t q'
  end.

Definition schedule_all (now : Z) (l : list (Z * Callback)) (q : list Timer) : list Timer :=
  fold_left (fun q a => schedule (mkTimer (now + fst a) (snd a)) q) l q.

(** What happened, and when (milliseconds after the handler ran). *)
Definition Timeline : Type := list (Z * Event).

Record Settled_page (S W : Type) : Type := mkSettled {
  timeline : Timeline;
  final : S;
  world_after : W;
  still_armed : list Timer
}.

Fixpoint settle (env : Env) {S} (fire_cb : Callback -> Prog S unit) (fuel : nat)
    (q : list Timer) (s : S) (w : world env) : Settled_page S (world env) :=
  match fuel, q with
  | Datatypes.S fuel', t :: q' =>
      let o := run env (fire_cb (callback t)) s w in
      let r := settle env fire_cb fuel'
                 (schedule_all (due t) (armed (events (trace o))) q') (state o) (after o) in
      mkSettled (map (fun ev => (due t, ev)) (events (trace o)) ++ timeline r)
                (final r) (world_after r) (still_armed r)
  | _, _ => mkSettled [] s w q
  end.

(** A handler run at time 0, followed by its timers. *)
Definition play (env : Env) {S} (fire_cb : Callback -> Prog S unit) (fuel : nat)
    (p : Prog S unit) (s : S) (w : world env) : Settled_page S (world env) :=
  let o := run env p s w in
  let r := settle env fire_cb fuel (schedule_all 0 (armed (events (trace o))) [])
                  (state o) (after o) in
  mkSettled (map (fun ev => (0, ev)) (events (trace o)) ++ timeline r)
            (final r) (world_after r) (still_armed r).

(** The elements appended to and removed from the body, in order. *)
Fixpoint appended (l : list Event) : list Element :=
  match l with
  | [] => []
  | Ev (body_appendChild el) _ :: l' => el :: appended l'
  | _ :: l' => appended l'
  end.

Fixpoint removed (l : list Event) : list Element :=
  match l with
  | [] => []
  | Ev (body_removeChild el) _ :: l' => el :: removed l'
  | _ :: l' => removed l'
  end.

(** ** A backend that refuses some queries

    The in-memory environment, except that the queries selected by [fails]
    are answered with an error and leave the tables alone. *)

Module Faulty.
Definition refused : Error := BackendError "permission denied".

Definition respond (fails : Query -> bool) (R : Type) (e : Ext R) (w : InMemory.World)
  : R * InMemory.World :=
  match e in Ext R0 return R0 * InMemory.World with
  | await_query q =>
      if fails q then (Fulfilled (mkResponse None (Some refused)), w)
      else InMemory.answer q w
  | other => InMemory.respond other w
  end.

Definition env (fails : Query -> bool) : Env := mkEnv (respond fails).

Definition the_select (q : Query) : bool :=
  match q with product_ratings_select _ => true | _ => false end.

Definition the_update (q : Query) : bool :=
  match q with products_update_rating _ _ => true | _ => false end.

Definition the_images (q : Query) : bool :=
  match q with product_images_select _ => true | _ => false end.

Definition the_user_rating (q : Query) : bool :=
  match q with product_ratings_select_user _ _ => true | _ => false end.
End Faulty.

(** ** A backend that shows no ratings

    The in-memory environment, except that the list of a product's ratings
    always comes back empty (as under a policy that hides the rows). *)

Module Veiled.
Definition respond (R : Type) (e : Ext R) (w : InMemory.World) : R * InMemory.World :=
  match e in Ext R0 return R0 * InMemory.World with
  | await_query q =>
      match q return Settled (Response (Rows q)) * InMemory.World with
      | product_ratings_select _ => (InMemory.ok [], w)
      | other => InMemory.answer other w
      end
  | other => InMemory.respond other w
  end.

Definition env : Env := mkEnv respond.
End Veiled.

(** ** More observations *)

(** The error a checked [await] ends with: a rejection, or the [error] of
    the answer that the code rethrows. *)
Definition thrown {A} (r : Settled (Response A)) : option Error :=
  match r with
  | Rejected e => Some e
  | Fulfilled a => error a
  end.

(** What [console.error] printed. *)
Fixpoint logged (l : list Event) : list (string * Error) :=
  match l with
  | [] => []
  | Ev (console_error label e) _ :: l' => (label, e) :: logged l'
  | _ :: l' => logged l'
  end.

(** The answers to the select and to the update of [handleRating]. *)
Definition select_answer_of (ev : Event) : option (Settled (Response (list Q))) :=
  match ev with
  | Ev e r =>
      match e in Ext R return R -> option (Settled (Response (list Q))) with
      | await_query q =>
          match q return Settled (Response (Rows q))
                         -> option (Settled (Response (list Q))) with
          | product_ratings_select _ => fun r => Some r
          | _ => fun _ => None
          end
      | _ => fun _ => None
      end r
  end.

Definition update_answer_of (ev : Event) : option (Settled (Response unit)) :=
  match ev with
  | Ev e r =>
      match e in Ext R return R -> option (Settled (Response unit)) with
      | await_query q =>
          match q return Settled (Response (Rows q))
                         -> option (Settled (Response unit)) with
          | products_update_rating _ _ => fun r => Some r
          | _ => fun _ => None
          end
      | _ => fun _ => None
      end r
  end.

Fixpoint first_answer {A} (f : Event -> option A) (l : list Event) : option A :=
  match l with
  | [] => None
  | ev :: l' => match f ev with Some a => Some a | None => first_answer f l' end
  end.

(** The notifications of the handlers. *)
Definition note_added : Element := notification_element "Product added to cart!" success.
Definition note_not_added : Element :=
  notification_element "Failed to add product to cart. Please try again." error_.
Definition note_rated : Element :=
  notification_element "Thank you for rating this product!" success.
Definition note_not_rated : Element :=
  notification_element "Failed to submit rating. Please try again." error_.

(** The rating the fetch takes from the answer about the user's own
    rating: [userRatings[0].rating] when there is no error and a row. *)
Definition first_rating (r : Settled (Response (list Q))) : option Q :=
  match r with
  | Fulfilled a =>
      match error a, data a with
      | None, Some (x :: _) => Some x
      | _, _ => None
      end
  | Rejected _ => None
  end.

(** [l1] is an initial part of [l2]. *)
Definition initial_part {A} (l1 l2 : list A) : Prop := exists rest, l1 ++ rest = l2.

(** The detail page of the lamp after its user rated it, on the last of
    three images. *)
Definition rated_page : ProductDetails.State :=
  ProductDetails.mkState false (Some lamp) ["a.png"; "b.png"; "c.png"] (Some 2)
                         false 4 0 true.

(** ** Observations on share links *)

(** How often a character occurs in a string. *)
Fixpoint occurrences (c : ascii) (s : string) : nat :=
  match s with
  | EmptyString => 0
  | String c' rest => (if Ascii.eqb c c' then 1 else 0) + occurrences c rest
  end.

(** The value of a hexadecimal digit. *)
Definition hex_value (c : ascii) : option nat :=
  let n := nat_of_ascii c in
  if (48 <=? n)%nat && (n <=? 57)%nat then Some (n - 48)%nat
  else if (65 <=? n)%nat && (n <=? 70)%nat then Some (n - 55)%nat
  else if (97 <=? n)%nat && (n <=? 102)%nat then Some (n - 87)%nat
  else None.

(** What the receiving site reads from a query parameter: every [%XX]
    is the byte XX again. *)
Fixpoint percent_decode (s : string) : string :=
  match s with
  | EmptyString => EmptyString
  | String c rest =>
      if Ascii.eqb c "%" then
        match rest with
        | String a (String b rest') =>
            match hex_value a, hex_value b with
            | Some x, Some y => String (ascii_of_nat (16 * x + y)%nat) (percent_decode rest')
            | _, _ => String c (percent_decode rest)
            end
        | _ => String c (percent_decode rest)
        end
      else String c (percent_decode rest)
  end.

(** The URLs handed to [window.open]. *)
Fixpoint windows_opened (l : list Event) : list (string * string) :=
  match l with
  | [] => []
  | Ev (window_open url target) _ :: l' => (url, target) :: windows_opened l'
  | _ :: l' => windows_opened l'
  end.

(** The text that is shared for a product. *)
Definition share_text (p : Product) : string :=
  "Check out this product: " ++ Product.name p.

(** A character that [encodeURIComponent] never lets through. *)
Definition separator (c : ascii) : Prop := unreserved c = false /\ c <> "%"%char.

(** ** Repeated clicks *)

(** [k] clicks on a button whose handler is [h], each handled in the state
    the previous click left. *)
Fixpoint press (env : Env) {S} (h : S -> Prog S unit) (k : nat) (s : S) (w : world env)
  : S * world env :=
  match k with
  | O => (s, w)
  | Datatypes.S k' =>
      let o := run env (h s) s w in
      press env h k' (state o) (after o)
  end.

(** ** main.tsx: the install prompt of the PWA

    The script keeps one variable, [deferredPrompt], and reacts to two
    window events; the listeners it adds to the install button react to
    clicks, and the callbacks it registers on [userChoice] run when the user
    has answered the prompt.  [Page] is what these handlers read and write. *)

Module Main.

(** [let deferredPrompt: any]: not yet assigned, null, or a stashed
    beforeinstallprompt event (numbered). *)
Inductive Any : Type :=
| undefined
| null
| prompt_event (e : nat).

(** The element with id install-button: its [style.display] and the number
    of click listeners the script has added to it. *)
Record Button : Type := mkButton {
  display : string;
  clickListeners : nat
}.

Record Page : Type := mkPage {
  deferredPrompt : Any;
  installButton : option Button;   (* document.getElementById('install-button') *)
  prevented : list nat;            (* events whose preventDefault() was called *)
  prompted : list nat;             (* events whose prompt() was called *)
  waiting : list nat;              (* events with a callback on userChoice *)
  console : list string;           (* console.log *)
  uncaught : nat                   (* TypeErrors thrown by listeners *)
}.

(** Lines 9-35. *)
Definition on_beforeinstallprompt (e : nat) (p : Page) : Page :=
  mkPage (prompt_event e)
         match installButton p with
         | Some b => Some (mkButton "block" (Datatypes.S (clickListeners b)))
         | None => None
         end
         (prevented p ++ [e]) (prompted p) (waiting p) (console p) (uncaught p).

(** Lines 20-33: one click listener.  Reading [prompt] of null or
    undefined throws. *)
Definition installButton_onClick (p : Page) : Page :=
  match deferredPrompt p with
  | prompt_event e =>
      mkPage (deferredPrompt p) (installButton p) (prevented p)
             (prompted p ++ [e]) (waiting p ++ [e]) (console p) (uncaught p)
  | _ =>
      mkPage (deferredPrompt p) (installButton p) (prevented p)
             (prompted p) (waiting p) (console p) (Datatypes.S (uncaught p))
  end.

(** A click on the button runs every listener added to it. *)
Definition click (p : Page) : Page :=
  match installButton p with
  | Some b => Nat.iter (clickListeners b) installButton_onClick p
  | None => p
  end.

(** Lines 25-32: the callback given to [userChoice.then]. *)
Definition userChoice_then (outcome : string) (p : Page) : Page :=
  mkPage null (installButton p) (prevented p) (prompted p) (waiting p)
         (console p ++ [if String.eqb outcome "accepted"
                        then "User accepted the install prompt"
                        else "User dismissed the install prompt"])
         (uncaught p).

(** The user answers the prompt of event [e]: every callback waiting on it runs. *)
Definition answer_prompt (e : nat) (outcome : string) (p : Page) : Page :=
  Nat.iter (count_occ Nat.eq_dec (waiting p) e) (userChoice_then outcome)
    (mkPage (deferredPrompt p) (installButton p) (prevented p) (prompted p)
            (filter (fun e' => negb (Nat.eqb e' e)) (waiting p)) (console p) (uncaught p)).

(** Lines 38-46. *)
Definition on_appinstalled (p : Page) : Page :=
  mkPage null
         match installButton p with
         | Some b => Some (mkButton "none" (clickListeners b))
         | None => None
         end
         (prevented p) (prompted p) (waiting p)
         (console p ++ ["PWA was installed"]) (uncaught p).

(** The page when the script has just been loaded. *)
Definition loaded (button : option Button) : Page :=
  mkPage undefined button [] [] [] [] 0.

End Main.

(** * Properties *)

(** ** The interpreter *)

Section RunFacts.
Variable env : Env.

Lemma run_bind S A B (p : Prog S A) (f : A -> Prog S B) (s : S) (w : world env) :
  run env (bind p f) s w =
  let o1 := run env p s w in
  let o2 := run env (f (result o1)) (state o1) (after o1) in
  mkOutcome (result o2) (state o2) (after o2) (trace o1 ++ trace o2).
Proof.
  revert s w. induction p as [a | g k IH | R e k IH]; intros s w; simpl.
  - destruct (run env (f a) s w); reflexivity.
  - apply IH.
  - destruct (respond env e w) as [r w']. rewrite IH. reflexivity.
Qed.

Lemma run_update S (f : S -> S) (s : S) (w : world env) :
  run env (update f) s w = mkOutcome tt (f s) w [].
Proof. reflexivity. Qed.
End RunFacts.

(** ** Handlers as tasks *)

Section Alone.
Variable env : Env.

Lemma alone_finished S (fuel : nat) (s : S) (w : world env) (t : Trace S) :
  alone env fuel (mkProgress Finished s w t) = mkProgress Finished s w t.
Proof. destruct fuel; reflexivity. Qed.

Lemma alone_run S (p : Prog S unit) (s : S) (w : world env) (before : Trace S) :
  exists n, forall fuel, (n <= fuel)%nat ->
    alone env fuel
      (mkProgress (task (advance env p s w)) (shown (advance env p s w))
                  (outside (advance env p s w)) (before ++ steps (advance env p s w)))
    = mkProgress Finished (state (run env p s w)) (after (run env p s w))
                 (before ++ trace (run env p s w)).
Proof.
  revert s w before. induction p as [a | g k IH | R e k IH]; intros s w before.
  - exists 0%nat. intros fuel _. cbn. apply alone_finished.
  - cbn [advance run]. apply IH.
  - cbn [advance run]. destruct (returns_promise e) eqn:Hp.
    + cbn [task shown outside steps].
      destruct (respond env e w) as [r w'] eqn:Er.
      destruct (IH r s w' (before ++ [mkStep s (Ev e r)])) as [n Hn].
      exists (Datatypes.S n). intros fuel Hfuel.
      destruct fuel as [| fuel]; [lia |].
      cbn [alone task shown outside steps deliver]. rewrite Er.
      cbn [task shown outside steps state after trace].
      rewrite app_nil_r.
      replace (before ++ mkStep s (Ev e r) :: steps (advance env (k r) s w'))
        with ((before ++ [mkStep s (Ev e r)]) ++ steps (advance env (k r) s w'))
        by (rewrite <- app_assoc; reflexivity).
      rewrite Hn by lia. rewrite <- app_assoc. reflexivity.
    + destruct (respond env e w) as [r w'] eqn:Er.
      cbn [task shown outside steps state after trace].
      destruct (IH r s w' (before ++ [mkStep s (Ev e r)])) as [n Hn].
      exists n. intros fuel Hfuel.
      replace (before ++ mkStep s (Ev e r) :: steps (advance env (k r) s w'))
        with ((before ++ [mkStep s (Ev e r)]) ++ steps (advance env (k r) s w'))
        by (rewrite <- app_assoc; reflexivity).
      rewrite Hn by lia. rewrite <- app_assoc. reflexivity.
Qed.

(** [run] is the handler as a task that is left alone: with enough fuel
    the task finishes, in the state, the world and with the calls of [run]. *)
Theorem run_alone S (p : Prog S unit) (s : S) (w : world env) :
  exists n, forall fuel, (n <= fuel)%nat ->
    alone env fuel (advance env p s w)
    = mkProgress Finished (state (run env p s w)) (after (run env p s w))
                 (trace (run env p s w)).
Proof.
  destruct (alone_run p s w []) as [n Hn]. exists n. intros fuel Hfuel.
  specialize (Hn fuel Hfuel). cbn [app] in Hn. rewrite <- Hn.
  destruct (advance env p s w); reflexivity.
Qed.
End Alone.

(** ** Rounding to the nearest double *)

Lemma nearest_even_half (N D : Z) :
  0 < D -> 2 * Z.abs (nearest_even N D * D - N) <= D.
Proof.
  intros HD. unfold nearest_even.
  pose proof (Z.div_mod N D ltac:(lia)) as E.
  pose proof (Z.mod_pos_bound N D HD) as B.
  destruct (Z.compare_spec (2 * (N mod D)) D); [destruct (Z.even (N / D)) | |]; lia.
Qed.

Lemma nearest_even_closest (N D j : Z) :
  0 < D -> Z.abs (nearest_even N D * D - N) <= Z.abs (j * D - N).
Proof.
  intros HD. pose proof (@nearest_even_half N D HD) as H.
  destruct (Z.eq_dec j (nearest_even N D)) as [-> | Hne]; [lia |].
  assert (D <= Z.abs (j * D - nearest_even N D * D)) by nia.
  lia.
Qed.

Lemma nearest_even_exact (a D : Z) : 0 < D -> nearest_even (a * D) D = a.
Proof.
  intros HD. unfold nearest_even.
  rewrite Z.mod_mul, Z.div_mul by lia.
  destruct (Z.compare_spec (2 * 0) D); lia.
Qed.

Lemma nearest_even_bounds (N D c : Z) :
  0 < D -> 0 <= N < c * D -> 0 <= nearest_even N D <= c.
Proof.
  intros HD HN.
  assert (0 <= N / D) by (apply Z.div_pos; lia).
  assert (N / D < c) by (apply Z.div_lt_upper_bound; lia).
  unfold nearest_even.
  destruct (Z.compare_spec (2 * (N mod D)) D); [destruct (Z.even (N / D)) | |]; lia.
Qed.

Lemma nearest_even_lower (N D c : Z) : 0 < D -> c * D <= N -> c <= nearest_even N D.
Proof.
  intros HD HN.
  assert (c <= N / D) by (apply Z.div_le_lower_bound; lia).
  unfold nearest_even.
  destruct (Z.compare_spec (2 * (N mod D)) D); [destruct (Z.even (N / D)) | |]; lia.
Qed.

Lemma quanta_spec (n d : positive) :
  exists m k,
    quanta n d = m * 2 ^ k
    /\ 0 <= k
    /\ 0 <= m <= 2 ^ 53
    /\ (forall j, Z.abs (m * (Zpos d * 2 ^ k) - Zpos n * Zpos quantum)
                  <= Z.abs (j * (Zpos d * 2 ^ k) - Zpos n * Zpos quantum))
    /\ (0 < k -> 2 ^ 52 * (Zpos d * 2 ^ k) <= Zpos n * Zpos quantum)
    /\ (0 < k -> 2 ^ 52 <= m).
Proof.
  unfold quanta.
  set (N := Zpos n * Zpos quantum).
  set (F := N / Zpos d).
  set (k := Z.max 0 (Z.log2 F - 52)).
  assert (HN : 0 < N) by (unfold N; lia).
  assert (HF : 0 <= F) by (apply Z.div_pos; lia).
  assert (Hk : 0 <= k) by lia.
  assert (H2k : 0 < 2 ^ k) by (apply Z.pow_pos_nonneg; lia).
  assert (HD : 0 < Zpos d * 2 ^ k) by lia.
  pose proof (Z.div_mod N (Zpos d) ltac:(lia)) as E. fold F in E.
  pose proof (Z.mod_pos_bound N (Zpos d) ltac:(lia)) as B.
  pose proof (Z.log2_nonneg F) as HL.
  exists (nearest_even N (Zpos d * 2 ^ k)), k.
  split; [reflexivity |]. split; [exact Hk |].
  assert (Hlow : 0 < k -> 2 ^ 52 * (Zpos d * 2 ^ k) <= N).
  { intros Hpos.
    assert (HkL : k = Z.log2 F - 52) by lia.
    assert (HF0 : 0 < F).
    { destruct (Z.eq_dec F 0) as [E0 | E0]; [| lia]. rewrite E0 in HkL. cbn in HkL. lia. }
    destruct (Z.log2_spec F HF0) as [Hlow _].
    assert (E2 : 2 ^ 52 * 2 ^ k = 2 ^ Z.log2 F).
    { rewrite <- Z.pow_add_r by lia. f_equal. lia. }
    nia. }
  split; [| split; [| split]].
  - apply nearest_even_bounds; [exact HD |]. split; [lia |].
    assert (HF1 : F + 1 <= 2 ^ 53 * 2 ^ k).
    { rewrite <- Z.pow_add_r by lia.
      destruct (Z.eq_dec F 0) as [-> | HF0].
      - assert (0 < 2 ^ (53 + k)) by (apply Z.pow_pos_nonneg; lia). lia.
      - destruct (Z.log2_spec F ltac:(lia)) as [_ Hup].
        assert (2 ^ Z.succ (Z.log2 F) <= 2 ^ (53 + k)) by (apply Z.pow_le_mono_r; lia).
        lia. }
    nia.
  - intros j. apply nearest_even_closest. exact HD.
  - exact Hlow.
  - intros Hpos. apply nearest_even_lower; [exact HD |]. rewrite Z.mul_comm. rewrite Z.mul_comm in Hlow. apply Hlow, Hpos.
Qed.

Lemma quantum_pow : Zpos quantum = 2 ^ 1074.
Proof. unfold quantum. apply Pos2Z.inj_pow. Qed.

Lemma pow2_split (a b : Z) : 0 <= a <= b -> 2 ^ b = 2 ^ (b - a) * 2 ^ a.
Proof. intros H. rewrite <- Z.pow_add_r by lia. f_equal. lia. Qed.

Lemma quanta_closest (n d : positive) (m' k' : Z) :
  Z.abs m' < 2 ^ 53 -> 0 <= k' ->
  Z.abs (quanta n d * Zpos d - Zpos n * Zpos quantum)
  <= Z.abs (m' * 2 ^ k' * Zpos d - Zpos n * Zpos quantum).
Proof.
  intros Hm Hk'.
  destruct (quanta_spec n d) as [m [k [-> [Hk [Hmb [Hclose [Hlow _]]]]]]].
  replace (m * 2 ^ k * Zpos d) with (m * (Zpos d * 2 ^ k)) by ring.
  destruct (Z.le_gt_cases k k') as [Hle | Hgt].
  - rewrite (@pow2_split k k') by lia.
    replace (m' * (2 ^ (k' - k) * 2 ^ k) * Zpos d)
      with (m' * 2 ^ (k' - k) * (Zpos d * 2 ^ k)) by ring.
    apply Hclose.
  - specialize (Hlow ltac:(lia)). specialize (Hclose (2 ^ 52)).
    assert (H2k' : 0 < 2 ^ k') by (apply Z.pow_pos_nonneg; lia).
    assert (Hstep : 2 * 2 ^ k' <= 2 ^ k).
    { rewrite (@pow2_split (k' + 1) k) by lia.
      rewrite Z.pow_add_r, Z.pow_1_r by lia.
      assert (0 < 2 ^ (k - (k' + 1))) by (apply Z.pow_pos_nonneg; lia). nia. }
    assert (Hy : m' * 2 ^ k' * Zpos d <= 2 ^ 52 * (Zpos d * 2 ^ k)).
    { assert (m' * 2 ^ k' <= 2 ^ 53 * 2 ^ k') by nia.
      change (2 ^ 53) with (2 * 2 ^ 52) in *. nia. }
    lia.
Qed.

Lemma quanta_exact (n d : positive) (M K : Z) :
  0 < M < 2 ^ 53 -> 0 <= K ->
  Zpos n * Zpos quantum = M * 2 ^ K * Zpos d ->
  quanta n d = M * 2 ^ K.
Proof.
  intros HM HK E. unfold quanta. rewrite E.
  rewrite Z.div_mul by lia.
  rewrite Z.log2_mul_pow2 by lia.
  assert (HL : Z.log2 M < 53) by (apply Z.log2_lt_pow2; lia).
  pose proof (Z.log2_nonneg M) as HL0.
  set (k := Z.max 0 (K + Z.log2 M - 52)).
  assert (Hk : 0 <= k <= K) by lia.
  rewrite (@pow2_split k K) by lia.
  replace (M * (2 ^ (K - k) * 2 ^ k) * Zpos d)
    with (M * 2 ^ (K - k) * (Zpos d * 2 ^ k)) by ring.
  rewrite nearest_even_exact; [ring |].
  assert (0 < 2 ^ k) by (apply Z.pow_pos_nonneg; lia). lia.
Qed.

Lemma quanta_pos (n d : positive) : 0 <= quanta n d.
Proof.
  destruct (quanta_spec n d) as [m [k [-> [Hk [Hmb _]]]]].
  assert (0 < 2 ^ k) by (apply Z.pow_pos_nonneg; lia). nia.
Qed.

Section Rounding.
Local Open Scope Q_scope.


Lemma of_quanta_value (z : Z) : of_quanta z == z # quantum.
Proof. apply Qred_correct. Qed.

Lemma Qabs_diff_le (a b n : Z) (U d : positive) :
  (Z.abs (a * Zpos d - n * Zpos U) <= Z.abs (b * Zpos d - n * Zpos U))%Z ->
  Qabs ((a # U) - (n # d)) <= Qabs ((b # U) - (n # d)).
Proof.
  intros H. unfold Qle, Qabs, Qminus, Qplus, Qopp. cbn [Qnum Qden].
  apply Z.mul_le_mono_nonneg_r; [lia |].
  replace (a * Zpos d + - n * Zpos U)%Z with (a * Zpos d - n * Zpos U)%Z by ring.
  replace (b * Zpos d + - n * Zpos U)%Z with (b * Zpos d - n * Zpos U)%Z by ring.
  exact H.
Qed.

Lemma round_wd (x y : Q) (E : x == y) : round x = round y.
Proof. unfold round. rewrite (Qred_complete _ _ E). reflexivity. Qed.

Lemma is_double_0 : is_double 0.
Proof. exists 0%Z, 0%Z. split; [reflexivity | split; [lia | reflexivity]]. Qed.

Lemma is_double_opp (x : Q) : is_double x -> is_double (- x).
Proof.
  intros [m [k [Hm [Hk E]]]]. exists (- m)%Z, k.
  split; [lia | split; [exact Hk |]]. rewrite E.
  unfold Qeq, Qopp. cbn [Qnum Qden]. ring.
Qed.

Lemma is_double_quanta (n d : positive) :
  (quanta n d < 2 ^ 2098)%Z -> is_double (quanta n d # quantum).
Proof.
  intros Hfin.
  destruct (quanta_spec n d) as [m [k [E [Hk [Hmb [_ [_ Hlow]]]]]]].
  rewrite E in *.
  assert (H2k : (0 < 2 ^ k)%Z) by (apply Z.pow_pos_nonneg; lia).
  destruct (Z.eq_dec m 0) as [-> | Hm0].
  { exists 0%Z, 0%Z. split; [reflexivity | split; [lia | reflexivity]]. }
  assert (Hk2045 : (m = 2 ^ 53 -> k < 2045)%Z).
  { intros ->. apply (Z.pow_lt_mono_r_iff 2); [lia | lia |].
    change (2 ^ 2098)%Z with (2 ^ 53 * 2 ^ 2045)%Z in Hfin. nia. }
  assert (Hk2046 : (k <= 2045)%Z).
  { destruct (Z.le_gt_cases k 2045) as [? | Hbig]; [assumption | exfalso].
    assert (Hm52 : (2 ^ 52 <= m)%Z) by (apply Hlow; lia).
    clear Hlow.
    assert (2 ^ 2046 <= 2 ^ k)%Z by (apply Z.pow_le_mono_r; lia).
    change (2 ^ 2098)%Z with (2 ^ 52 * 2 ^ 2046)%Z in Hfin. nia. }
  destruct (Z.eq_dec m (2 ^ 53)) as [-> | Hm53].
  - exists (2 ^ 52)%Z, (k + 1)%Z. specialize (Hk2045 eq_refl).
    split; [reflexivity | split; [lia |]].
    rewrite Z.pow_add_r, Z.pow_1_r by lia.
    unfold Qeq. cbn [Qnum Qden]. change (2 ^ 53)%Z with (2 ^ 52 * 2)%Z. ring.
  - exists m, k. split; [lia | split; [lia | reflexivity]].
Qed.

Theorem round_is_double (q r : Q) : round q = Finite r -> is_double r.
Proof.
  unfold round. destruct (Qred q) as [[| n | n] d].
  - intros E. inversion E. apply is_double_0.
  - destruct (Z.leb_spec (2 ^ 2098) (quanta n d)) as [_ | Hfin]; [discriminate |].
    intros E. inversion E.
    destruct (@is_double_quanta n d Hfin) as [m [k [Hm [Hk Eq]]]].
    exists m, k. split; [exact Hm | split; [exact Hk |]].
    rewrite of_quanta_value. exact Eq.
  - destruct (Z.leb_spec (2 ^ 2098) (quanta n d)) as [_ | Hfin]; [discriminate |].
    intros E. inversion E.
    destruct (is_double_opp (@is_double_quanta n d Hfin)) as [m [k [Hm [Hk Eq]]]].
    exists m, k. split; [exact Hm | split; [exact Hk |]].
    rewrite of_quanta_value. rewrite <- Eq. reflexivity.
Qed.

Theorem round_nearest (q r d : Q) :
  round q = Finite r -> is_double d -> Qabs (r - q) <= Qabs (d - q).
Proof.
  intros Hr [m' [k' [Hm' [Hk' Ed]]]].
  rewrite Ed. rewrite <- (Qred_correct q) at 1 2.
  unfold round in Hr. destruct (Qred q) as [[| n | n] dq].
  - inversion Hr.
    setoid_replace (0 - (0 # dq)) with 0 by reflexivity.
    apply Qabs_nonneg.
  - destruct (2 ^ 2098 <=? quanta n dq)%Z; [discriminate |].
    inversion Hr. rewrite of_quanta_value.
    apply Qabs_diff_le. apply quanta_closest; lia.
  - destruct (2 ^ 2098 <=? quanta n dq)%Z; [discriminate |].
    inversion Hr. rewrite of_quanta_value.
    apply Qabs_diff_le.
    pose proof (@quanta_closest n dq (- m')%Z k' ltac:(lia) ltac:(lia)) as H.
    change (Z.neg n) with (- Z.pos n)%Z.
    replace (- quanta n dq * Z.pos dq - - Z.pos n * Z.pos quantum)%Z
      with (- (quanta n dq * Z.pos dq - Z.pos n * Z.pos quantum))%Z by ring.
    replace (m' * 2 ^ k' * Z.pos dq - - Z.pos n * Z.pos quantum)%Z
      with (- (- m' * 2 ^ k' * Z.pos dq - Z.pos n * Z.pos quantum))%Z by ring.
    rewrite !Z.abs_opp. exact H.
Qed.

Theorem round_exact (q : Q) : is_double q -> round q = Finite (Qred q).
Proof.
  intros [m [k [Hm [Hk E]]]].
  assert (Eq : Qred q == m * 2 ^ k # quantum) by (rewrite Qred_correct; exact E).
  assert (Er : Qred (m * 2 ^ k # quantum) = Qred q) by (apply Qred_complete; symmetry; exact E).
  assert (H2k : (0 < 2 ^ k)%Z) by (apply Z.pow_pos_nonneg; lia).
  unfold round. destruct (Qred q) as [[| n | n] d] eqn:Eqr.
  - f_equal. rewrite <- Eqr. apply (Qred_complete 0 q).
    rewrite <- (Qred_correct q), Eqr. reflexivity.
  - unfold Qeq in Eq. cbn [Qnum Qden] in Eq.
    assert (Hmpos : (0 < m)%Z) by nia.
    rewrite (@quanta_exact n d m k) by (lia || (rewrite Eq; ring)).
    destruct (Z.leb_spec (2 ^ 2098) (m * 2 ^ k)) as [Hover | _].
    + exfalso.
      assert (2 ^ k <= 2 ^ 2045)%Z by (apply Z.pow_le_mono_r; lia).
      change (2 ^ 2098)%Z with (2 ^ 53 * 2 ^ 2045)%Z in Hover. nia.
    + unfold of_quanta. rewrite Er. reflexivity.
  - unfold Qeq in Eq. cbn [Qnum Qden] in Eq.
    assert (Hmneg : (m < 0)%Z) by nia.
    rewrite (@quanta_exact n d (- m) k) by (lia || (change (Z.neg n) with (- Z.pos n)%Z in Eq; lia)).
    destruct (Z.leb_spec (2 ^ 2098) (- m * 2 ^ k)) as [Hover | _].
    + exfalso.
      assert (2 ^ k <= 2 ^ 2045)%Z by (apply Z.pow_le_mono_r; lia).
      change (2 ^ 2098)%Z with (2 ^ 53 * 2 ^ 2045)%Z in Hover. nia.
    + unfold of_quanta. replace (- (- m * 2 ^ k))%Z with (m * 2 ^ k)%Z by ring.
      rewrite Er. reflexivity.
Qed.

(** Whole numbers *)

Lemma is_double_whole (z : Z) : (Z.abs z < 2 ^ 53)%Z -> is_double (inject_Z z).
Proof.
  intros Hz. exists z, 1074%Z. split; [exact Hz | split; [lia |]].
  unfold Qeq, inject_Z. cbn [Qnum Qden]. rewrite quantum_pow. ring.
Qed.

Lemma Qred_whole (z : Z) : Qred (inject_Z z) = inject_Z z.
Proof.
  unfold Qred, inject_Z.
  pose proof (Z.ggcd_gcd z 1) as Hg. pose proof (Z.ggcd_correct_divisors z 1) as Hd.
  destruct (Z.ggcd z 1) as [g [aa bb]]. cbn [fst] in Hg. rewrite Z.gcd_1_r in Hg. subst g.
  destruct Hd as [Ha Hb]. rewrite Z.mul_1_l in Ha, Hb. subst aa bb. reflexivity.
Qed.

Lemma round_whole (z : Z) : (Z.abs z < 2 ^ 53)%Z -> round (inject_Z z) = Finite (inject_Z z).
Proof.
  intros Hz. rewrite round_exact by (apply is_double_whole; exact Hz).
  f_equal. apply Qred_whole.
Qed.

Lemma round_finite (q : Q) : Qabs q < inject_Z (2 ^ 1023) -> exists r, round q = Finite r.
Proof.
  intros Hq. rewrite <- (Qred_correct q) in Hq.
  unfold round. destruct (Qred q) as [n d].
  assert (Hfin : forall p : positive, (Zpos p < 2 ^ 1023 * Zpos d)%Z -> (quanta p d < 2 ^ 2098)%Z).
  { intros p Hp.
    destruct (quanta_spec p d) as [m [k [-> [Hk [Hmb [_ [Hlow _]]]]]]].
    assert (H2k : (0 < 2 ^ k)%Z) by (apply Z.pow_pos_nonneg; lia).
    assert (Hk2 : (k < 2045)%Z).
    { destruct (Z.le_gt_cases k 0) as [? | Hpos]; [lia |].
      specialize (Hlow Hpos). rewrite quantum_pow in Hlow.
      apply (Z.pow_lt_mono_r_iff 2); [lia | lia |].
      assert (E : (2 ^ 52 * 2 ^ 2045 = 2 ^ 1023 * 2 ^ 1074)%Z) by (vm_compute; reflexivity).
      nia. }
    assert (2 ^ k <= 2 ^ 2044)%Z by (apply Z.pow_le_mono_r; lia).
    assert (E : (2 ^ 2098 = 2 * (2 ^ 53 * 2 ^ 2044))%Z) by (vm_compute; reflexivity).
    rewrite E. nia. }
  unfold Qlt, Qabs, inject_Z in Hq. cbn [Qnum Qden] in Hq.
  destruct n as [| n | n].
  - eexists. reflexivity.
  - destruct (Z.leb_spec (2 ^ 2098) (quanta n d)) as [Hover | _]; [| eexists; reflexivity].
    specialize (Hfin n). cbn [Z.abs] in Hq. lia.
  - destruct (Z.leb_spec (2 ^ 2098) (quanta n d)) as [Hover | _]; [| eexists; reflexivity].
    specialize (Hfin n). cbn [Z.abs] in Hq. lia.
Qed.

Lemma sum_star_values (rows : list Q) (acc : Z) :
  Forall star_value rows ->
  (0 <= acc)%Z -> (acc + 5 * Z.of_nat (List.length rows) < 2 ^ 53)%Z ->
  exists t,
    fold_left (fun sum item => js_add sum (round item)) rows (Finite (inject_Z acc))
    = Finite (inject_Z t)
    /\ inject_Z t == inject_Z acc + Qsum rows
    /\ (acc + Z.of_nat (List.length rows) <= t <= acc + 5 * Z.of_nat (List.length rows))%Z.
Proof.
  revert acc. induction rows as [| r rows IH]; intros acc Hall Hacc Hbound.
  - exists acc. cbn. split; [reflexivity | split; [ring | lia]].
  - apply Forall_cons_iff in Hall. destruct Hall as [[z [Hz Er]] Hall].
    cbn [fold_left List.length] in *. rewrite Nat2Z.inj_succ in *.
    rewrite (round_wd Er). rewrite round_whole by lia. cbn [js_add].
    rewrite <- inject_Z_plus. rewrite round_whole by lia.
    destruct (IH (acc + z)%Z Hall ltac:(lia) ltac:(lia)) as [t [Ef [Et Ht]]].
    exists t. split; [exact Ef |]. split; [| lia].
    rewrite Et, inject_Z_plus. cbn [Qsum fold_right]. rewrite Er. fold (Qsum rows). ring.
Qed.

Theorem avgRating_star_values (rows : list Q) :
  Forall star_value rows -> rows <> [] -> (Z.of_nat (List.length rows) < 2 ^ 50)%Z ->
  ProductDetails.avgRating rows = round (arithmetic_mean rows)
  /\ 1 <= arithmetic_mean rows <= 5.
Proof.
  intros Hall Hne Hlen.
  destruct (@sum_star_values rows 0%Z Hall ltac:(lia) ltac:(lia)) as [t [Ef [Et Ht]]].
  unfold ProductDetails.avgRating. change (Finite 0) with (Finite (inject_Z 0)). rewrite Ef.
  destruct rows as [| r rows]; [contradiction |].
  cbn [js_div_length List.length].
  assert (Emean : arithmetic_mean (r :: rows)
                  == inject_Z t / inject_Z (Z.of_nat (List.length (r :: rows)))).
  { unfold arithmetic_mean. rewrite Et. change (inject_Z 0) with 0. rewrite Qplus_0_l. reflexivity. }
  split.
  - apply round_wd. symmetry. exact Emean.
  - rewrite Emean. cbn [List.length] in *.
    set (n := Z.of_nat (Datatypes.S (List.length rows))) in *.
    assert (Hn : (0 < n)%Z) by (unfold n; lia).
    assert (Hnq : 0 < inject_Z n) by (change 0 with (inject_Z 0); rewrite <- Zlt_Qlt; exact Hn).
    split.
    + apply Qle_shift_div_l; [exact Hnq |]. rewrite Qmult_1_l. rewrite <- Zle_Qle. lia.
    + apply Qle_shift_div_r; [exact Hnq |]. change 5 with (inject_Z 5).
      rewrite <- inject_Z_mult, <- Zle_Qle. lia.
Qed.

Theorem avgRating_nearest_mean (rows : list Q) :
  Forall star_value rows -> rows <> [] -> (Z.of_nat (List.length rows) < 2 ^ 50)%Z ->
  exists r,
    ProductDetails.avgRating rows = Finite r
    /\ is_double r
    /\ (forall d, is_double d ->
          Qabs (r - arithmetic_mean rows) <= Qabs (d - arithmetic_mean rows))
    /\ (is_double (arithmetic_mean rows) -> r == arithmetic_mean rows).
Proof.
  intros Hall Hne Hlen.
  destruct (avgRating_star_values Hall Hne Hlen) as [E [Hlo Hhi]].
  destruct (@round_finite (arithmetic_mean rows)) as [r Er].
  { apply Qle_lt_trans with 5.
    - apply Qabs_Qle_condition. split; [| exact Hhi].
      apply Qle_trans with 1; [discriminate | exact Hlo].
    - change 5 with (inject_Z 5). rewrite <- Zlt_Qlt. reflexivity. }
  exists r. rewrite E. split; [exact Er |].
  split; [exact (round_is_double _ Er) |].
  split; [intros d Hd; exact (round_nearest _ Er Hd) |].
  intros Hd. pose proof (round_nearest _ Er Hd) as H.
  setoid_replace (arithmetic_mean rows - arithmetic_mean rows) with 0 in H by ring.
  change (Qabs 0) with 0 in H.
  apply Qabs_Qle_condition in H. destruct H as [Hlo' Hhi'].
  assert (Hz : r - arithmetic_mean rows == 0) by (apply Qle_antisym; assumption).
  rewrite <- (Qplus_0_l (arithmetic_mean rows)), <- Hz. ring.
Qed.
End Rounding.

(** ** The image gallery *)

Lemma js_rem_mod (a b : Z) : 0 <= a -> 0 < b -> js_rem a b = Some (a mod b).
Proof.
  intros Ha Hb. unfold js_rem.
  destruct (Z.eqb_spec b 0) as [E | _]; [lia |].
  now rewrite Z.rem_mod_nonneg by lia.
Qed.

Section Gallery.
Import ProductDetails.
Variable env : Env.

(** The state a handler leaves behind. *)
Let exec (p : Prog State unit) (s : State) (w : world env) : State := state (run env p s w).

(** C8. For a gallery of n >= 1 images showing image i, 0 <= i < n:
    nextImage moves to (i+1) mod n and prevImage to (i-1+n) mod n, both
    inside [0, n), and each handler undoes the other. *)
Theorem gallery_next_prev_cycle (s : State) (w : world env) (n i : Z) :
  Z.of_nat (List.length (productImages s)) = n ->
  currentImageIndex s = Some i ->
  0 <= i < n ->
  currentImageIndex (exec (nextImage s) s w) = Some ((i + 1) mod n)
  /\ currentImageIndex (exec (prevImage s) s w) = Some ((i - 1 + n) mod n)
  /\ 0 <= (i + 1) mod n < n
  /\ 0 <= (i - 1 + n) mod n < n
  /\ currentImageIndex
       (exec (prevImage (exec (nextImage s) s w)) (exec (nextImage s) s w) w) = Some i
  /\ currentImageIndex
       (exec (nextImage (exec (prevImage s) s w)) (exec (prevImage s) s w) w) = Some i.
Proof.
  intros Hlen Hi Hn. subst exec.
  cbn [nextImage prevImage setCurrentImageIndex update run state
       currentImageIndex productImages].
  rewrite Hlen, Hi. cbn [next_index prev_index].
  rewrite !js_rem_mod by lia. cbn [next_index prev_index].
  assert (Hnext : 0 <= (i + 1) mod n < n) by (apply Z.mod_pos_bound; lia).
  assert (Hprev : 0 <= (i - 1 + n) mod n < n) by (apply Z.mod_pos_bound; lia).
  rewrite !js_rem_mod by lia.
  repeat split; try lia.
  - f_equal.
    destruct (Z.eq_dec (i + 1) n) as [E | E].
    + rewrite E, Z.mod_same by lia.
      replace (0 - 1 + n) with i by lia. apply Z.mod_small; lia.
    + rewrite (Z.mod_small (i + 1)) by lia.
      replace (i + 1 - 1 + n) with (i + 1 * n) by lia.
      rewrite Z.mod_add by lia. apply Z.mod_small; lia.
  - f_equal.
    destruct (Z.eq_dec i 0) as [E | E].
    + subst i. replace (0 - 1 + n) with (n - 1) by lia.
      rewrite (Z.mod_small (n - 1)) by lia.
      replace (n - 1 + 1) with n by lia. apply Z.mod_same; lia.
    + replace (i - 1 + n) with (i - 1 + 1 * n) by lia. rewrite Z.mod_add by lia.
      rewrite (Z.mod_small (i - 1)) by lia. replace (i - 1 + 1) with i by lia.
      apply Z.mod_small; lia.
Qed.
End Gallery.

Lemma gallery_next_prev_cycle_witness :
  0 <= 2 < 3
  /\ ProductDetails.currentImageIndex
       (state (run InMemory.env (ProductDetails.nextImage three_images) three_images shop))
     = Some 0.
Proof.
  split; [lia |].
  apply (@gallery_next_prev_cycle InMemory.env three_images shop 3 2);
    [reflexivity | reflexivity | lia].
Defined.

(** ** Symbolic execution of [run]

    [next_answer] names the answer of the environment to the next call of
    the program under [run]; [known_answer H] uses a hypothesis on it. *)

Ltac next_answer r w E :=
  match goal with
  | |- context [@respond ?env ?R ?e ?w0] =>
      destruct (@respond env R e w0) as [r w] eqn:E
  end.

Ltac known_answer H :=
  let r := fresh "r" in
  let w := fresh "w" in
  let E := fresh "E" in
  let X := fresh "X" in
  next_answer r w E;
  assert (X := eq_trans (eq_sym E) H);
  inversion X; subst; clear X.

(** ** Stars *)

Lemma gt_true (a b : Q) : (b < a)%Q -> gt a b = true.
Proof.
  intros H. unfold gt. destruct (Qle_bool a b) eqn:E; [| reflexivity].
  apply Qle_bool_iff in E. exfalso. apply (Qlt_not_le _ _ H E).
Qed.

Lemma gt_false (a b : Q) : (a <= b)%Q -> gt a b = false.
Proof.
  intros H. unfold gt. apply Qle_bool_iff in H. now rewrite H.
Qed.

Lemma falsy_or_positive (r d : Q) : (0 < r)%Q -> falsy_or (Some r) d = r.
Proof.
  intros H. unfold falsy_or. destruct (Qeq_bool r 0) eqn:E; [| reflexivity].
  apply Qeq_bool_iff in E. rewrite E in H. exfalso. apply (Qlt_irrefl _ H).
Qed.

Lemma falsy_or_falsy (x : option Q) (d : Q) :
  (x = None \/ exists q, x = Some q /\ (q == 0)%Q) -> falsy_or x d = d.
Proof.
  intros [-> | [q [-> Hq]]]; [reflexivity |].
  unfold falsy_or. apply Qeq_bool_iff in Hq. now rewrite Hq.
Qed.

(** The number of [i] in 0..4 below a rating in (0, 5] is its ceiling. *)
Lemma count_stars_ceiling (r : Q) :
  (0 < r)%Q -> (r <= 5)%Q ->
  count_filled (map (gt r) star_indices) = Qceiling r.
Proof.
  intros Hpos Hle.
  pose proof (Qle_ceiling r) as Hup.
  pose proof (Qceiling_lt r) as Hlow.
  pose proof (Qceiling_resp_le _ _ Hle) as Hc5. change (Qceiling 5) with 5 in Hc5.
  assert (Hc1 : 1 <= Qceiling r).
  { destruct (Z_lt_le_dec (Qceiling r) 1) as [Hlt | ]; [| assumption].
    exfalso. apply (Qlt_irrefl 0).
    apply Qlt_le_trans with r; [assumption |].
    apply Qle_trans with (inject_Z (Qceiling r)); [assumption |].
    change 0%Q with (inject_Z 0). rewrite <- Zle_Qle. lia. }
  assert (Hbelow : forall i : Z, i < Qceiling r -> gt r (inject_Z i) = true).
  { intros i Hi. apply gt_true.
    apply Qle_lt_trans with (inject_Z (Qceiling r - 1)); [| assumption].
    rewrite <- Zle_Qle. lia. }
  assert (Habove : forall i : Z, Qceiling r <= i -> gt r (inject_Z i) = false).
  { intros i Hi. apply gt_false.
    apply Qle_trans with (inject_Z (Qceiling r)); [assumption |].
    rewrite <- Zle_Qle. assumption. }
  unfold star_indices, count_filled.
  change [0%Q; 1%Q; 2%Q; 3%Q; 4%Q]
    with [inject_Z 0; inject_Z 1; inject_Z 2; inject_Z 3; inject_Z 4].
  cbn [map].
  assert (Hcases : Qceiling r = 1 \/ Qceiling r = 2 \/ Qceiling r = 3
                   \/ Qceiling r = 4 \/ Qceiling r = 5) by lia.
  destruct Hcases as [E | [E | [E | [E | E]]]]; rewrite E in *;
    repeat (first [ rewrite Hbelow by lia | rewrite Habove by lia ]);
    reflexivity.
Qed.

Section Stars.
Variable env : Env.

(** C10. A product whose rating is absent, null or 0 shows five filled
    stars on its card, and the detail page sets its rating state to 5 when
    the product arrives; for a rating in (0, 5] the card fills
    ceil(rating) stars. *)
Theorem stars_follow_rating (p : Product) :
  ((Product.rating p = None \/ exists q, Product.rating p = Some q /\ (q == 0)%Q) ->
     ProductCard.stars p = [true; true; true; true; true]
     /\ forall (productId : string) (user : option User)
               (s : ProductDetails.State) (w w' : world env),
          respond env (await_query (products_select_single productId)) w
            = (Fulfilled (mkResponse (Some p) None), w') ->
          rating_after_product
            (trace (run env (ProductDetails.fetchProductDetails productId user) s w))
          = Some 5%Q)
  /\ (forall r : Q, Product.rating p = Some r -> (0 < r)%Q -> (r <= 5)%Q ->
        count_filled (ProductCard.stars p) = Qceiling r).
Proof.
  split.
  - intros Hfalsy. split.
    + unfold ProductCard.stars, ProductCard.star_filled.
      rewrite (falsy_or_falsy _ Hfalsy). reflexivity.
    + intros productId user s w w' Hresp.
      unfold rating_after_product, ProductDetails.fetchProductDetails.
      cbn. known_answer Hresp. cbn.
      next_answer r2 w2 E2. cbn. rewrite (falsy_or_falsy _ Hfalsy). reflexivity.
  - intros r Hr Hpos Hle.
    unfold ProductCard.stars, ProductCard.star_filled.
    rewrite Hr, (falsy_or_positive _ Hpos).
    change (fun i => gt r i) with (gt r).
    apply count_stars_ceiling; assumption.
Qed.
End Stars.

Lemma stars_follow_rating_witness :
  ProductCard.stars lamp = [true; true; true; true; true]
  /\ count_filled (ProductCard.stars rated_lamp) = 4.
Proof.
  split.
  - apply (proj1 (stars_follow_rating InMemory.env lamp)). left. reflexivity.
  - apply (proj2 (stars_follow_rating InMemory.env rated_lamp) (7 # 2));
      [reflexivity | reflexivity | discriminate].
Defined.

(** ** Prices *)

(** C5. The card and the detail page both show product.price formatted by
    Intl.NumberFormat for locale en-NG with style currency and currency NGN,
    so the two texts are the same. *)
Theorem price_formatted_alike (rt : JSRuntime) (p : Product) :
  ProductCard.formattedPrice p
    = Intl_NumberFormat_format "en-NG" (mkOptions "currency" "NGN") (Product.price p)
  /\ forall (productId : option string) (s : ProductDetails.State),
       ProductDetails.loading s = false ->
       ProductDetails.product s = Some p ->
       exists d,
         ProductDetails.render productId s = ProductDetails.Details d
         /\ ProductDetails.price_text d = ProductCard.formattedPrice p.
Proof.
  split; [reflexivity |].
  intros productId s Hloading Hproduct.
  unfold ProductDetails.render. rewrite Hloading, Hproduct.
  eexists. split; reflexivity.
Qed.

Lemma price_formatted_alike_witness :
  exists d,
    @ProductDetails.render sample_runtime (Some "p1") three_images = ProductDetails.Details d
    /\ ProductDetails.price_text d = "NGN 2500".
Proof.
  apply (proj2 (price_formatted_alike sample_runtime lamp) (Some "p1") three_images);
    reflexivity.
Defined.

(** ** Copying the product link *)

(** Runs every remaining call whose answer is [tt]. *)
Ltac unit_answers :=
  repeat match goal with
         | |- context [@respond ?env unit ?e ?w0] =>
             let r := fresh "r" in
             let w := fresh "w" in
             destruct (@respond env unit e w0) as [r w]; destruct r; cbn
         end.

Section CopyLink.
Variable env : Env.

Lemma card_copy (p : Product) (s : ProductCard.State) (w : world env) :
  let o := run env (ProductCard.copyToClipboard p) s w in
  match fst (respond env (clipboard_writeText (link_prefix ++ Product.id p)) w) with
  | Fulfilled _ =>
      events (trace o) = copy_succeeded (link_prefix ++ Product.id p)
      /\ ProductCard.linkCopied (state o) = true
      /\ ProductCard.linkCopied
           (state (run env (fire ProductCard.setLinkCopied ResetLinkCopied)
                       (state o) (after o))) = false
  | Rejected err =>
      events (trace o) = copy_failed (link_prefix ++ Product.id p) err
      /\ state o = s
  end.
Proof.
  unfold ProductCard.copyToClipboard, ProductCard.getProductLink, link_prefix. cbn.
  next_answer r w1 E. destruct r as [[] | err]; cbn; unit_answers.
  - repeat split.
  - destruct s; repeat split.
Qed.

Lemma details_copy (productId : string) (s : ProductDetails.State) (w : world env) :
  let o := run env (ProductDetails.copyToClipboard (Some productId)) s w in
  match fst (respond env (clipboard_writeText (link_prefix ++ productId)) w) with
  | Fulfilled _ =>
      events (trace o) = copy_succeeded (link_prefix ++ productId)
      /\ ProductDetails.linkCopied (state o) = true
      /\ ProductDetails.linkCopied
           (state (run env (fire ProductDetails.setLinkCopied ResetLinkCopied)
                       (state o) (after o))) = false
  | Rejected err =>
      events (trace o) = copy_failed (link_prefix ++ productId) err
      /\ state o = s
  end.
Proof.
  unfold ProductDetails.copyToClipboard, ProductDetails.getProductLink, link_prefix. cbn.
  next_answer r w1 E. destruct r as [[] | err]; cbn; unit_answers.
  - repeat split.
  - destruct s; repeat split.
Qed.
End CopyLink.

(** C6. Copy-link writes exactly the product URL, the fixed prefix followed
    by the product id, to the clipboard.  When the write is fulfilled, the
    success notification is appended, linkCopied becomes true and a
    2000 ms timer is armed whose callback sets it back to false; when the
    write is rejected, the error is logged, the error notification is
    appended and linkCopied keeps its value.  Both components behave so. *)
Theorem copy_link_outcomes (env : Env) (w : world env) (p : Product) (productId : string)
    (sc : ProductCard.State) (sd : ProductDetails.State) :
  match fst (respond env (clipboard_writeText (link_prefix ++ Product.id p)) w) with
  | Fulfilled _ =>
      events (trace (run env (ProductCard.copyToClipboard p) sc w))
        = copy_succeeded (link_prefix ++ Product.id p)
      /\ ProductCard.linkCopied (state (run env (ProductCard.copyToClipboard p) sc w)) = true
      /\ ProductCard.linkCopied
           (state (run env (fire ProductCard.setLinkCopied ResetLinkCopied)
                       (state (run env (ProductCard.copyToClipboard p) sc w))
                       (after (run env (ProductCard.copyToClipboard p) sc w)))) = false
  | Rejected err =>
      events (trace (run env (ProductCard.copyToClipboard p) sc w))
        = copy_failed (link_prefix ++ Product.id p) err
      /\ state (run env (ProductCard.copyToClipboard p) sc w) = sc
  end
  /\
  match fst (respond env (clipboard_writeText (link_prefix ++ productId)) w) with
  | Fulfilled _ =>
      events (trace (run env (ProductDetails.copyToClipboard (Some productId)) sd w))
        = copy_succeeded (link_prefix ++ productId)
      /\ ProductDetails.linkCopied
           (state (run env (ProductDetails.copyToClipboard (Some productId)) sd w)) = true
      /\ ProductDetails.linkCopied
           (state (run env (fire ProductDetails.setLinkCopied ResetLinkCopied)
                       (state (run env (ProductDetails.copyToClipboard (Some productId)) sd w))
                       (after (run env (ProductDetails.copyToClipboard (Some productId)) sd w))))
         = false
  | Rejected err =>
      events (trace (run env (ProductDetails.copyToClipboard (Some productId)) sd w))
        = copy_failed (link_prefix ++ productId) err
      /\ state (run env (ProductDetails.copyToClipboard (Some productId)) sd w) = sd
  end.
Proof.
  split; [apply card_copy | apply details_copy].
Qed.

Example copy_link_in_memory :
  events (trace (run InMemory.env (ProductCard.copyToClipboard lamp) ProductCard.initial shop))
  = copy_succeeded "https://ulishastore.netlify.app/product/p1".
Proof. reflexivity. Qed.

Example copy_link_offline :
  events (trace (run Offline.env (ProductDetails.copyToClipboard (Some "p1")) three_images tt))
  = copy_failed "https://ulishastore.netlify.app/product/p1" (BackendError "NotAllowedError").
Proof. reflexivity. Qed.

(** ** Attempts without a logged-in user *)

(** C9. With no user logged in, add-to-cart (on the card and on the detail
    page, whose button is rendered only in the details view) and rating do
    one thing: redirect to /login.  No call reaches the cart store or the
    backend, the world outside has only seen the redirect, and the component
    state is unchanged. *)
Theorem logged_out_attempt_redirects (rt : JSRuntime) (env : Env) (w : world env)
    (p : Product) (v : Q) (productId : option string)
    (sc : ProductCard.State) (sd : ProductDetails.State) :
  (events (trace (run env (ProductCard.handleAddToCart p None) sc w))
     = [Ev (navigate "/login") tt]
   /\ after (run env (ProductCard.handleAddToCart p None) sc w)
        = snd (respond env (navigate "/login") w)
   /\ state (run env (ProductCard.handleAddToCart p None) sc w) = sc)
  /\ ((exists d, ProductDetails.render productId sd = ProductDetails.Details d) ->
      events (trace (run env (ProductDetails.handleAddToCart sd None) sd w))
        = [Ev (location_href_set "/login") tt]
      /\ after (run env (ProductDetails.handleAddToCart sd None) sd w)
           = snd (respond env (location_href_set "/login") w)
      /\ state (run env (ProductDetails.handleAddToCart sd None) sd w) = sd)
  /\ (events (trace (run env (ProductDetails.handleRating sd None v) sd w))
        = [Ev (location_href_set "/login") tt]
      /\ after (run env (ProductDetails.handleRating sd None v) sd w)
           = snd (respond env (location_href_set "/login") w)
      /\ state (run env (ProductDetails.handleRating sd None v) sd w) = sd)
  /\ existsb reaches_store (events (trace (run env (ProductCard.handleAddToCart p None) sc w)))
       = false
  /\ existsb reaches_store
       (events (trace (run env (ProductDetails.handleAddToCart sd None) sd w))) = false
  /\ existsb reaches_store
       (events (trace (run env (ProductDetails.handleRating sd None v) sd w))) = false.
Proof.
  split; [| split; [| split; [| split; [| split]]]].
  - cbn. next_answer r w1 E. destruct r. repeat split.
  - intros [d Hd]. unfold ProductDetails.render in Hd.
    unfold ProductDetails.handleAddToCart.
    destruct (ProductDetails.loading sd); [discriminate Hd |].
    destruct (ProductDetails.product sd) as [p0 |]; [| discriminate Hd].
    cbn. next_answer r w1 E. destruct r. repeat split.
  - cbn. next_answer r w1 E. destruct r. repeat split.
  - cbn. next_answer r w1 E. reflexivity.
  - unfold ProductDetails.handleAddToCart.
    destruct (ProductDetails.product sd); cbn; [next_answer r w1 E |]; reflexivity.
  - cbn. next_answer r w1 E. reflexivity.
Qed.

Lemma logged_out_attempt_redirects_witness :
  events (trace (run InMemory.env (ProductDetails.handleAddToCart three_images None)
                     three_images shop))
    = [Ev (location_href_set "/login") tt]
  /\ after (run InMemory.env (ProductDetails.handleAddToCart three_images None)
                three_images shop) = shop
  /\ state (run InMemory.env (ProductDetails.handleAddToCart three_images None)
                three_images shop) = three_images.
Proof.
  apply (proj1 (proj2 (logged_out_attempt_redirects sample_runtime InMemory.env shop lamp 3
                         (Some "p1") ProductCard.initial three_images))).
  eexists. reflexivity.
Defined.

(** ** Loading the product *)

Lemma nonempty_test A (l : list A) :
  (0 <? Z.of_nat (List.length l)) = match l with [] => false | _ :: _ => true end.
Proof. destruct l; reflexivity. Qed.

(** Follows a run through every answer the environment can give. *)
Ltac case_answers :=
  repeat (cbn;
          match goal with
          | |- context [@respond ?env ?R ?e ?w0] =>
              let r := fresh "r" in
              let w := fresh "w" in
              destruct (@respond env R e w0) as [r w]
          | r : Settled _ |- _ => destruct r
          | a : Response _ |- _ => destruct a as [? ?]
          | u : unit |- _ => destruct u
          | |- context [0 <? Z.of_nat (List.length ?l)] => rewrite (nonempty_test l)
          | |- context [match ?x with _ => _ end] => is_var x; destruct x
          end).

Section Fetch.
Import ProductDetails Fetches.
Context {rt : JSRuntime}.
Variable env : Env.

(** [finally]: whatever the body did, the cleanup decides the final state. *)
Lemma finally_state S A (body : Prog S A) (cleanup : Prog S unit) (s : S) (w : world env) :
  state (run env (finally body cleanup) s w)
  = state (run env cleanup (state (run env body s w)) (after (run env body s w))).
Proof.
  unfold finally. rewrite run_bind. cbn. rewrite run_bind. reflexivity.
Qed.

Lemma fetch_loading_false (productId : string) (user : option User)
      (s : State) (w : world env) :
  loading (state (run env (fetchProductDetails productId user) s w)) = false.
Proof.
  unfold fetchProductDetails. rewrite finally_state. reflexivity.
Qed.

Lemma fetch_pending_spinner (productId : string) (user : option User)
      (s : State) (w : world env) :
  Forall (fun step => render (Some productId) (pending step) = Spinner)
         (trace (run env (fetchProductDetails productId user) s w)).
Proof.
  unfold fetchProductDetails. case_answers; repeat constructor.
Qed.

Lemma fetch_first_request (productId : string) (user : option User)
      (s : State) (w : world env) :
  exists a rest,
    trace (run env (fetchProductDetails productId user) s w)
    = mkStep (mkState true (product s) (productImages s) (currentImageIndex s)
                      (linkCopied s) (rating s) (hoverRating s) (hasRated s))
             (Ev (await_query (products_select_single productId)) a) :: rest.
Proof.
  unfold fetchProductDetails. cbn. next_answer r w1 E. cbn.
  eexists. eexists. reflexivity.
Qed.

Lemma render_spinner (productId : option string) (s : State) :
  render productId s = Spinner <-> loading s = true.
Proof.
  unfold render. destruct (loading s); [tauto |].
  destruct (product s); split; discriminate.
Qed.

(** *** Fetches in flight *)

Lemma fetch_starts (productId : string) (user : option User) (s : State) (w : world env) :
  exists k,
    advance env (fetchProductDetails productId user) s w
    = mkProgress (Awaiting (await_query (products_select_single productId)) k)
                 (mkState true (product s) (productImages s) (currentImageIndex s)
                          (linkCopied s) (rating s) (hoverRating s) (hasRated s))
                 w []
    /\ forall r, remainder (k r).
Proof.
  unfold fetchProductDetails. cbn. eexists. split; [reflexivity |].
  intros r.
  repeat first
    [ apply remainder_last; intros; reflexivity
    | apply remainder_set; [intros; reflexivity |]
    | apply remainder_call; intros ?
    | progress cbn
    | match goal with
      | r : Settled _ |- _ => destruct r
      | a : Response _ |- _ => destruct a as [? ?]
      | |- context [match ?x with _ => _ end] => is_var x; destruct x
      end ].
Qed.

Lemma remainder_advance (p : Prog State unit) :
  remainder p ->
  forall (s : State) (w : world env),
    fetch_task (task (advance env p s w))
    /\ loading (shown (advance env p s w))
       = (if in_progress (task (advance env p s w)) then loading s else false)
    /\ Forall (fun step => loading (pending step) = loading s) (steps (advance env p s w)).
Proof.
  induction 1 as [f a Hf | f k Hf Hk IH | R e k Hk IH]; intros s w.
  - cbn. auto.
  - cbn [advance]. destruct (IH (f s) w) as [H1 [H2 H3]].
    rewrite Hf in H2, H3. auto.
  - cbn [advance]. destruct (returns_promise e).
    + cbn. auto.
    + destruct (respond env e w) as [r w']. cbn [task shown steps].
      destruct (IH r s w') as [H1 [H2 H3]]. auto.
Qed.

Lemma fetch_task_deliver (t : Task State) (s : State) (w : world env) :
  fetch_task t ->
  fetch_task (task (deliver env t s w))
  /\ loading (shown (deliver env t s w))
     = (if in_progress t && negb (in_progress (task (deliver env t s w)))
        then false else loading s).
Proof.
  destruct t as [| R e k]; intros Ht.
  - cbn. auto.
  - cbn [deliver]. destruct (respond env e w) as [r w']. cbn [task shown in_progress andb].
    destruct (remainder_advance (Ht r) s w') as [H1 [H2 _]].
    split; [exact H1 |]. rewrite H2.
    destruct (in_progress (task (advance env (k r) s w'))); reflexivity.
Qed.

Lemma replace_nth_Forall A (P : A -> Prop) (i : nat) (a : A) (l : list A) :
  P a -> Forall P l -> Forall P (replace_nth i a l).
Proof.
  intros Ha Hl. revert i. induction Hl as [| x l Hx Hl IH]; intros i.
  - destruct i; constructor.
  - destruct i; cbn; constructor; auto.
Qed.

Lemma nth_error_replace_nth A (i : nat) (a : A) (l : list A) :
  nth_error (replace_nth i a l) i = match nth_error l i with Some _ => Some a | None => None end.
Proof.
  revert i. induction l as [| x l IH]; intros i; destruct i; cbn; auto.
Qed.

Lemma fetching_tasks (pg : Page State (world env)) :
  fetching env pg -> Forall fetch_task (in_flight pg).
Proof.
  induction 1 as [s w | pg productId user Hpg IH | pg i Hpg IH].
  - constructor.
  - cbn [act]. destruct (fetch_starts productId user (component pg) (surroundings pg))
      as [k [E Hk]].
    rewrite E. cbn [in_flight task]. apply Forall_app. split; [exact IH |].
    constructor; [exact Hk | constructor].
  - cbn [act]. destruct (nth_error (in_flight pg) i) as [t |] eqn:Et; [| exact IH].
    cbn [in_flight]. apply replace_nth_Forall; [| exact IH].
    apply fetch_task_deliver.
    apply nth_error_In in Et. rewrite Forall_forall in IH. apply IH, Et.
Qed.

(** C7, as the code has it.  A fetch that is alone on the page: it asks
    for the product with loading = true, every call it makes is made with
    the spinner showing, and whatever the environment answers it ends with
    loading = false, so the spinner is gone, and the not-found view
    shows when no product is in the state.  Fetches in flight together: a
    fetch that starts turns the spinner on and waits for the product; a
    fetch that finishes turns it off, whatever else is in flight; an answer
    that does not finish a fetch leaves it as it is. *)
Theorem fetch_spinner_until_done (productId : string) (user : option User)
        (s : State) (w : world env) :
  (exists a rest,
      trace (run env (fetchProductDetails productId user) s w)
      = mkStep (mkState true (product s) (productImages s) (currentImageIndex s)
                        (linkCopied s) (rating s) (hoverRating s) (hasRated s))
               (Ev (await_query (products_select_single productId)) a) :: rest)
  /\ Forall (fun step => render (Some productId) (pending step) = Spinner)
            (trace (run env (fetchProductDetails productId user) s w))
  /\ loading (state (run env (fetchProductDetails productId user) s w)) = false
  /\ render (Some productId) (state (run env (fetchProductDetails productId user) s w))
       <> Spinner
  /\ (product (state (run env (fetchProductDetails productId user) s w)) = None ->
      render (Some productId) (state (run env (fetchProductDetails productId user) s w))
        = NotFound)
  /\ (forall pg : Page State (world env),
        fetching env pg ->
        (render (Some productId)
                (component (act env (starts (fetchProductDetails productId user)) pg))
         = Spinner
         /\ exists k,
              in_flight (act env (starts (fetchProductDetails productId user)) pg)
              = in_flight pg
                ++ [Awaiting (await_query (products_select_single productId)) k])
        /\ (forall i,
              if finishes env i pg
              then render (Some productId) (component (act env (settles i) pg)) <> Spinner
              else loading (component (act env (settles i) pg)) = loading (component pg))).
Proof.
  pose proof (fetch_loading_false productId user s w) as Hdone.
  split; [apply fetch_first_request |].
  split; [apply fetch_pending_spinner |].
  split; [exact Hdone |].
  split; [| split].
  - unfold render. rewrite Hdone. destruct (product _); discriminate.
  - unfold render. rewrite Hdone. intros ->. reflexivity.
  - intros pg Hpg. split.
    + cbn [act].
      destruct (fetch_starts productId user (component pg) (surroundings pg)) as [k [E _]].
      rewrite E. cbn [component in_flight shown task]. split; [reflexivity |].
      exists k. reflexivity.
    + intros i. unfold finishes. cbn [act].
      destruct (nth_error (in_flight pg) i) as [t |] eqn:Et; [| reflexivity].
      cbn [in_flight component]. rewrite nth_error_replace_nth, Et.
      assert (Ht : fetch_task t).
      { pose proof (fetching_tasks Hpg) as Hall. rewrite Forall_forall in Hall.
        apply Hall. eapply nth_error_In. exact Et. }
      destruct (@fetch_task_deliver t (component pg) (surroundings pg) Ht) as [_ Hl].
      destruct t as [| R e k]; [exact Hl |].
      cbn [in_progress andb] in Hl.
      destruct (task (deliver env (Awaiting e k) (component pg) (surroundings pg)));
        cbn [in_progress negb] in Hl; [| exact Hl].
      intros Hr. apply render_spinner in Hr. congruence.
Qed.
End Fetch.

Lemma fetch_spinner_until_done_witness :
  @ProductDetails.render sample_runtime (Some "p1")
     (state (run Offline.env (ProductDetails.fetchProductDetails "p1" (Some ada))
                 ProductDetails.initial tt))
  = ProductDetails.NotFound.
Proof.
  apply (fetch_spinner_until_done (rt := sample_runtime) Offline.env "p1" (Some ada)
           ProductDetails.initial tt).
  reflexivity.
Defined.

(** C7, as stated, fails: the second fetch is still waiting for the product
    and the page shows the details of the lamp, not the spinner. *)
Lemma spinner_off_while_fetching :
  ~ @Fetches.spinner_while_fetching sample_runtime InMemory.env (Some "p1") double_fetch.
Proof.
  unfold Fetches.spinner_while_fetching. intros H.
  specialize (H eq_refl). discriminate H.
Qed.

Example double_fetch_in_flight :
  Fetches.fetching InMemory.env double_fetch
  /\ map awaited (in_flight double_fetch) = [None; Some (products_select_single "p1")]
  /\ ProductDetails.loading (component double_fetch) = false.
Proof.
  split; [| split; reflexivity].
  unfold double_fetch, acts. cbn [fold_left].
  do 3 apply Fetches.fetching_settle. do 2 apply Fetches.fetching_start.
  apply Fetches.fetching_rest.
Qed.

Example fetch_in_memory_shows_details :
  exists d,
    @ProductDetails.render sample_runtime (Some "p1")
       (state (run InMemory.env (ProductDetails.fetchProductDetails "p1" (Some ada))
                   ProductDetails.initial shop))
    = ProductDetails.Details d.
Proof. eexists. reflexivity. Qed.

(** ** Strings of the verification code *)

Lemma ascii_toUpperCase_app (a b : string) :
  ascii_toUpperCase (a ++ b) = (ascii_toUpperCase a ++ ascii_toUpperCase b)%string.
Proof.
  induction a as [| c a IH]; cbn; [reflexivity | now rewrite IH].
Qed.

Lemma upper_digit (d : Z) : 0 <= d < 10 -> upper_ascii (digit d) = digit d.
Proof.
  intros H.
  assert (Hd : d = 0 \/ d = 1 \/ d = 2 \/ d = 3 \/ d = 4 \/ d = 5
               \/ d = 6 \/ d = 7 \/ d = 8 \/ d = 9) by lia.
  repeat (destruct Hd as [-> | Hd]; [reflexivity |]). subst d. reflexivity.
Qed.

Lemma substring_skip (a b : string) :
  substring (String.length a) (String.length b) (a ++ b) = b.
Proof.
  induction a as [| c a IH]; cbn.
  - induction b as [| c b IH]; cbn; [reflexivity | now rewrite IH].
  - exact IH.
Qed.

Lemma length_app_string (a b : string) :
  String.length (a ++ b) = (String.length a + String.length b)%nat.
Proof.
  induction a as [| c a IH]; cbn; [reflexivity | now rewrite IH].
Qed.

Lemma slice_last_app (a b : string) :
  slice_last (String.length b) (a ++ b) = b.
Proof.
  unfold slice_last. rewrite length_app_string.
  replace (String.length a + String.length b - String.length b)%nat
    with (String.length a) by lia.
  apply substring_skip.
Qed.

Lemma string_of_list_ascii_app_string (l1 l2 : list ascii) :
  string_of_list_ascii (l1 ++ l2)
  = (string_of_list_ascii l1 ++ string_of_list_ascii l2)%string.
Proof.
  induction l1 as [| c l1 IH]; cbn; [reflexivity | now rewrite IH].
Qed.

Lemma digit_value (d : Z) : 0 <= d < 10 -> Z.of_nat (nat_of_ascii (digit d)) - 48 = d.
Proof.
  intros H. unfold digit. rewrite nat_ascii_embedding by lia. lia.
Qed.

Lemma digits_rev_value (fuel : nat) (n : Z) :
  0 <= n < 2 ^ Z.of_nat fuel -> digits_value (digits_rev fuel n) = n.
Proof.
  revert n. induction fuel as [| fuel IH]; intros n Hn.
  - cbn in Hn. cbn. lia.
  - cbn [digits_rev digits_value].
    rewrite digit_value by (apply Z.mod_pos_bound; lia).
    rewrite Nat2Z.inj_succ, Z.pow_succ_r in Hn by lia.
    pose proof (Z.div_mod n 10 ltac:(lia)) as Hdm.
    destruct (Z.eqb_spec (n / 10) 0) as [E | E].
    + cbn [digits_value]. lia.
    + rewrite IH; [lia |].
      split; [apply Z.div_pos; lia |].
      apply Z.div_lt_upper_bound; lia.
Qed.

Lemma nat_digits_value (n : Z) :
  0 < n ->
  digits_value (rev (list_ascii_of_string (nat_digits n))) = n.
Proof.
  intros Hn. unfold nat_digits.
  rewrite list_ascii_of_string_of_list_ascii, rev_involutive.
  apply digits_rev_value. split; [lia |].
  rewrite Nat2Z.inj_succ, Z2Nat.id by apply Z.log2_nonneg.
  apply Z.log2_spec. assumption.
Qed.

Example time_value_printed : Z_toString 1705314612345 = "1705314612345".
Proof. reflexivity. Qed.

Example negative_printed : Z_toString (-120) = "-120".
Proof. reflexivity. Qed.

Lemma digits_rev_low (fuel : nat) (t : Z) :
  10000 <= t ->
  exists rest,
    digits_rev (S (S (S (S (S fuel))))) t
    = digit (t mod 10) :: digit (t / 10 mod 10) :: digit (t / 100 mod 10)
        :: digit (t / 1000 mod 10) :: digit (t / 10000 mod 10) :: rest.
Proof.
  intros Ht.
  assert (H1 : t / 10 / 10 = t / 100) by (rewrite Z.div_div by lia; reflexivity).
  assert (H2 : t / 100 / 10 = t / 1000) by (rewrite Z.div_div by lia; reflexivity).
  assert (H3 : t / 1000 / 10 = t / 10000) by (rewrite Z.div_div by lia; reflexivity).
  assert (N1 : t / 10 <> 0) by (pose proof (Z.div_le_lower_bound t 10 1); lia).
  assert (N2 : t / 100 <> 0) by (pose proof (Z.div_le_lower_bound t 100 1); lia).
  assert (N3 : t / 1000 <> 0) by (pose proof (Z.div_le_lower_bound t 1000 1); lia).
  assert (N4 : t / 10000 <> 0) by (pose proof (Z.div_le_lower_bound t 10000 1); lia).
  cbn [digits_rev].
  apply Z.eqb_neq in N1, N2, N3, N4.
  rewrite N1, H1, N2, H2, N3, H3, N4.
  eexists. reflexivity.
Qed.

Lemma slice_last_toString (t : Z) :
  10000 <= t -> slice_last 5 (Z_toString t) = five_digits t.
Proof.
  intros Ht. unfold Z_toString.
  destruct (Z.ltb_spec t 0) as [Hneg | _]; [lia |].
  unfold nat_digits.
  assert (Hlog : 13 <= Z.log2 t).
  { apply Z.log2_le_pow2; lia. }
  remember (Z.to_nat (Z.log2 t)) as k eqn:Hk.
  assert (Hk4 : (4 <= k)%nat) by lia.
  do 4 (destruct k as [| k]; [lia |]).
  destruct (digits_rev_low k Ht) as [rest Hrest]. rewrite Hrest.
  change (digit (t mod 10) :: digit (t / 10 mod 10) :: digit (t / 100 mod 10)
            :: digit (t / 1000 mod 10) :: digit (t / 10000 mod 10) :: rest)
    with ([digit (t mod 10); digit (t / 10 mod 10); digit (t / 100 mod 10);
           digit (t / 1000 mod 10); digit (t / 10000 mod 10)] ++ rest).
  rewrite rev_app_distr, string_of_list_ascii_app_string.
  apply (slice_last_app (string_of_list_ascii (rev rest))
           (string_of_list_ascii
              (rev [digit (t mod 10); digit (t / 10 mod 10); digit (t / 100 mod 10);
                    digit (t / 1000 mod 10); digit (t / 10000 mod 10)]))).
Qed.

Lemma ascii_toUpperCase_five_digits (t : Z) :
  ascii_toUpperCase (five_digits t) = five_digits t.
Proof.
  unfold five_digits. cbn [string_of_list_ascii ascii_toUpperCase].
  rewrite !upper_digit by (apply Z.mod_pos_bound; lia). reflexivity.
Qed.

(** ** The receipt *)

Section Receipt.
Import OrderReceipt.
Context {rt : JSRuntime}.

Lemma print_content (env : Env) (w : world env) (order : Order) (mounted : bool) :
  let evs := events (trace (run env (handlePrint order mounted) tt w)) in
  printed evs
  = (if mounted && fst (respond env (window_open "" "_blank") w)
     then [print_document (innerHTML (receipt order))] else [])
  /\ existsb reaches_store evs = false.
Proof.
  unfold handlePrint. destruct mounted; [| cbn; auto].
  cbn. next_answer opened w1 E. destruct opened; cbn; [| auto].
  unit_answers. auto.
Qed.

Lemma download_content (env : Env) (w : world env) (order : Order) (mounted : bool) :
  let evs := events (trace (run env (handleDownload order mounted) tt w)) in
  downloaded evs = (if mounted then [innerHTML (receipt order)] else [])
  /\ existsb reaches_store evs = false.
Proof.
  unfold handleDownload. destruct mounted; [| cbn; auto].
  cbn. next_answer url w1 E. cbn. unit_answers. auto.
Qed.

Lemma verification_code_digits (order : Order) (t : Z) :
  Date_getTime (created_at order) = Some t ->
  10000 <= t ->
  generateVerificationCode order
  = String_toUpperCase (String_substring (id order) 0 6 ++ five_digits t).
Proof.
  intros Htime Ht. unfold generateVerificationCode.
  rewrite Htime. cbn [time_toString].
  rewrite slice_last_toString by assumption. reflexivity.
Qed.

(** C4, as the code has it.  The receipt is built in the browser from the
    order and the browser's own formatting ([rt]: toLocaleDateString,
    toLocaleString, toUpperCase, innerHTML).  handlePrint asks for a window
    and, when the browser opens one, writes the mounted receipt into it as
    it is; handleDownload puts the mounted receipt into the blob that is
    downloaded; nothing is written when the receipt is not mounted.  So two
    invocations on equal orders in the same browser, in whatever
    environments, write the same text.  Neither handler reaches the backend
    or the cart store.  The verification code shown in the receipt is the
    upper-cased concatenation of the first six characters of the order id
    and the last five decimal digits of the created_at time value. *)
Theorem receipt_from_order_and_browser
        (env1 env2 : Env) (w1 : world env1) (w2 : world env2)
        (order1 order2 : Order) (mounted1 mounted2 : bool) :
  order1 = order2 ->
  let print1 := events (trace (run env1 (handlePrint order1 mounted1) tt w1)) in
  let print2 := events (trace (run env2 (handlePrint order2 mounted2) tt w2)) in
  let download1 := events (trace (run env1 (handleDownload order1 mounted1) tt w1)) in
  let download2 := events (trace (run env2 (handleDownload order2 mounted2) tt w2)) in
  printed print1
  = (if mounted1 && fst (respond env1 (window_open "" "_blank") w1)
     then [print_document (innerHTML (receipt order1))] else [])
  /\ downloaded download1 = (if mounted1 then [innerHTML (receipt order1)] else [])
  /\ (mounted1 && fst (respond env1 (window_open "" "_blank") w1)
      = mounted2 && fst (respond env2 (window_open "" "_blank") w2) ->
      printed print1 = printed print2)
  /\ (mounted1 = mounted2 -> downloaded download1 = downloaded download2)
  /\ existsb reaches_store print1 = false
  /\ existsb reaches_store download1 = false
  /\ In (Elem "p" (Some "text-xl font-bold bg-gray-100 p-2 inline-block")
           [Text (generateVerificationCode order1)])
        (receipt order1)
  /\ (forall t,
         Date_getTime (created_at order1) = Some t -> 10000 <= t ->
         generateVerificationCode order1
         = String_toUpperCase (String_substring (id order1) 0 6 ++ five_digits t)).
Proof.
  intros <-.
  destruct (print_content env1 w1 order1 mounted1) as [P1 Q1].
  destruct (print_content env2 w2 order1 mounted2) as [P2 _].
  destruct (download_content env1 w1 order1 mounted1) as [D1 Q1'].
  destruct (download_content env2 w2 order1 mounted2) as [D2 _].
  cbv zeta in *.
  split; [exact P1 |]. split; [exact D1 |].
  split; [intros E; rewrite P1, P2, E; reflexivity |].
  split; [intros E; rewrite D1, D2, E; reflexivity |].
  split; [exact Q1 |]. split; [exact Q1' |].
  split; [cbn; intuition |].
  intros t. apply verification_code_digits.
Qed.
End Receipt.

Lemma receipt_from_order_and_browser_witness :
  printed (events (trace (run InMemory.env
     (@OrderReceipt.handlePrint sample_runtime sample_order true) tt shop)))
  = printed (events (trace (run Crowded.env
     (@OrderReceipt.handlePrint sample_runtime sample_order true) tt busy_shop)))
  /\ @OrderReceipt.generateVerificationCode sample_runtime sample_order = "A1B2C312345".
Proof.
  pose proof (@receipt_from_order_and_browser sample_runtime InMemory.env Crowded.env
                shop busy_shop sample_order sample_order true true eq_refl) as H.
  cbv zeta in H.
  destruct H as [_ [_ [Hsame [_ [_ [_ [_ Hcode]]]]]]].
  split.
  - apply Hsame. reflexivity.
  - apply (Hcode 1705314612345); [reflexivity | discriminate].
Defined.

(** C4, as stated, fails: the same order gives two different receipts in
    two browsers that differ in their locale only. *)
Lemma receipt_differs_between_browsers :
  downloaded (events (trace (run InMemory.env
     (@OrderReceipt.handleDownload sample_runtime sample_order true) tt shop)))
  <> downloaded (events (trace (run InMemory.env
     (@OrderReceipt.handleDownload day_first_runtime sample_order true) tt shop))).
Proof.
  vm_compute. intros H. discriminate H.
Qed.

Example receipt_downloaded_in_memory :
  downloaded (events (trace (run InMemory.env
     (@OrderReceipt.handleDownload sample_runtime sample_order true) tt shop)))
  = [@innerHTML sample_runtime (@OrderReceipt.receipt sample_runtime sample_order)].
Proof. reflexivity. Qed.

Example receipt_not_printed_offline :
  printed (events (trace (run Offline.env
     (@OrderReceipt.handlePrint sample_runtime sample_order true) tt tt))) = [].
Proof. reflexivity. Qed.

(** ** Who computes the average *)

Section Average.
Import ProductDetails.
Variable env : Env.

#[local] Arguments avgRating : simpl never.

(** C3, as the code has it.  The client computes the aggregate itself.
    In every run of handleRating for a logged-in user the backend is asked
    only to upsert the rating and to list the product's individual
    ratings; when a value is written back, it is avgRating of that list,
    the sum divided by the count, evaluated in the handler: for ratings
    written by the stars, the double nearest to their arithmetic mean. *)
Theorem average_computed_by_client (s : State) (u : User) (p : Product) (v : Q)
        (w : world env) :
  product s = Some p ->
  (written_back (events (trace (run env (handleRating s (Some u) v) s w))) = []
   \/ exists ratings,
        In (ratings_answer (Product.id p) ratings)
           (events (trace (run env (handleRating s (Some u) v) s w)))
        /\ ratings <> []
        /\ written_back (events (trace (run env (handleRating s (Some u) v) s w)))
           = [avgRating ratings]
        /\ (Forall star_value ratings -> Z.of_nat (List.length ratings) < 2 ^ 50 ->
            avgRating ratings = round (arithmetic_mean ratings)))
  /\ (forall q, In q (queries (events (trace (run env (handleRating s (Some u) v) s w)))) ->
        q = product_ratings_upsert (Product.id p) (User.id u) v
        \/ q = product_ratings_select (Product.id p)
        \/ exists ratings, q = products_update_rating (Product.id p) (avgRating ratings)).
Proof.
  intros Hp. unfold handleRating. rewrite Hp.
  cbn. next_answer ra wa Ea.
  destruct ra as [[d1 [e1 |]] | e1]; cbn; unit_answers.
  1, 3: (split; [left; reflexivity | intros q [<- | []]; auto]).
  next_answer rb wb Eb.
  destruct rb as [[d2 [e2 |]] | e2]; cbn; unit_answers.
  1, 3: (split; [left; reflexivity | intros q [<- | [<- | []]]; auto]).
  destruct d2 as [ratings |]; cbn;
    [| split; [left; reflexivity | intros q [<- | [<- | []]]; auto]].
  rewrite nonempty_test. destruct ratings as [| x ratings]; cbn;
    [split; [left; reflexivity | intros q [<- | [<- | []]]; auto] |].
  next_answer rc wc Ec.
  destruct rc as [a3 | e3]; cbn; unit_answers.
  - split.
    + right. exists (x :: ratings). unfold ratings_answer. cbn.
      split; [auto 6 | split; [discriminate | split; [reflexivity |]]].
      intros Hall Hlen. apply avgRating_star_values; [exact Hall | discriminate | exact Hlen].
    + intros q [<- | [<- | [<- | []]]]; eauto.
  - split.
    + right. exists (x :: ratings). unfold ratings_answer. cbn.
      split; [auto 6 | split; [discriminate | split; [reflexivity |]]].
      intros Hall Hlen. apply avgRating_star_values; [exact Hall | discriminate | exact Hlen].
    + intros q [<- | [<- | [<- | []]]]; eauto.
Qed.
End Average.

(** C3, as stated, fails: the backend sent the ratings 4 and 5, and the
    client wrote back 9/2, a number the backend never produced. *)
Lemma average_not_from_backend :
  ~ aggregate_from_backend (events (trace ada_rates_lamp)).
Proof.
  intros H. destruct (H (Finite (9 # 2))) as [y [Hy Heq]].
  - vm_compute. left. reflexivity.
  - vm_compute in Hy. destruct Hy as [<- | [<- | []]]; discriminate Heq.
Qed.

Lemma average_computed_by_client_witness :
  written_back (events (trace ada_rates_lamp)) = [ProductDetails.avgRating [4%Q; 5%Q]].
Proof.
  destruct (proj1 (@average_computed_by_client InMemory.env three_images ada lamp 5 shop
                     eq_refl)) as [Hnone | [ratings [Hin [_ [Heq _]]]]].
  - discriminate Hnone.
  - reflexivity.
Defined.

(** ** The order of the remote calls *)

(** Closes a branch of a run that contradicts [Forall succeeded]. *)
Ltac failed_call H :=
  exfalso;
  repeat (apply Forall_cons_iff in H;
          let Hev := fresh "Hev" in
          destruct H as [Hev H]; cbn in Hev;
          try discriminate Hev; try contradiction).

Section RatingFlow.
Import ProductDetails.
Context {rt : JSRuntime}.
Variable env : Env.

#[local] Arguments avgRating : simpl never.

Lemma fetch_queries (productId : string) (u : User) (s : State) (w : world env) :
  Forall succeeded (events (trace (page_load env productId u s w))) ->
  product (state (page_load env productId u s w)) <> None ->
  queries (events (trace (page_load env productId u s w)))
  = [ products_select_single productId;
      product_images_select productId;
      product_ratings_select_user productId (User.id u) ].
Proof.
  unfold page_load, fetchProductDetails.
  case_answers; cbn; intros Hs Hp; try reflexivity;
    first [ exfalso; apply Hp; reflexivity | failed_call Hs ].
Qed.

Lemma rating_queries (u : User) (v : Q) (p : Product) (s : State) (w : world env) :
  product s = Some p ->
  Forall succeeded (events (trace (run env (handleRating s (Some u) v) s w))) ->
  Forall some_rating (events (trace (run env (handleRating s (Some u) v) s w))) ->
  exists ratings,
    In (ratings_answer (Product.id p) ratings)
       (events (trace (run env (handleRating s (Some u) v) s w)))
    /\ ratings <> []
    /\ queries (events (trace (run env (handleRating s (Some u) v) s w)))
       = [ product_ratings_upsert (Product.id p) (User.id u) v;
           product_ratings_select (Product.id p);
           products_update_rating (Product.id p) (avgRating ratings) ].
Proof.
  intros Hp. unfold handleRating. rewrite Hp. clear Hp.
  case_answers; cbn; intros Hs Hr; try (failed_call Hs; fail).
  all: try (exfalso; do 3 (apply Forall_inv_tail in Hr); apply Forall_inv in Hr;
            cbn in Hr; destruct Hr as [x [l Hr]]; discriminate Hr).
  all: eexists; split; [unfold ratings_answer; cbn; auto 6 |];
         split; [discriminate | reflexivity].
Qed.

(** The stars are there to be clicked once the load has finished with a
    product, and not before. *)
Lemma stars_after_load (productId : string) (u : User) (p : Product)
      (s : State) (w : world env) :
  product (state (page_load env productId u s w)) = Some p ->
  Forall (fun step => render (Some productId) (pending step) = Spinner)
         (trace (page_load env productId u s w))
  /\ exists d,
       render (Some productId) (state (page_load env productId u s w)) = Details d
       /\ List.length (stars d) = 5%nat.
Proof.
  intros Hp. split.
  - unfold page_load, fetchProductDetails. case_answers; repeat constructor.
  - unfold render. rewrite Hp.
    replace (loading (state (page_load env productId u s w))) with false.
    + eexists. split; reflexivity.
    + symmetry. apply fetch_loading_false.
Qed.

(** handleRating as a task: it waits for one answer at a time, and the
    next request is made when the answer has been delivered, whatever
    happened on the page in between. *)
Lemma rating_awaits (u : User) (v : Q) (p : Product) (s : State) (w : world env) :
  product s = Some p ->
  let t0 := advance env (handleRating s (Some u) v) s w in
  awaited (task t0) = Some (product_ratings_upsert (Product.id p) (User.id u) v)
  /\ steps t0 = []
  /\ forall s1 w1,
       let t1 := deliver env (task t0) s1 w1 in
       Forall succeeded (events (steps t1)) ->
       awaited (task t1) = Some (product_ratings_select (Product.id p))
       /\ queries (events (steps t1))
          = [product_ratings_upsert (Product.id p) (User.id u) v]
       /\ forall s2 w2,
            let t2 := deliver env (task t1) s2 w2 in
            Forall succeeded (events (steps t2)) ->
            Forall some_rating (events (steps t2)) ->
            exists ratings,
              In (ratings_answer (Product.id p) ratings) (events (steps t2))
              /\ awaited (task t2)
                 = Some (products_update_rating (Product.id p) (avgRating ratings))
              /\ queries (events (steps t2)) = [product_ratings_select (Product.id p)]
              /\ forall s3 w3,
                   let t3 := deliver env (task t2) s3 w3 in
                   in_progress (task t3) = false
                   /\ queries (events (steps t3))
                      = [products_update_rating (Product.id p) (avgRating ratings)].
Proof.
  intros Hp. unfold handleRating. rewrite Hp. clear Hp. cbn.
  split; [reflexivity |]. split; [reflexivity |].
  intros page1 world1. next_answer ra wa Ea.
  destruct ra as [[d1 [e1 |]] | e1]; cbn; unit_answers;
    intros Hs; try (failed_call Hs; fail). clear Hs.
  split; [reflexivity |]. split; [reflexivity |].
  intros page2 world2. next_answer rb wb Eb.
  destruct rb as [[d2 [e2 |]] | e2]; cbn; unit_answers;
    intros Hs; try (failed_call Hs; fail). clear Hs.
  destruct d2 as [ratings |]; cbn;
    [| intros Hr; exfalso; apply Forall_inv in Hr; cbn in Hr;
       destruct Hr as [x [l Hr]]; discriminate Hr].
  rewrite nonempty_test. destruct ratings as [| x ratings]; cbn;
    [intros Hr; exfalso; apply Forall_inv in Hr; cbn in Hr;
     destruct Hr as [y [l Hr]]; discriminate Hr |].
  intros _. exists (x :: ratings).
  split; [left; reflexivity |]. split; [reflexivity |]. split; [reflexivity |].
  intros page3 world3. next_answer rc wc Ec.
  destruct rc as [a3 | e3]; cbn; unit_answers; split; reflexivity.
Qed.

End RatingFlow.


(** ** The rating that is written back *)

Section RatingStore.
Import ProductDetails.
Variable env : Env.

(** What the backend holds: the ratings recorded for a product, and
    whether the product's record carries a given rating. *)
Variable recorded : world env -> string -> list Q.
Variable rating_is : world env -> string -> Number -> Prop.

(** The backend keeps what it is given and lists what it keeps, and no
    one else writes to it while the handler runs. *)
Hypothesis upsert_records : forall pid uid v w a w',
  respond env (await_query (product_ratings_upsert pid uid v)) w = (Fulfilled a, w') ->
  error a = None ->
  In v (recorded w' pid).
Hypothesis select_lists : forall pid w a w',
  respond env (await_query (product_ratings_select pid)) w = (Fulfilled a, w') ->
  error a = None ->
  data a = Some (recorded w pid) /\ recorded w' pid = recorded w pid.
Hypothesis update_stores : forall pid x w a w',
  respond env (await_query (products_update_rating pid x)) w = (Fulfilled a, w') ->
  error a = None ->
  rating_is w' pid x /\ recorded w' pid = recorded w pid.
(** Calls to the browser do not touch the ratings. *)
Hypothesis browser_keeps : forall R (e : Ext R) w pid,
  is_query e = false ->
  recorded (snd (respond env e w)) pid = recorded w pid.

#[local] Arguments avgRating : simpl never.

Ltac browser_answer :=
  match goal with
  | |- context [@respond ?env unit ?e ?w0] =>
      let r := fresh "r" in
      let w := fresh "w" in
      let K := fresh "K" in
      let E := fresh "E" in
      pose proof (fun pid => @browser_keeps unit e w0 pid eq_refl) as K;
      destruct (@respond env unit e w0) as [r w] eqn:E; destruct r; cbn in K; cbn
  end.

Lemma written_back_recorded (s : State) (u : User) (p : Product) (v : Q)
      (w : world env) :
  product s = Some p ->
  Forall succeeded (events (trace (run env (handleRating s (Some u) v) s w))) ->
  written_back (events (trace (run env (handleRating s (Some u) v) s w)))
  = [avgRating (recorded (after (run env (handleRating s (Some u) v) s w)) (Product.id p))]
  /\ rating_is (after (run env (handleRating s (Some u) v) s w)) (Product.id p)
       (avgRating (recorded (after (run env (handleRating s (Some u) v) s w)) (Product.id p)))
  /\ In v (recorded (after (run env (handleRating s (Some u) v) s w)) (Product.id p)).
Proof.
  intros Hp. unfold handleRating. rewrite Hp. clear Hp. cbn.
  next_answer ra wa Ea.
  destruct ra as [[d1 [e1 |]] | e1]; cbn;
    try (unit_answers; intros Hs; failed_call Hs; fail).
  pose proof (@upsert_records _ _ _ _ _ _ Ea eq_refl) as Hv.
  do 2 browser_answer.
  next_answer rb wb Eb.
  destruct rb as [[d2 [e2 |]] | e2]; cbn;
    try (unit_answers; intros Hs; failed_call Hs; fail).
  destruct (@select_lists _ _ _ _ Eb eq_refl) as [Hdata Hsame]. cbn in Hdata. subst d2. cbn.
  rewrite nonempty_test.
  assert (Hv2 : In v (recorded w1 (Product.id p))) by (rewrite K0, K; exact Hv).
  destruct (recorded w1 (Product.id p)) as [| x rest] eqn:Hrec; [contradiction |].
  cbn. next_answer rc wc Ec.
  destruct rc as [[d3 [e3 |]] | e3]; cbn;
    try (unit_answers; intros Hs; failed_call Hs; fail).
  intros _.
  destruct (@update_stores _ _ _ _ _ Ec eq_refl) as [Hstored Hsame'].
  rewrite Hsame', Hsame. repeat split; assumption || reflexivity.
Qed.

End RatingStore.

(** *** The in-memory backend is such a store *)

Lemma upsert_In (pid uid : string) (v : Q) (rows : list InMemory.RatingRow) :
  In v (InMemory.ratings_of pid (InMemory.upsert (InMemory.mkRow pid uid v) rows)).
Proof.
  unfold InMemory.ratings_of.
  induction rows as [| r rows IH]; cbn.
  - rewrite String.eqb_refl. cbn. left. reflexivity.
  - destruct (String.eqb (InMemory.product_id r) pid && String.eqb (InMemory.user_id r) uid);
      cbn.
    + rewrite String.eqb_refl. cbn. left. reflexivity.
    + destruct (String.eqb (InMemory.product_id r) pid); cbn; [right |]; exact IH.
Qed.

Lemma in_memory_upsert_records (pid uid : string) (v : Q) (w : world InMemory.env)
      (a : Response unit) (w' : world InMemory.env) :
  respond InMemory.env (await_query (product_ratings_upsert pid uid v)) w = (Fulfilled a, w') ->
  error a = None ->
  In v (in_memory_recorded w' pid).
Proof.
  cbn. intros E _. inversion E; subst. apply upsert_In.
Qed.

Lemma in_memory_select_lists (pid : string) (w : world InMemory.env)
      (a : Response (list Q)) (w' : world InMemory.env) :
  respond InMemory.env (await_query (product_ratings_select pid)) w = (Fulfilled a, w') ->
  error a = None ->
  data a = Some (in_memory_recorded w pid)
  /\ in_memory_recorded w' pid = in_memory_recorded w pid.
Proof.
  cbn. intros E _. inversion E; subst. split; reflexivity.
Qed.

Lemma in_memory_update_stores (pid : string) (x : Number) (w : world InMemory.env)
      (a : Response unit) (w' : world InMemory.env) :
  respond InMemory.env (await_query (products_update_rating pid x)) w = (Fulfilled a, w') ->
  error a = None ->
  in_memory_rating_is w' pid x /\ in_memory_recorded w' pid = in_memory_recorded w pid.
Proof.
  cbn. intros E _. inversion E; subst. split; [| reflexivity].
  intros p Hin Hid. cbn in Hin. apply in_map_iff in Hin. destruct Hin as [p0 [<- Hin]].
  unfold InMemory.set_rating in *.
  destruct (String.eqb (Product.id p0) pid) eqn:Heq; [reflexivity |].
  apply String.eqb_neq in Heq. contradiction.
Qed.

Lemma in_memory_browser_keeps R (e : Ext R) (w : world InMemory.env) (pid : string) :
  is_query e = false ->
  in_memory_recorded (snd (respond InMemory.env e w)) pid = in_memory_recorded w pid.
Proof.
  destruct e; cbn; intros H; try discriminate H; reflexivity.
Qed.



Example lamp_rating_after_ada :
  InMemory.product_rating (after ada_rates_lamp) "p1" = Some (9 # 2)%Q.
Proof. vm_compute. reflexivity. Qed.

(** The rounding agrees with the Standard Library's specification of
    binary64 on the sums and quotients of these examples. *)
Example mean_of_4_5_5_in_binary64 :
  ProductDetails.avgRating [4%Q; 5%Q; 5%Q]
  = number_of_spec
      (SpecFloat.SFdiv 53 1024
         (SpecFloat.SFadd 53 1024
            (SpecFloat.SFadd 53 1024
               (SpecFloat.SFadd 53 1024 (binary64 0) (binary64 4)) (binary64 5))
            (binary64 5))
         (binary64 3)).
Proof. vm_compute. reflexivity. Qed.

Example tenth_plus_fifth_in_binary64 :
  js_add (round (1 # 10)) (round (2 # 10))
  = number_of_spec
      (SpecFloat.SFadd 53 1024
         (SpecFloat.SFdiv 53 1024 (binary64 1) (binary64 10))
         (SpecFloat.SFdiv 53 1024 (binary64 2) (binary64 10)))
  /\ js_add (round (1 # 10)) (round (2 # 10)) <> round (3 # 10).
Proof. split; [vm_compute; reflexivity | vm_compute; discriminate]. Qed.

Example rounding_at_the_ends_of_the_range :
  round (inject_Z (2 ^ 1024 - 2 ^ 970)) = Infinity false
  /\ round (inject_Z (2 ^ 1024 - 2 ^ 970 - 1))
     = number_of_spec (SpecFloat.binary_normalize 53 1024 (2 ^ 1024 - 2 ^ 970 - 1) 0 false)
  /\ round (1 # 2 ^ 1075) = Finite 0
  /\ round (3 # 2 ^ 1075) = Finite (1 # 2 ^ 1073).
Proof.
  split; [vm_compute; reflexivity |]. split; [vm_compute; reflexivity |].
  split; vm_compute; reflexivity.
Qed.

(** * Further properties of the components *)

(** ** Adding to the cart *)

Section AddToCart.
Variable env : Env.

(** X1. A logged-in add-to-cart makes one call to the cart store.  When
    it is fulfilled the success notification is shown; when it is rejected
    the error is logged and the failure notification is shown instead.
    Either way the component state is unchanged and no backend query is
    issued, and the card and the detail page do exactly the same. *)
Theorem add_to_cart_outcomes (p : Product) (u : User)
        (sc : ProductCard.State) (sd : ProductDetails.State) (w : world env) :
  ProductDetails.product sd = Some p ->
  events (trace (run env (ProductCard.handleAddToCart p (Some u)) sc w))
  = match fst (respond env (await_addToCart p) w) with
    | Fulfilled r =>
        [ Ev (await_addToCart p) (Fulfilled r);
          Ev (body_appendChild note_added) tt;
          Ev (setTimeout (FadeOut note_added) 3000) tt ]
    | Rejected e =>
        [ Ev (await_addToCart p) (Rejected e);
          Ev (console_error "Error adding to cart:" e) tt;
          Ev (body_appendChild note_not_added) tt;
          Ev (setTimeout (FadeOut note_not_added) 3000) tt ]
    end
  /\ events (trace (run env (ProductDetails.handleAddToCart sd (Some u)) sd w))
     = events (trace (run env (ProductCard.handleAddToCart p (Some u)) sc w))
  /\ state (run env (ProductCard.handleAddToCart p (Some u)) sc w) = sc
  /\ state (run env (ProductDetails.handleAddToCart sd (Some u)) sd w) = sd
  /\ queries (events (trace (run env (ProductCard.handleAddToCart p (Some u)) sc w))) = [].
Proof.
  intros Hp. unfold ProductDetails.handleAddToCart, ProductCard.handleAddToCart.
  rewrite Hp. cbn.
  next_answer ra wa Ea. destruct ra as [[] | e]; cbn; unit_answers; repeat split.
Qed.
End AddToCart.

Lemma add_to_cart_outcomes_witness :
  appended (events (trace (run Offline.env (ProductCard.handleAddToCart lamp (Some ada))
                               ProductCard.initial tt)))
  = [note_not_added].
Proof.
  rewrite (proj1 (@add_to_cart_outcomes Offline.env lamp ada ProductCard.initial
                    three_images tt eq_refl)).
  reflexivity.
Defined.

(** ** When rating fails *)

(** Settles the goals left by [case_answers] when facts about the answers
    were kept in front of the goal. *)
Ltac by_answers :=
  cbn; intros;
  repeat (match goal with
          | H : Some _ = Some _ |- _ => injection H as H; subst
          | H : None = Some _ |- _ => discriminate H
          | H : Some _ = None |- _ => discriminate H
          | H : Fulfilled _ = Rejected _ |- _ => discriminate H
          | H : Rejected _ = Fulfilled _ |- _ => discriminate H
          end; cbn in *);
  repeat split; try reflexivity; try assumption.

Section RatingFailures.
Import ProductDetails.
Variable env : Env.

#[local] Arguments avgRating : simpl never.

(** X2. When the upsert of a rating is rejected or answered with an error,
    handleRating stops there: no other query is sent, the error is logged,
    the failure notification is shown and the component state, the shown
    rating included, is what it was. *)
Theorem rating_upsert_failure (s : State) (u : User) (p : Product) (v : Q)
        (w : world env) (e : Error) :
  product s = Some p ->
  thrown (fst (respond env
                 (await_query (product_ratings_upsert (Product.id p) (User.id u) v)) w))
    = Some e ->
  queries (events (trace (run env (handleRating s (Some u) v) s w)))
    = [product_ratings_upsert (Product.id p) (User.id u) v]
  /\ logged (events (trace (run env (handleRating s (Some u) v) s w)))
     = [("Error rating product:", e)]
  /\ appended (events (trace (run env (handleRating s (Some u) v) s w))) = [note_not_rated]
  /\ state (run env (handleRating s (Some u) v) s w) = s.
Proof.
  intros Hp. unfold handleRating. rewrite Hp. clear Hp.
  cbn. next_answer ra wa Ea. cbn.
  destruct ra as [[d1 [e1 |]] | e1]; cbn; intros He; try discriminate He;
    injection He as ->; unit_answers; repeat split.
Qed.

(** X3. When the upsert went through but listing the ratings fails, the
    page already shows the new rating and "Thanks for rating!", and the
    user gets both the success and the failure notification; nothing is
    written to the product. *)
Theorem rating_list_failure (s : State) (u : User) (p : Product) (v : Q)
        (w : world env) (r : Settled (Response (list Q))) (e : Error) :
  product s = Some p ->
  first_answer select_answer_of (events (trace (run env (handleRating s (Some u) v) s w)))
    = Some r ->
  thrown r = Some e ->
  rating (state (run env (handleRating s (Some u) v) s w)) = v
  /\ hasRated (state (run env (handleRating s (Some u) v) s w)) = true
  /\ appended (events (trace (run env (handleRating s (Some u) v) s w)))
     = [note_rated; note_not_rated]
  /\ logged (events (trace (run env (handleRating s (Some u) v) s w)))
     = [("Error rating product:", e)]
  /\ written_back (events (trace (run env (handleRating s (Some u) v) s w))) = [].
Proof.
  intros Hp. unfold handleRating. rewrite Hp. clear Hp. revert r e.
  case_answers; by_answers.
Qed.

(** X4. The answer to the final update is not inspected: when the backend
    answers it with an error, nothing is logged and only the success
    notification is shown, as if the average had been stored.  Only a
    rejected promise is reported. *)
Theorem rating_update_error_unreported (s : State) (u : User) (p : Product) (v : Q)
        (w : world env) (r : Settled (Response unit)) :
  product s = Some p ->
  first_answer update_answer_of (events (trace (run env (handleRating s (Some u) v) s w)))
    = Some r ->
  match r with
  | Fulfilled _ =>
      logged (events (trace (run env (handleRating s (Some u) v) s w))) = []
      /\ appended (events (trace (run env (handleRating s (Some u) v) s w))) = [note_rated]
  | Rejected e =>
      logged (events (trace (run env (handleRating s (Some u) v) s w)))
        = [("Error rating product:", e)]
      /\ appended (events (trace (run env (handleRating s (Some u) v) s w)))
         = [note_rated; note_not_rated]
  end
  /\ rating (state (run env (handleRating s (Some u) v) s w)) = v
  /\ hasRated (state (run env (handleRating s (Some u) v) s w)) = true.
Proof.
  intros Hp. unfold handleRating. rewrite Hp. clear Hp. revert r.
  case_answers; by_answers.
Qed.
End RatingFailures.

Lemma rating_upsert_failure_witness :
  state (run Offline.env (ProductDetails.handleRating three_images (Some ada) 5)
             three_images tt) = three_images.
Proof.
  apply (@rating_upsert_failure Offline.env three_images ada lamp 5 tt Offline.network_error);
    reflexivity.
Defined.

Lemma rating_list_failure_witness :
  appended (events (trace (run (Faulty.env Faulty.the_select)
                               (ProductDetails.handleRating three_images (Some ada) 5)
                               three_images shop)))
  = [note_rated; note_not_rated].
Proof.
  apply (@rating_list_failure (Faulty.env Faulty.the_select) three_images ada lamp 5 shop
           (Fulfilled (mkResponse None (Some Faulty.refused))) Faulty.refused);
    reflexivity.
Defined.

Lemma rating_update_error_unreported_witness :
  logged (events (trace (run (Faulty.env Faulty.the_update)
                             (ProductDetails.handleRating three_images (Some ada) 5)
                             three_images shop))) = []
  /\ appended (events (trace (run (Faulty.env Faulty.the_update)
                                  (ProductDetails.handleRating three_images (Some ada) 5)
                                  three_images shop))) = [note_rated].
Proof.
  apply (@rating_update_error_unreported (Faulty.env Faulty.the_update) three_images ada lamp 5
           shop (Fulfilled (mkResponse None (Some Faulty.refused))));
    reflexivity.
Defined.

(** ** What the page load leaves behind *)

Section FetchStates.
Import ProductDetails.
Context {rt : JSRuntime}.
Variable env : Env.

(** X5. When the product and its images arrive without error, the fetch
    ends with the product in the state, the gallery made of the product's
    own image followed by the additional images (none when the answer has
    no data), and loading off.  The rating shown is the user's stored
    rating when that third query returns one, else product.rating or 5;
    an error in the answer to the third query is ignored without a log,
    a rejection of it is logged. *)
Theorem fetch_loaded_state (productId : string) (user : option User) (s : State)
        (w w1 w2 : world env) (p : Product) (imgs : option (list string)) :
  respond env (await_query (products_select_single productId)) w
    = (Fulfilled (mkResponse (Some p) None), w1) ->
  respond env (await_query (product_images_select productId)) w1
    = (Fulfilled (mkResponse imgs None), w2) ->
  loading (state (run env (fetchProductDetails productId user) s w)) = false
  /\ product (state (run env (fetchProductDetails productId user) s w)) = Some p
  /\ productImages (state (run env (fetchProductDetails productId user) s w))
     = Product.image p :: match imgs with Some l => l | None => [] end
  /\ match user with
     | None =>
         rating (state (run env (fetchProductDetails productId user) s w))
           = falsy_or (Product.rating p) 5
         /\ hasRated (state (run env (fetchProductDetails productId user) s w)) = hasRated s
         /\ logged (events (trace (run env (fetchProductDetails productId user) s w))) = []
     | Some u =>
         match fst (respond env (await_query
                      (product_ratings_select_user productId (User.id u))) w2) with
         | Fulfilled a =>
             match first_rating (Fulfilled a) with
             | Some x =>
                 rating (state (run env (fetchProductDetails productId user) s w)) = x
                 /\ hasRated (state (run env (fetchProductDetails productId user) s w)) = true
             | None =>
                 rating (state (run env (fetchProductDetails productId user) s w))
                   = falsy_or (Product.rating p) 5
                 /\ hasRated (state (run env (fetchProductDetails productId user) s w))
                    = hasRated s
             end
             /\ logged (events (trace (run env (fetchProductDetails productId user) s w))) = []
         | Rejected e =>
             rating (state (run env (fetchProductDetails productId user) s w))
               = falsy_or (Product.rating p) 5
             /\ hasRated (state (run env (fetchProductDetails productId user) s w)) = hasRated s
             /\ logged (events (trace (run env (fetchProductDetails productId user) s w)))
                = [("Error fetching product details:", e)]
         end
     end.
Proof.
  intros H1 H2. unfold fetchProductDetails. cbn.
  known_answer H1. cbn. known_answer H2. cbn.
  destruct user as [u |]; cbn; [| repeat split].
  next_answer rc wc Ec. cbn.
  destruct rc as [[d3 [e3 |]] | e3]; cbn.
  - unit_answers. repeat split.
  - destruct d3 as [[| x l] |]; cbn; repeat split.
  - unit_answers. repeat split.
Qed.
(** X6. The page load only reads.  Its queries form an initial part of
    product, images, own rating (the last only for a logged-in user): never
    reordered, never repeated, and none of them is a write. *)
Theorem fetch_reads_in_order (productId : string) (user : option User) (s : State)
        (w : world env) :
  initial_part
    (queries (events (trace (run env (fetchProductDetails productId user) s w))))
    (products_select_single productId
       :: product_images_select productId
       :: match user with
          | Some u => [product_ratings_select_user productId (User.id u)]
          | None => []
          end)
  /\ forallb (fun q => negb (is_write q))
       (queries (events (trace (run env (fetchProductDetails productId user) s w)))) = true.
Proof.
  unfold fetchProductDetails, initial_part.
  case_answers; cbn; (split; [eexists; reflexivity | reflexivity]).
Qed.

(** X7. When the product query is rejected or answered with an error, no
    other query follows, the error is logged once, and the state is the
    one before the fetch with loading off: the page shows whatever
    product it had, or the not-found view.  When it is answered with
    neither data nor error, the product in the state is cleared. *)
Theorem fetch_product_failure (productId : string) (user : option User) (s : State)
        (w : world env) :
  (forall e,
      thrown (fst (respond env (await_query (products_select_single productId)) w)) = Some e ->
      queries (events (trace (run env (fetchProductDetails productId user) s w)))
        = [products_select_single productId]
      /\ logged (events (trace (run env (fetchProductDetails productId user) s w)))
         = [("Error fetching product details:", e)]
      /\ state (run env (fetchProductDetails productId user) s w)
         = mkState false (product s) (productImages s) (currentImageIndex s)
                   (linkCopied s) (rating s) (hoverRating s) (hasRated s))
  /\ (forall w1,
        respond env (await_query (products_select_single productId)) w
          = (Fulfilled (mkResponse None None), w1) ->
        queries (events (trace (run env (fetchProductDetails productId user) s w)))
          = [products_select_single productId]
        /\ product (state (run env (fetchProductDetails productId user) s w)) = None
        /\ render (Some productId) (state (run env (fetchProductDetails productId user) s w))
           = NotFound).
Proof.
  unfold fetchProductDetails. split.
  - intros e. cbn. next_answer ra wa Ea. cbn.
    destruct ra as [[d1 [e1 |]] | e1]; cbn; intros He; try discriminate He;
      injection He as ->; unit_answers; repeat split.
  - intros w1 H1. cbn. known_answer H1. cbn. unit_answers. repeat split.
Qed.

(** X8. When the product arrived but the images query fails, the product
    and its rating are in the state and the gallery is left as it was; on
    a first load the gallery is empty, so the details view is shown with
    no main image and no thumbnails. *)
Theorem fetch_images_failure (productId : string) (user : option User) (s : State)
        (w w1 : world env) (p : Product) (e : Error) :
  respond env (await_query (products_select_single productId)) w
    = (Fulfilled (mkResponse (Some p) None), w1) ->
  thrown (fst (respond env (await_query (product_images_select productId)) w1)) = Some e ->
  product (state (run env (fetchProductDetails productId user) s w)) = Some p
  /\ productImages (state (run env (fetchProductDetails productId user) s w)) = productImages s
  /\ logged (events (trace (run env (fetchProductDetails productId user) s w)))
     = [("Error fetching product details:", e)]
  /\ (productImages s = [] ->
      exists d,
        render (Some productId) (state (run env (fetchProductDetails productId user) s w))
          = Details d
        /\ main_image d = None /\ thumbnails d = [] /\ gallery_buttons d = false).
Proof.
  intros H1 He. unfold fetchProductDetails. cbn. known_answer H1. cbn.
  next_answer rb wb Eb.
  assert (He' := eq_trans (eq_sym (f_equal (fun x => thrown (fst x)) Eb)) He).
  clear He. cbn in He'. cbn.
  destruct rb as [[d2 [e2 |]] | e2]; cbn in He'; cbn; try discriminate He';
    injection He' as ->; unit_answers; repeat split.
  all: intros Hs; unfold render; cbn; rewrite Hs; eexists; repeat split;
    cbn; destruct (currentImageIndex s) as [[| i | i] |]; try reflexivity;
    cbn; destruct (Pos.to_nat i); reflexivity.
Qed.

(** X9. A fetch never clears what an earlier product left in the state:
    the image index, the hover and copy flags are untouched, and hasRated,
    once true, stays true, so "Thanks for rating!" survives a change of
    product. *)
Theorem fetch_keeps_stale_state (productId : string) (user : option User) (s : State)
        (w : world env) :
  currentImageIndex (state (run env (fetchProductDetails productId user) s w))
    = currentImageIndex s
  /\ linkCopied (state (run env (fetchProductDetails productId user) s w)) = linkCopied s
  /\ hoverRating (state (run env (fetchProductDetails productId user) s w)) = hoverRating s
  /\ (hasRated s = true ->
      hasRated (state (run env (fetchProductDetails productId user) s w)) = true).
Proof.
  unfold fetchProductDetails. case_answers; cbn; repeat split; auto.
Qed.
End FetchStates.

Lemma fetch_loaded_state_witness :
  ProductDetails.productImages
    (state (run InMemory.env (ProductDetails.fetchProductDetails "p1" (Some ada))
                ProductDetails.initial shop))
  = ["lamp.png"; "lamp-side.png"].
Proof.
  apply (@fetch_loaded_state InMemory.env "p1" (Some ada) ProductDetails.initial
           shop shop shop lamp (Some ["lamp-side.png"]));
    reflexivity.
Defined.

Lemma fetch_product_failure_witness :
  state (run Offline.env (ProductDetails.fetchProductDetails "p1" (Some ada))
             ProductDetails.initial tt)
  = ProductDetails.mkState false None [] (Some 0) false 0 0 false.
Proof.
  apply (proj1 (@fetch_product_failure sample_runtime Offline.env "p1" (Some ada)
                  ProductDetails.initial tt) Offline.network_error).
  reflexivity.
Defined.

Lemma fetch_images_failure_witness :
  exists d,
    @ProductDetails.render sample_runtime (Some "p1")
       (state (run (Faulty.env Faulty.the_images)
                   (ProductDetails.fetchProductDetails "p1" None)
                   ProductDetails.initial shop))
    = ProductDetails.Details d
    /\ ProductDetails.main_image d = None
    /\ ProductDetails.thumbnails d = []
    /\ ProductDetails.gallery_buttons d = false.
Proof.
  apply (@fetch_images_failure sample_runtime (Faulty.env Faulty.the_images) "p1" None
           ProductDetails.initial shop shop lamp Faulty.refused);
    reflexivity.
Defined.

Lemma fetch_keeps_stale_state_witness :
  ProductDetails.hasRated
    (state (run InMemory.env (ProductDetails.fetchProductDetails "p1" None) rated_page shop))
  = true.
Proof.
  apply (@fetch_keeps_stale_state InMemory.env "p1" None rated_page shop).
  reflexivity.
Defined.

(** After the change of product the index 2 of the old gallery points
    past the two images of the new one. *)
Example stale_index_shows_no_image :
  exists d,
    @ProductDetails.render sample_runtime (Some "p1")
       (state (run InMemory.env (ProductDetails.fetchProductDetails "p1" None)
                   rated_page shop))
    = ProductDetails.Details d
    /\ ProductDetails.main_image d = None
    /\ ProductDetails.rating_label d = "Thanks for rating!".
Proof. eexists. repeat split. Qed.

Section FirstLoad.
Import ProductDetails.
Context {rt : JSRuntime}.
Variable env : Env.

(** X10. A first load that gets the product and its images shows the
    details view with the product's own image as the main image; the
    previous/next buttons and the thumbnails appear exactly when there is
    at least one additional image, and the link field holds the product
    link. *)
Theorem first_load_view (productId : string) (user : option User)
        (w w1 w2 : world env) (p : Product) (imgs : option (list string)) :
  respond env (await_query (products_select_single productId)) w
    = (Fulfilled (mkResponse (Some p) None), w1) ->
  respond env (await_query (product_images_select productId)) w1
    = (Fulfilled (mkResponse imgs None), w2) ->
  exists d,
    render (Some productId) (state (run env (fetchProductDetails productId user) initial w))
      = Details d
    /\ main_image d = Some (Product.image p)
    /\ gallery_buttons d
       = match imgs with Some (_ :: _) => true | _ => false end
    /\ thumbnails d
       = match imgs with Some (x :: l) => Product.image p :: x :: l | _ => [] end
    /\ link_value d = (link_prefix ++ productId)%string
    /\ copy_done d = false.
Proof.
  intros H1 H2.
  assert (Hstate : exists r h,
             state (run env (fetchProductDetails productId user) initial w)
             = mkState false (Some p)
                       (Product.image p :: match imgs with Some l => l | None => [] end)
                       (Some 0) false r 0 h).
  { unfold fetchProductDetails. cbn. known_answer H1. cbn. known_answer H2. cbn.
    destruct user as [u |]; cbn; [| eexists; eexists; reflexivity].
    next_answer rc wc Ec. cbn.
    destruct rc as [[d3 [e3 |]] | e3]; cbn; unit_answers;
      try (destruct d3 as [[| x0 l0] |]; cbn); eexists; eexists; reflexivity. }
  destruct Hstate as [r [h ->]].
  unfold render. cbn [loading product].
  eexists. split; [reflexivity |].
  destruct imgs as [[| x l] |]; cbn [main_image gallery_buttons thumbnails link_value copy_done
                                      productImages currentImageIndex linkCopied array_get];
    repeat split;
    try (apply Z.ltb_lt; cbn [List.length]; lia);
    try (rewrite (proj2 (Z.ltb_lt 1 (Z.of_nat (List.length (Product.image p :: x :: l)))));
         [reflexivity | cbn [List.length]; lia]).
Qed.
End FirstLoad.

Lemma first_load_view_witness :
  exists d,
    @ProductDetails.render sample_runtime (Some "p1")
       (state (run InMemory.env (ProductDetails.fetchProductDetails "p1" (Some ada))
                   ProductDetails.initial shop))
    = ProductDetails.Details d
    /\ ProductDetails.main_image d = Some "lamp.png"
    /\ ProductDetails.gallery_buttons d = true
    /\ ProductDetails.thumbnails d = ["lamp.png"; "lamp-side.png"]
    /\ ProductDetails.link_value d = "https://ulishastore.netlify.app/product/p1"
    /\ ProductDetails.copy_done d = false.
Proof.
  apply (@first_load_view sample_runtime InMemory.env "p1" (Some ada) shop shop shop lamp
           (Some ["lamp-side.png"]));
    reflexivity.
Defined.

(** ** Notifications and their timers *)

Section SettleFacts.
Variable env : Env.
Context {S : Type}.
Variable setLinkCopied : bool -> Prog S unit.

Lemma appended_app (l1 l2 : list Event) : appended (l1 ++ l2) = appended l1 ++ appended l2.
Proof.
  induction l1 as [| [R e r] l1 IH]; [reflexivity |].
  destruct e; cbn; rewrite IH; reflexivity.
Qed.

Lemma removed_app (l1 l2 : list Event) : removed (l1 ++ l2) = removed l1 ++ removed l2.
Proof.
  induction l1 as [| [R e r] l1 IH]; [reflexivity |].
  destruct e; cbn; rewrite IH; reflexivity.
Qed.

Lemma map_snd_stamped (d : Z) (l : list Event) : map snd (map (fun ev => (d, ev)) l) = l.
Proof.
  induction l as [| ev l IH]; cbn; [reflexivity | now rewrite IH].
Qed.

Lemma settle_idle (fuel : nat) (s : S) (w : world env) :
  settle env (fire setLinkCopied) fuel [] s w = mkSettled [] s w [].
Proof. destruct fuel; reflexivity. Qed.

Lemma run_fade (n : Element) (s : S) (w : world env) :
  exists w',
    run env (fire setLinkCopied (FadeOut n)) s w
    = mkOutcome tt s w'
        [ mkStep s (Ev (classList_add n "animate-fade-out") tt);
          mkStep s (Ev (setTimeout (Remove n) 300) tt) ].
Proof. cbn. unit_answers. eexists. reflexivity. Qed.

Lemma run_remove (n : Element) (s : S) (w : world env) :
  exists w',
    run env (fire setLinkCopied (Remove n)) s w
    = mkOutcome tt s w' [mkStep s (Ev (body_removeChild n) tt)].
Proof. cbn. unit_answers. eexists. reflexivity. Qed.

(** A timer that is not due before any timer of the queue goes last. *)
Lemma schedule_last (t : Timer) (q : list Timer) :
  Forall (fun t' => due t' <= due t) q -> schedule t q = q ++ [t].
Proof.
  induction q as [| t' q IH]; intros H; [reflexivity |].
  inversion H as [| ? ? Hle Hq]; subst. cbn.
  destruct (Z.ltb_spec (due t) (due t')) as [Hlt | _]; [lia |].
  now rewrite IH.
Qed.

Definition fade_at (d : Z) (n : Element) : Timer := mkTimer d (FadeOut n).
Definition remove_at (d : Z) (n : Element) : Timer := mkTimer d (Remove n).

Lemma settle_removals (d : Z) (removes : list Element) (fuel : nat) (s : S) (w : world env) :
  exists tl wf,
    settle env (fire setLinkCopied) (List.length removes + fuel)
           (map (remove_at d) removes) s w
    = mkSettled tl s wf []
    /\ removed (map snd tl) = removes
    /\ appended (map snd tl) = [].
Proof.
  revert w. induction removes as [| n removes IH]; intros w.
  - cbn [List.length map Nat.add]. rewrite settle_idle. eexists. eexists. repeat split.
  - cbn [List.length map Nat.add settle callback remove_at due].
    destruct (run_remove n s w) as [w' ->].
    cbn [trace events map event armed schedule_all fold_left state after].
    destruct (IH w') as [tl [wf [-> [Hr Ha]]]].
    cbn [timeline final world_after still_armed].
    eexists. eexists. split; [reflexivity |].
    cbn. rewrite Hr, Ha. split; reflexivity.
Qed.

(** Notifications that fade at [d]: each is removed at [d + 300], after
    the removals that were already due then, and nothing stays armed. *)
Lemma settle_notifications (d : Z) (fades removes : list Element) (fuel : nat)
      (s : S) (w : world env) :
  exists tl wf,
    settle env (fire setLinkCopied) (2 * List.length fades + List.length removes + fuel)
           (map (fade_at d) fades ++ map (remove_at (d + 300)) removes) s w
    = mkSettled tl s wf []
    /\ removed (map snd tl) = removes ++ fades
    /\ appended (map snd tl) = [].
Proof.
  revert removes w. induction fades as [| n fades IH]; intros removes w.
  - cbn [List.length map Nat.mul Nat.add app]. rewrite app_nil_r.
    apply settle_removals.
  - replace (2 * List.length (n :: fades) + List.length removes + fuel)%nat
      with (Datatypes.S (2 * List.length fades + List.length (removes ++ [n]) + fuel))
      by (rewrite length_app; cbn [List.length]; lia).
    cbn [map app settle callback fade_at due].
    destruct (run_fade n s w) as [w' ->].
    cbn [trace events map event armed schedule_all fold_left state after fst snd].
    rewrite schedule_last.
    2:{ apply Forall_app. split; apply Forall_forall; intros t Ht;
        apply in_map_iff in Ht; destruct Ht as [x [<- _]]; cbn; lia. }
    rewrite <- app_assoc.
    change [mkTimer (d + 300) (Remove n)] with (map (remove_at (d + 300)) [n]).
    rewrite <- map_app.
    destruct (IH (removes ++ [n]) w') as [tl [wf [-> [Hr Ha]]]].
    cbn [timeline final world_after still_armed].
    eexists. eexists. split; [reflexivity |].
    cbn. rewrite Hr, Ha, <- app_assoc. split; reflexivity.
Qed.
Lemma settle_reset (g : S -> S) (d : Z) (q : list Timer) (fuel : nat) (s : S)
      (w : world env) :
  (forall s0 w0, run env (setLinkCopied false) s0 w0 = mkOutcome tt (g s0) w0 []) ->
  settle env (fire setLinkCopied) (Datatypes.S fuel) (mkTimer d ResetLinkCopied :: q) s w
  = settle env (fire setLinkCopied) fuel q (g s) w.
Proof.
  intros H. cbn [settle callback fire due]. rewrite H.
  cbn [trace events map armed schedule_all fold_left state after app].
  destruct (settle env (fire setLinkCopied) fuel q (g s) w). reflexivity.
Qed.

Lemma schedule_fades (notes : list Element) (q : list Element) :
  schedule_all 0 (map (fun n => (3000, FadeOut n)) notes) (map (fade_at 3000) q)
  = map (fade_at 3000) (q ++ notes).
Proof.
  revert q. induction notes as [| n notes IH]; intros q.
  - now rewrite app_nil_r.
  - cbn [map schedule_all fold_left fst snd]. rewrite schedule_last.
    2:{ apply Forall_forall. intros t Ht. apply in_map_iff in Ht.
        destruct Ht as [x [<- _]]. cbn. lia. }
    change [mkTimer (0 + 3000) (FadeOut n)] with (map (fade_at 3000) [n]).
    rewrite <- map_app. unfold schedule_all in IH. rewrite IH, <- app_assoc. reflexivity.
Qed.

(** A handler that only shows notifications, each with its fade-out timer,
    leaves nothing behind once the timers have fired. *)
Lemma play_cleans_up (p : Prog S unit) (s : S) (w : world env) (notes : list Element)
      (fuel : nat) :
  armed (events (trace (run env p s w))) = map (fun n => (3000, FadeOut n)) notes ->
  appended (events (trace (run env p s w))) = notes ->
  removed (events (trace (run env p s w))) = [] ->
  (2 * List.length notes <= fuel)%nat ->
  removed (map snd (timeline (play env (fire setLinkCopied) fuel p s w)))
  = appended (map snd (timeline (play env (fire setLinkCopied) fuel p s w)))
  /\ still_armed (play env (fire setLinkCopied) fuel p s w) = []
  /\ final (play env (fire setLinkCopied) fuel p s w) = state (run env p s w).
Proof.
  intros Harmed Happ Hrem Hfuel. unfold play.
  rewrite Harmed.
  change (@nil Timer) with (map (fade_at 3000) []).
  rewrite schedule_fades. cbn [app].
  replace fuel with (2 * List.length notes + List.length (@nil Element)
                     + (fuel - 2 * List.length notes))%nat by (cbn [List.length]; lia).
  pose proof (settle_notifications 3000 notes [] (fuel - 2 * List.length notes)
                (state (run env p s w)) (after (run env p s w))) as [tl [wf [E [Hr Ha]]]].
  cbn [map app] in E. rewrite app_nil_r in E. rewrite E.
  cbn [timeline final world_after still_armed].
  rewrite !map_app, !map_snd_stamped, removed_app, appended_app.
  rewrite Happ, Hrem, Hr, Ha, app_nil_r. repeat split.
Qed.
End SettleFacts.

Section Timers.
Variable env : Env.

(** X11. A notification lives for 3.3 seconds: it is appended to the body
    at once, gets the fade-out class 3000 ms later and is removed from the
    body 300 ms after that; then no timer is left and the component state
    was never touched. *)
Theorem notification_lifecycle (S : Type) (setLinkCopied : bool -> Prog S unit)
        (message : string) (type : NotificationType) (fuel : nat) (s : S) (w : world env) :
  map fst (timeline (play env (fire setLinkCopied) (Datatypes.S (Datatypes.S fuel))
                          (showNotification message type) s w))
  = [0; 0; 3000; 3000; 3300]
  /\ map snd (timeline (play env (fire setLinkCopied) (Datatypes.S (Datatypes.S fuel))
                             (showNotification message type) s w))
     = [ Ev (body_appendChild (notification_element message type)) tt;
         Ev (setTimeout (FadeOut (notification_element message type)) 3000) tt;
         Ev (classList_add (notification_element message type) "animate-fade-out") tt;
         Ev (setTimeout (Remove (notification_element message type)) 300) tt;
         Ev (body_removeChild (notification_element message type)) tt ]
  /\ still_armed (play env (fire setLinkCopied) (Datatypes.S (Datatypes.S fuel))
                       (showNotification message type) s w) = []
  /\ final (play env (fire setLinkCopied) (Datatypes.S (Datatypes.S fuel))
                 (showNotification message type) s w) = s.
Proof.
  unfold play, showNotification. cbn. unit_answers.
  destruct fuel; cbn; repeat split.
Qed.

Lemma copy_settles (S : Type) (setLinkCopied : bool -> Prog S unit) (g : S -> S)
      (p : Prog S unit) (s s' : S) (w w' : world env) (n : Element)
      (tr : Trace S) (fuel : nat) :
  (forall s0 w0, run env (setLinkCopied false) s0 w0 = mkOutcome tt (g s0) w0 []) ->
  run env p s w = mkOutcome tt s' w' tr ->
  armed (events tr) = [(3000, FadeOut n); (2000, ResetLinkCopied)] ->
  appended (events tr) = [n] ->
  removed (events tr) = [] ->
  final (play env (fire setLinkCopied) 1 p s w) = g s'
  /\ still_armed (play env (fire setLinkCopied) 1 p s w) = [mkTimer 3000 (FadeOut n)]
  /\ final (play env (fire setLinkCopied) (3 + fuel) p s w) = g s'
  /\ removed (map snd (timeline (play env (fire setLinkCopied) (3 + fuel) p s w)))
     = appended (map snd (timeline (play env (fire setLinkCopied) (3 + fuel) p s w)))
  /\ still_armed (play env (fire setLinkCopied) (3 + fuel) p s w) = [].
Proof.
  intros Hreset Hrun Harmed Happ Hrem. unfold play. rewrite Hrun.
  cbn [trace state after]. rewrite Harmed.
  cbn [schedule_all fold_left schedule fst snd due Z.add Z.ltb Z.compare Pos.compare
       Pos.compare_cont Pos.add].
  change (3 + fuel)%nat with (Datatypes.S (2 + fuel)).
  rewrite !(@settle_reset env _ setLinkCopied g) by exact Hreset.
  destruct (@settle_notifications env _ setLinkCopied 3000 [n] [] fuel (g s') w')
    as [tl [wf [E [Hr Ha]]]].
  cbn [map app List.length Nat.mul Nat.add fade_at] in E.
  change (2 + fuel)%nat with (Datatypes.S (Datatypes.S fuel)).
  unfold fade_at in E.
  rewrite E. cbn [settle timeline final world_after still_armed].
  rewrite !map_app, !map_snd_stamped, removed_app, appended_app.
  rewrite Happ, Hrem, Hr, Ha. repeat split.
Qed.

(** X12. After a successful copy the "copied" mark is taken back when
    the first timer fires, at 2000 ms, while the notification is still
    shown; once all timers have fired the mark is off, the notification
    has been removed and nothing is left armed.  Both components. *)
Theorem copy_mark_then_notification (p : Product) (productId : string)
        (sc : ProductCard.State) (sd : ProductDetails.State) (w : world env) (fuel : nat) :
  (forall r w1,
      respond env (clipboard_writeText (link_prefix ++ Product.id p)) w = (Fulfilled r, w1) ->
      ProductCard.linkCopied
        (final (play env (fire ProductCard.setLinkCopied) 1
                     (ProductCard.copyToClipboard p) sc w)) = false
      /\ still_armed (play env (fire ProductCard.setLinkCopied) 1
                           (ProductCard.copyToClipboard p) sc w)
         = [mkTimer 3000 (FadeOut (notification_element "Link copied to clipboard!" success))]
      /\ ProductCard.linkCopied
           (final (play env (fire ProductCard.setLinkCopied) (3 + fuel)
                        (ProductCard.copyToClipboard p) sc w)) = false
      /\ removed (map snd (timeline (play env (fire ProductCard.setLinkCopied) (3 + fuel)
                                          (ProductCard.copyToClipboard p) sc w)))
         = appended (map snd (timeline (play env (fire ProductCard.setLinkCopied) (3 + fuel)
                                             (ProductCard.copyToClipboard p) sc w)))
      /\ still_armed (play env (fire ProductCard.setLinkCopied) (3 + fuel)
                           (ProductCard.copyToClipboard p) sc w) = [])
  /\ (forall r w1,
      respond env (clipboard_writeText (link_prefix ++ productId)) w = (Fulfilled r, w1) ->
      ProductDetails.linkCopied
        (final (play env (fire ProductDetails.setLinkCopied) 1
                     (ProductDetails.copyToClipboard (Some productId)) sd w)) = false
      /\ still_armed (play env (fire ProductDetails.setLinkCopied) 1
                           (ProductDetails.copyToClipboard (Some productId)) sd w)
         = [mkTimer 3000 (FadeOut (notification_element "Link copied to clipboard!" success))]
      /\ ProductDetails.linkCopied
           (final (play env (fire ProductDetails.setLinkCopied) (3 + fuel)
                        (ProductDetails.copyToClipboard (Some productId)) sd w)) = false
      /\ removed (map snd (timeline (play env (fire ProductDetails.setLinkCopied) (3 + fuel)
                                          (ProductDetails.copyToClipboard (Some productId)) sd w)))
         = appended (map snd (timeline (play env (fire ProductDetails.setLinkCopied) (3 + fuel)
                                             (ProductDetails.copyToClipboard (Some productId))
                                             sd w)))
      /\ still_armed (play env (fire ProductDetails.setLinkCopied) (3 + fuel)
                           (ProductDetails.copyToClipboard (Some productId)) sd w) = []).
Proof.
  split; intros r w1 H.
  - assert (Hrun : exists s' w' tr,
               run env (ProductCard.copyToClipboard p) sc w = mkOutcome tt s' w' tr
               /\ armed (events tr)
                  = [(3000, FadeOut (notification_element "Link copied to clipboard!" success));
                     (2000, ResetLinkCopied)]
               /\ appended (events tr)
                  = [notification_element "Link copied to clipboard!" success]
               /\ removed (events tr) = []).
    { unfold ProductCard.copyToClipboard, ProductCard.getProductLink, link_prefix in *.
      cbn. known_answer H. cbn. unit_answers. do 3 eexists. repeat split. }
    destruct Hrun as [s' [w' [tr [Hrun [Ha [Hp Hr]]]]]].
    destruct (@copy_settles _ ProductCard.setLinkCopied
                (fun s0 => ProductCard.mkState (ProductCard.showShareOptions s0) false)
                _ sc s' w w' _ tr fuel (fun _ _ => eq_refl) Hrun Ha Hp Hr)
      as [F1 [A1 [F3 [R3 A3]]]].
    rewrite F1, F3. repeat split; assumption.
  - assert (Hrun : exists s' w' tr,
               run env (ProductDetails.copyToClipboard (Some productId)) sd w
               = mkOutcome tt s' w' tr
               /\ armed (events tr)
                  = [(3000, FadeOut (notification_element "Link copied to clipboard!" success));
                     (2000, ResetLinkCopied)]
               /\ appended (events tr)
                  = [notification_element "Link copied to clipboard!" success]
               /\ removed (events tr) = []).
    { unfold ProductDetails.copyToClipboard, ProductDetails.getProductLink, link_prefix in *.
      cbn. known_answer H. cbn. unit_answers. do 3 eexists. repeat split. }
    destruct Hrun as [s' [w' [tr [Hrun [Ha [Hp Hr]]]]]].
    destruct (@copy_settles _ ProductDetails.setLinkCopied
                (fun s0 => ProductDetails.mkState
                             (ProductDetails.loading s0) (ProductDetails.product s0)
                             (ProductDetails.productImages s0)
                             (ProductDetails.currentImageIndex s0) false
                             (ProductDetails.rating s0) (ProductDetails.hoverRating s0)
                             (ProductDetails.hasRated s0))
                _ sd s' w w' _ tr fuel (fun _ _ => eq_refl) Hrun Ha Hp Hr)
      as [F1 [A1 [F3 [R3 A3]]]].
    rewrite F1, F3. repeat split; assumption.
Qed.

Lemma rating_shows (s : ProductDetails.State) (user : option User) (v : Q) (w : world env) :
  exists notes,
    armed (events (trace (run env (ProductDetails.handleRating s user v) s w)))
    = map (fun n => (3000, FadeOut n)) notes
    /\ appended (events (trace (run env (ProductDetails.handleRating s user v) s w))) = notes
    /\ removed (events (trace (run env (ProductDetails.handleRating s user v) s w))) = []
    /\ (List.length notes <= 2)%nat.
Proof.
  unfold ProductDetails.handleRating.
  destruct user as [u |], (ProductDetails.product s) as [p0 |];
    case_answers; cbn; eexists; (split; [| split; [reflexivity | split; [reflexivity |]]]);
    try reflexivity; cbn; lia.
Qed.

Lemma details_add_shows (s : ProductDetails.State) (user : option User) (w : world env) :
  exists notes,
    armed (events (trace (run env (ProductDetails.handleAddToCart s user) s w)))
    = map (fun n => (3000, FadeOut n)) notes
    /\ appended (events (trace (run env (ProductDetails.handleAddToCart s user) s w))) = notes
    /\ removed (events (trace (run env (ProductDetails.handleAddToCart s user) s w))) = []
    /\ (List.length notes <= 2)%nat.
Proof.
  unfold ProductDetails.handleAddToCart.
  destruct user as [u |], (ProductDetails.product s) as [p0 |];
    case_answers; cbn; eexists; (split; [| split; [reflexivity | split; [reflexivity |]]]);
    try reflexivity; cbn; lia.
Qed.

Lemma card_add_shows (p : Product) (sc : ProductCard.State) (user : option User)
      (w : world env) :
  exists notes,
    armed (events (trace (run env (ProductCard.handleAddToCart p user) sc w)))
    = map (fun n => (3000, FadeOut n)) notes
    /\ appended (events (trace (run env (ProductCard.handleAddToCart p user) sc w))) = notes
    /\ removed (events (trace (run env (ProductCard.handleAddToCart p user) sc w))) = []
    /\ (List.length notes <= 2)%nat.
Proof.
  unfold ProductCard.handleAddToCart.
  destruct user as [u |];
    case_answers; cbn; eexists; (split; [| split; [reflexivity | split; [reflexivity |]]]);
    try reflexivity; cbn; lia.
Qed.

(** X13. Whatever the outcome of a rating or of an add-to-cart, every
    notification the handler appended to the body is removed again by its
    timers, in the order shown, and no timer stays armed. *)
Theorem notifications_are_removed (s : ProductDetails.State) (sc : ProductCard.State)
        (p : Product) (user : option User) (v : Q) (w : world env) (fuel : nat) :
  (removed (map snd (timeline (play env (fire ProductDetails.setLinkCopied) (4 + fuel)
                                    (ProductDetails.handleRating s user v) s w)))
   = appended (map snd (timeline (play env (fire ProductDetails.setLinkCopied) (4 + fuel)
                                       (ProductDetails.handleRating s user v) s w)))
   /\ still_armed (play env (fire ProductDetails.setLinkCopied) (4 + fuel)
                        (ProductDetails.handleRating s user v) s w) = [])
  /\ (removed (map snd (timeline (play env (fire ProductDetails.setLinkCopied) (4 + fuel)
                                       (ProductDetails.handleAddToCart s user) s w)))
      = appended (map snd (timeline (play env (fire ProductDetails.setLinkCopied) (4 + fuel)
                                          (ProductDetails.handleAddToCart s user) s w)))
      /\ still_armed (play env (fire ProductDetails.setLinkCopied) (4 + fuel)
                           (ProductDetails.handleAddToCart s user) s w) = [])
  /\ (removed (map snd (timeline (play env (fire ProductCard.setLinkCopied) (4 + fuel)
                                       (ProductCard.handleAddToCart p user) sc w)))
      = appended (map snd (timeline (play env (fire ProductCard.setLinkCopied) (4 + fuel)
                                          (ProductCard.handleAddToCart p user) sc w)))
      /\ still_armed (play env (fire ProductCard.setLinkCopied) (4 + fuel)
                           (ProductCard.handleAddToCart p user) sc w) = []).
Proof.
  split; [| split].
  - destruct (rating_shows s user v w) as [notes [Ha [Hp [Hr Hl]]]].
    destruct (@play_cleans_up env _ ProductDetails.setLinkCopied _ s w notes (4 + fuel)
                Ha Hp Hr) as [H1 [H2 _]]; [lia | split; assumption].
  - destruct (details_add_shows s user w) as [notes [Ha [Hp [Hr Hl]]]].
    destruct (@play_cleans_up env _ ProductDetails.setLinkCopied _ s w notes (4 + fuel)
                Ha Hp Hr) as [H1 [H2 _]]; [lia | split; assumption].
  - destruct (card_add_shows p sc user w) as [notes [Ha [Hp [Hr Hl]]]].
    destruct (@play_cleans_up env _ ProductCard.setLinkCopied _ sc w notes (4 + fuel)
                Ha Hp Hr) as [H1 [H2 _]]; [lia | split; assumption].
Qed.
End Timers.

Example both_notifications_removed :
  removed (map snd (timeline (play (Faulty.env Faulty.the_select)
                                   (fire ProductDetails.setLinkCopied) 4
                                   (ProductDetails.handleRating three_images (Some ada) 5)
                                   three_images shop)))
  = [note_rated; note_not_rated].
Proof. reflexivity. Qed.

(** ** Share links *)

Lemma unreserved_hex (k : nat) : (k < 16)%nat -> unreserved (hex_digit k) = true.
Proof.
  intros H. do 16 (destruct k as [| k]; [reflexivity |]). lia.
Qed.

Lemma hex_value_digit (k : nat) : (k < 16)%nat -> hex_value (hex_digit k) = Some k.
Proof.
  intros H. do 16 (destruct k as [| k]; [reflexivity |]). lia.
Qed.

Lemma byte_bound (c : ascii) : (nat_of_ascii c < 256)%nat.
Proof.
  destruct c as [[] [] [] [] [] [] [] []]; cbv; lia.
Qed.

Lemma occurrences_app (c : ascii) (a b : string) :
  occurrences c (a ++ b) = (occurrences c a + occurrences c b)%nat.
Proof.
  induction a as [| c' a IH]; cbn; [reflexivity | rewrite IH; lia].
Qed.

Lemma encoded_has_no_separator (c : ascii) (s : string) :
  separator c -> occurrences c (encodeURIComponent s) = 0%nat.
Proof.
  intros [Hc Hp]. induction s as [| c' s IH]; [reflexivity |].
  cbn [encodeURIComponent]. rewrite occurrences_app, IH, Nat.add_0_r.
  destruct (unreserved c') eqn:Hu.
  - cbn. destruct (Ascii.eqb_spec c c') as [-> | _]; [congruence | reflexivity].
  - unfold percent_encode. cbn [occurrences].
    pose proof (byte_bound c') as Hb.
    assert (H1 : (nat_of_ascii c' / 16 < 16)%nat)
      by (apply Nat.Div0.div_lt_upper_bound; lia).
    assert (H2 : (nat_of_ascii c' mod 16 < 16)%nat) by (apply Nat.mod_upper_bound; lia).
    destruct (Ascii.eqb_spec c "%"%char) as [-> | _]; [congruence |].
    destruct (Ascii.eqb_spec c (hex_digit (nat_of_ascii c' / 16))) as [-> | _];
      [rewrite unreserved_hex in Hc by assumption; discriminate |].
    destruct (Ascii.eqb_spec c (hex_digit (nat_of_ascii c' mod 16))) as [-> | _];
      [rewrite unreserved_hex in Hc by assumption; discriminate |].
    reflexivity.
Qed.

(** Decoding gives back what was encoded. *)
Lemma percent_decode_encode (s : string) : percent_decode (encodeURIComponent s) = s.
Proof.
  induction s as [| c s IH]; [reflexivity |].
  cbn [encodeURIComponent]. destruct (unreserved c) eqn:Hu.
  - cbn [append percent_decode].
    destruct (Ascii.eqb_spec c "%"%char) as [-> | _]; [discriminate Hu |].
    now rewrite IH.
  - unfold percent_encode. cbn [append percent_decode Ascii.eqb Bool.eqb andb].
    pose proof (byte_bound c) as Hb.
    rewrite !hex_value_digit
      by (apply Nat.Div0.div_lt_upper_bound || apply Nat.mod_upper_bound; lia).
    rewrite IH, <- Nat.div_mod_eq, ascii_nat_embedding. reflexivity.
Qed.

Section Share.
Variable env : Env.

(** X14. Sharing opens exactly one window, in a new tab, on the URL of the
    chosen platform built from the product link and the text "Check out
    this product: <name>"; no backend query is made.  On the card the
    share menu is closed afterwards; on the detail page the state is
    untouched. *)
Theorem share_opens_one_window (p : Product) (platform : Platform) (productId : string)
        (sc : ProductCard.State) (sd : ProductDetails.State) (w : world env) :
  (windows_opened (events (trace (run env (CardActions.shareToSocial p platform) sc w)))
   = [(shareUrl platform (share_text p) (link_prefix ++ Product.id p), "_blank")]
   /\ List.length (events (trace (run env (CardActions.shareToSocial p platform) sc w))) = 1%nat
   /\ ProductCard.showShareOptions
        (state (run env (CardActions.shareToSocial p platform) sc w)) = false
   /\ ProductCard.linkCopied (state (run env (CardActions.shareToSocial p platform) sc w))
      = ProductCard.linkCopied sc)
  /\ (ProductDetails.product sd = Some p ->
      windows_opened
        (events (trace (run env (DetailsActions.shareToSocial sd (Some productId) platform)
                            sd w)))
      = [(shareUrl platform (share_text p) (link_prefix ++ productId), "_blank")]
      /\ List.length
           (events (trace (run env (DetailsActions.shareToSocial sd (Some productId) platform)
                               sd w))) = 1%nat
      /\ state (run env (DetailsActions.shareToSocial sd (Some productId) platform) sd w) = sd).
Proof.
  split.
  - unfold CardActions.shareToSocial. cbn. next_answer ra wa Ea. cbn. repeat split.
  - intros Hp. unfold DetailsActions.shareToSocial. rewrite Hp. cbn.
    next_answer ra wa Ea. cbn. repeat split.
Qed.
End Share.

Lemma share_opens_one_window_witness :
  windows_opened
    (events (trace (run InMemory.env
                        (DetailsActions.shareToSocial three_images (Some "p1") facebook)
                        three_images shop)))
  = [("https://www.facebook.com/sharer/sharer.php?u=https%3A%2F%2Fulishastore.netlify.app%2Fproduct%2Fp1",
      "_blank")].
Proof.
  apply (proj2 (@share_opens_one_window InMemory.env lamp facebook "p1" ProductCard.initial
                  three_images shop)).
  reflexivity.
Defined.

(** X15. Whatever the product name and id, a share URL has one "?", no
    "#" and no space, and an "&" only between the two parameters of the
    twitter URL: the name cannot add or cut parameters.  Decoding each
    parameter gives back the shared text and the product link. *)
Theorem share_url_well_formed (platform : Platform) (text link : string) :
  occurrences "?" (shareUrl platform text link) = 1%nat
  /\ occurrences "#" (shareUrl platform text link) = 0%nat
  /\ occurrences " " (shareUrl platform text link) = 0%nat
  /\ occurrences "&" (shareUrl platform text link)
     = match platform with twitter => 1%nat | _ => 0%nat end
  /\ match platform with
     | facebook =>
         exists u,
           shareUrl platform text link
           = ("https://www.facebook.com/sharer/sharer.php?u=" ++ u)%string
           /\ percent_decode u = link
     | twitter =>
         exists t u,
           shareUrl platform text link
           = ("https://twitter.com/intent/tweet?text=" ++ t ++ "&url=" ++ u)%string
           /\ percent_decode t = text /\ percent_decode u = link
     | whatsapp =>
         exists t,
           shareUrl platform text link = ("https://wa.me/?text=" ++ t)%string
           /\ percent_decode t = (text ++ " " ++ link)%string
     end.
Proof.
  assert (Hq : separator "?") by (split; [reflexivity | discriminate]).
  assert (Hh : separator "#") by (split; [reflexivity | discriminate]).
  assert (Hs : separator " ") by (split; [reflexivity | discriminate]).
  assert (Ha : separator "&") by (split; [reflexivity | discriminate]).
  destruct platform; unfold shareUrl;
    rewrite ?occurrences_app, ?encoded_has_no_separator by assumption;
    (split; [reflexivity |]); (split; [reflexivity |]); (split; [reflexivity |]);
    (split; [reflexivity |]).
  - eexists. split; [reflexivity | apply percent_decode_encode].
  - eexists. eexists. split; [reflexivity | split; apply percent_decode_encode].
  - eexists. split; [reflexivity | apply percent_decode_encode].
Qed.

Example share_name_with_ampersand :
  shareUrl twitter (share_text (Product.mk "p7" "Salt & Pepper #1" 900 "s.png" "Home" "" None None None))
           "https://ulishastore.netlify.app/product/p7"
  = "https://twitter.com/intent/tweet?text=Check%20out%20this%20product%3A%20Salt%20%26%20Pepper%20%231&url=https%3A%2F%2Fulishastore.netlify.app%2Fproduct%2Fp7".
Proof. reflexivity. Qed.

(** ** Handlers that stay in the browser *)

Section LocalHandlers.
Variable env : Env.
Context {rt : JSRuntime}.

(** X16. Only the page load and the rating talk to the backend, and only
    add-to-cart talks to the cart store: copying or sharing the link,
    calling the seller, moving through the gallery, hovering the stars and
    toggling the share menu never issue a query or a cart call, in any
    state and whatever the environment answers. *)
Theorem local_handlers_stay_local (p : Product) (platform : Platform) (i : Z)
        (productId : option string) (sc : ProductCard.State) (sd : ProductDetails.State)
        (w : world env) :
  Forall (fun prog => existsb reaches_store (events (trace (run env prog sd w))) = false)
    [ ProductDetails.copyToClipboard productId;
      DetailsActions.shareToSocial sd productId platform;
      DetailsActions.handleCallSeller sd;
      ProductDetails.nextImage sd;
      ProductDetails.prevImage sd;
      DetailsActions.selectImage i;
      DetailsActions.star_onMouseEnter i;
      DetailsActions.star_onMouseLeave ]
  /\ Forall (fun prog => existsb reaches_store (events (trace (run env prog sc w))) = false)
       [ ProductCard.copyToClipboard p;
         CardActions.shareToSocial p platform;
         CardActions.handleCallSeller p;
         CardActions.share_onClick sc ]
  /\ (forall user,
        queries (events (trace (run env (ProductCard.handleAddToCart p user) sc w))) = []
        /\ queries (events (trace (run env (ProductDetails.handleAddToCart sd user) sd w)))
           = []).
Proof.
  split; [| split].
  - repeat constructor.
    + unfold ProductDetails.copyToClipboard. case_answers; reflexivity.
    + unfold DetailsActions.shareToSocial. case_answers; reflexivity.
    + unfold DetailsActions.handleCallSeller, truthy.
      destruct (ProductDetails.product sd) as [p0 |];
        [destruct (Product.seller_phone p0) as [[| c r] |] |]; case_answers; reflexivity.
  - repeat constructor.
    + unfold ProductCard.copyToClipboard. case_answers; reflexivity.
    + unfold CardActions.shareToSocial. case_answers; reflexivity.
    + unfold CardActions.handleCallSeller, truthy.
      destruct (Product.seller_phone p) as [[| c r] |]; case_answers; reflexivity.
  - intros user. split.
    + unfold ProductCard.handleAddToCart. destruct user; case_answers; reflexivity.
    + unfold ProductDetails.handleAddToCart.
      destruct user, (ProductDetails.product sd); case_answers; reflexivity.
Qed.
End LocalHandlers.

(** ** Clicking through the gallery, hovering the stars *)

Section GalleryClicks.
Import ProductDetails.
Variable env : Env.
Context {rt : JSRuntime}.

Lemma press_next (k : nat) (s : State) (w : world env) (n i : Z) :
  Z.of_nat (List.length (productImages s)) = n ->
  currentImageIndex s = Some i ->
  0 <= i < n ->
  exists s',
    press env nextImage k s w = (s', w)
    /\ currentImageIndex s' = Some ((i + Z.of_nat k) mod n)
    /\ productImages s' = productImages s
    /\ loading s' = loading s /\ product s' = product s.
Proof.
  revert s i. induction k as [| k IH]; intros s i Hn Hi Hr.
  - exists s. cbn. rewrite Z.add_0_r, Z.mod_small by lia. repeat split. assumption.
  - cbn [press]. cbn [nextImage setCurrentImageIndex update run state after].
    rewrite Hn, Hi. cbn [next_index]. rewrite js_rem_mod by lia.
    edestruct (IH (mkState (loading s) (product s) (productImages s)
                           (Some ((i + 1) mod n)) (linkCopied s) (rating s)
                           (hoverRating s) (hasRated s)) ((i + 1) mod n))
      as [s' [E [Hidx [Himg [Hl Hp]]]]];
      [exact Hn | reflexivity | apply Z.mod_pos_bound; lia |].
    exists s'. split; [exact E |]. split; [| repeat split; assumption].
    rewrite Hidx. f_equal. rewrite Z.add_mod_idemp_l by lia. f_equal. lia.
Qed.

Lemma press_prev (k : nat) (s : State) (w : world env) (n i : Z) :
  Z.of_nat (List.length (productImages s)) = n ->
  currentImageIndex s = Some i ->
  0 <= i < n ->
  exists s',
    press env prevImage k s w = (s', w)
    /\ currentImageIndex s' = Some ((i - Z.of_nat k) mod n)
    /\ productImages s' = productImages s.
Proof.
  revert s i. induction k as [| k IH]; intros s i Hn Hi Hr.
  - exists s. cbn. rewrite Z.sub_0_r, Z.mod_small by lia. repeat split. assumption.
  - cbn [press]. cbn [prevImage setCurrentImageIndex update run state after].
    rewrite Hn, Hi. cbn [prev_index]. rewrite js_rem_mod by lia.
    edestruct (IH (mkState (loading s) (product s) (productImages s)
                           (Some ((i - 1 + n) mod n)) (linkCopied s) (rating s)
                           (hoverRating s) (hasRated s)) ((i - 1 + n) mod n))
      as [s' [E [Hidx Himg]]];
      [exact Hn | reflexivity | apply Z.mod_pos_bound; lia |].
    exists s'. split; [exact E |]. split; [| assumption].
    rewrite Hidx. f_equal. rewrite Zminus_mod_idemp_l.
    replace (i - 1 + n - Z.of_nat k) with (i - Z.of_nat (Datatypes.S k) + 1 * n) by lia.
    apply Z.mod_add. lia.
Qed.

(** X17. In a gallery of n images showing image i, k clicks on "next"
    lead to image (i + k) mod n and k clicks on "previous" to image
    (i - k) mod n; n clicks either way come back to image i, and on a
    loaded page the main image shown after the k clicks on "next" is that
    entry of the gallery. *)
Theorem gallery_clicks (productId : option string) (s : State) (w : world env)
        (n i : Z) (k : nat) :
  Z.of_nat (List.length (productImages s)) = n ->
  currentImageIndex s = Some i ->
  0 <= i < n ->
  currentImageIndex (fst (press env nextImage k s w)) = Some ((i + Z.of_nat k) mod n)
  /\ currentImageIndex (fst (press env prevImage k s w)) = Some ((i - Z.of_nat k) mod n)
  /\ currentImageIndex (fst (press env nextImage (Z.to_nat n) s w)) = Some i
  /\ currentImageIndex (fst (press env prevImage (Z.to_nat n) s w)) = Some i
  /\ (loading s = false -> product s <> None ->
      exists d,
        render productId (fst (press env nextImage k s w)) = Details d
        /\ main_image d
           = nth_error (productImages s) (Z.to_nat ((i + Z.of_nat k) mod n))).
Proof.
  intros Hn Hi Hr.
  destruct (@press_next k s w n i Hn Hi Hr) as [s1 [E1 [I1 [G1 [L1 P1]]]]].
  destruct (@press_prev k s w n i Hn Hi Hr) as [s2 [E2 [I2 _]]].
  destruct (@press_next (Z.to_nat n) s w n i Hn Hi Hr) as [s3 [E3 [I3 _]]].
  destruct (@press_prev (Z.to_nat n) s w n i Hn Hi Hr) as [s4 [E4 [I4 _]]].
  rewrite E1, E2, E3, E4. cbn [fst].
  rewrite I1, I2, I3, I4, Z2Nat.id by lia.
  repeat split.
  - f_equal. replace (i + n) with (i + 1 * n) by lia.
    rewrite Z.mod_add by lia. apply Z.mod_small; lia.
  - f_equal. replace (i - n) with (i + (-1) * n) by lia.
    rewrite Z.mod_add by lia. apply Z.mod_small; lia.
  - intros Hl Hp. unfold render. rewrite L1, P1, Hl.
    destruct (product s) as [p |]; [| contradiction].
    eexists. split; [reflexivity |].
    cbn [main_image]. rewrite I1, G1. unfold array_get.
    pose proof (Z.mod_pos_bound (i + Z.of_nat k) n ltac:(lia)) as Hb.
    destruct (Z.ltb_spec ((i + Z.of_nat k) mod n) 0) as [Hneg | _]; [lia | reflexivity].
Qed.

(** X18. While the pointer is on star i (0..4) the page fills the first
    i + 1 stars and no other, whatever the rating; when the pointer
    leaves, the stars are those of the rating again. *)
Theorem hover_previews_stars (s : State) (w : world env) (i : Z) :
  0 <= i < 5 ->
  map (star_filled (state (run env (DetailsActions.star_onMouseEnter i) s w)))
      star_indices
  = map (fun j => j <=? i) [0; 1; 2; 3; 4]
  /\ count_filled
       (map (star_filled (state (run env (DetailsActions.star_onMouseEnter i) s w)))
            star_indices) = i + 1
  /\ map (star_filled
            (state (run env DetailsActions.star_onMouseLeave
                        (state (run env (DetailsActions.star_onMouseEnter i) s w)) w)))
         star_indices
     = map (gt (rating s)) star_indices.
Proof.
  intros Hi.
  assert (Hfirst :
    map (star_filled (state (run env (DetailsActions.star_onMouseEnter i) s w)))
        star_indices
    = map (fun j => j <=? i) [0; 1; 2; 3; 4]).
  { assert (Hc : i = 0 \/ i = 1 \/ i = 2 \/ i = 3 \/ i = 4) by lia.
    destruct Hc as [-> | [-> | [-> | [-> | ->]]]]; reflexivity. }
  split; [exact Hfirst |]. split; [| reflexivity].
  rewrite Hfirst.
  assert (Hc : i = 0 \/ i = 1 \/ i = 2 \/ i = 3 \/ i = 4) by lia.
  destruct Hc as [-> | [-> | [-> | [-> | ->]]]]; reflexivity.
Qed.
End GalleryClicks.

Lemma gallery_clicks_witness :
  ProductDetails.currentImageIndex
    (fst (press InMemory.env ProductDetails.nextImage 3 three_images shop)) = Some 2.
Proof.
  apply (@gallery_clicks InMemory.env sample_runtime None three_images shop 3 2 3);
    [reflexivity | reflexivity | lia].
Defined.

Lemma hover_previews_stars_witness :
  map (ProductDetails.star_filled
         (state (run InMemory.env (DetailsActions.star_onMouseEnter 1) three_images shop)))
      star_indices
  = [true; true; false; false; false].
Proof.
  apply (@hover_previews_stars InMemory.env three_images shop 1). lia.
Defined.

(** ** The receipt handlers step by step *)

Lemma length_ascii_toUpperCase (s : string) :
  String.length (ascii_toUpperCase s) = String.length s.
Proof. induction s as [| c s IH]; cbn; [reflexivity | now rewrite IH]. Qed.

Lemma length_substring_le (n m : nat) (s : string) :
  (String.length (substring n m s) <= m)%nat.
Proof.
  revert n m. induction s as [| c s IH]; intros n m.
  - destruct n, m; cbn; lia.
  - destruct n as [| n]; [destruct m as [| m] |]; cbn; [lia | | apply IH].
    specialize (IH 0%nat m). lia.
Qed.

Lemma upper_ascii_idem (c : ascii) : upper_ascii (upper_ascii c) = upper_ascii c.
Proof.
  unfold upper_ascii. cbv zeta.
  destruct ((97 <=? nat_of_ascii c)%nat && (nat_of_ascii c <=? 122)%nat) eqn:E.
  - apply andb_true_iff in E. destruct E as [E1 E2]. apply Nat.leb_le in E1, E2.
    rewrite nat_ascii_embedding by lia.
    replace (97 <=? nat_of_ascii c - 32)%nat with false
      by (symmetry; apply Nat.leb_gt; lia).
    reflexivity.
  - rewrite E. reflexivity.
Qed.

Lemma ascii_toUpperCase_idem (s : string) :
  ascii_toUpperCase (ascii_toUpperCase s) = ascii_toUpperCase s.
Proof.
  induction s as [| c s IH]; cbn; [reflexivity |].
  now rewrite upper_ascii_idem, IH.
Qed.

Lemma ascii_text_app (a b : string) :
  ascii_text a -> ascii_text b -> ascii_text (a ++ b).
Proof.
  intros Ha Hb. induction a as [| c a IH]; cbn in *; [exact Hb |].
  destruct Ha as [Hc Ha]. split; [exact Hc | apply IH, Ha].
Qed.

Lemma ascii_text_substring (n m : nat) (s : string) :
  ascii_text s -> ascii_text (substring n m s).
Proof.
  revert n m. induction s as [| c s IH]; intros n m Hs.
  - destruct n, m; exact I.
  - destruct Hs as [Hc Hs].
    destruct n as [| n]; [destruct m as [| m] |]; cbn; [exact I | | apply IH, Hs].
    split; [exact Hc | apply IH, Hs].
Qed.

Lemma ascii_text_upper (s : string) : ascii_text s -> ascii_text (ascii_toUpperCase s).
Proof.
  induction s as [| c s IH]; cbn; [auto |]. intros [Hc Hs]. split; [| apply IH, Hs].
  unfold upper_ascii. cbv zeta.
  destruct ((97 <=? nat_of_ascii c)%nat && (nat_of_ascii c <=? 122)%nat) eqn:E;
    [| exact Hc].
  apply andb_true_iff in E. destruct E as [E1 E2]. apply Nat.leb_le in E1, E2.
  rewrite nat_ascii_embedding by lia. lia.
Qed.

Lemma ascii_text_of_list (l : list ascii) :
  Forall (fun c => (nat_of_ascii c < 128)%nat) l -> ascii_text (string_of_list_ascii l).
Proof.
  induction 1 as [| c l Hc Hl IH]; cbn; [exact I | split; assumption].
Qed.

Lemma digits_rev_ascii (fuel : nat) (n : Z) :
  Forall (fun c => (nat_of_ascii c < 128)%nat) (digits_rev fuel n).
Proof.
  revert n. induction fuel as [| fuel IH]; intros n; cbn [digits_rev]; [constructor |].
  constructor.
  - unfold digit. pose proof (Z.mod_pos_bound n 10 ltac:(lia)).
    rewrite nat_ascii_embedding by lia. lia.
  - destruct (n / 10 =? 0); [constructor | apply IH].
Qed.

Lemma time_toString_ascii (t : option Z) : ascii_text (time_toString t).
Proof.
  destruct t as [n |]; [| cbn; lia].
  unfold time_toString, Z_toString, nat_digits.
  destruct (n <? 0); [split; [cbn; lia |] |];
    apply ascii_text_of_list, Forall_rev, digits_rev_ascii.
Qed.

Section ReceiptSteps.
Import OrderReceipt.
Context {rt : JSRuntime}.
Variable env : Env.

(** X19. For an order whose id is ASCII text, in a browser whose
    substring and toUpperCase treat ASCII text as ECMAScript prescribes: the
    verification code has at most 11 characters, is ASCII text with no
    lower-case letter (upper-casing it changes nothing), and when
    created_at is not a valid date its second part is NAN. *)
Theorem verification_code_shape (order : Order) :
  ascii_built_ins rt ->
  ascii_text (id order) ->
  (String.length (generateVerificationCode order) <= 11)%nat
  /\ ascii_text (generateVerificationCode order)
  /\ ascii_toUpperCase (generateVerificationCode order) = generateVerificationCode order
  /\ (Date_getTime (created_at order) = None ->
      generateVerificationCode order
      = (ascii_toUpperCase (substring 0 6 (id order)) ++ "NAN")%string).
Proof.
  intros [Hsub Hup] Hid. unfold generateVerificationCode.
  rewrite Hsub by exact Hid.
  assert (Htext : ascii_text
                    (substring 0 6 (id order)
                     ++ slice_last 5 (time_toString (Date_getTime (created_at order))))).
  { apply ascii_text_app; [apply ascii_text_substring, Hid |].
    apply ascii_text_substring, time_toString_ascii. }
  rewrite Hup by exact Htext.
  split; [| split; [| split]].
  - rewrite length_ascii_toUpperCase, length_app_string. unfold slice_last.
    pose proof (length_substring_le 0 6 (id order)).
    pose proof (length_substring_le
                  (String.length (time_toString (Date_getTime (created_at order))) - 5) 5
                  (time_toString (Date_getTime (created_at order)))).
    lia.
  - apply ascii_text_upper, Htext.
  - apply ascii_toUpperCase_idem.
  - intros ->. rewrite ascii_toUpperCase_app. reflexivity.
Qed.

(** X20. Printing does nothing when the receipt is not mounted, and only
    asks for a window when the browser refuses to open one; with a window
    it writes the document and then closes the document, focuses, prints
    and closes the window, in this order. *)
Theorem print_steps (order : Order) (mounted : bool) (w : world env) :
  events (trace (run env (handlePrint order mounted) tt w))
  = if mounted then
      if fst (respond env (window_open "" "_blank") w) then
        [ Ev (window_open "" "_blank") true;
          Ev (printWindow_write (print_document (innerHTML (receipt order)))) tt;
          Ev (printWindow_do "document.close") tt;
          Ev (printWindow_do "focus") tt;
          Ev (printWindow_do "print") tt;
          Ev (printWindow_do "close") tt ]
      else [Ev (window_open "" "_blank") false]
    else [].
Proof.
  unfold handlePrint. destruct mounted; [| reflexivity].
  cbn. next_answer ra wa Ea. destruct ra; cbn; unit_answers; reflexivity.
Qed.

(** X21. A download creates one object URL for the receipt as text/html,
    clicks a link to that same URL named order-receipt-<first 8 characters
    of the id>.html and then revokes that same URL, whatever URL the browser
    hands out; nothing happens when the receipt is not mounted. *)
Theorem download_steps (order : Order) (mounted : bool) (w : world env) :
  events (trace (run env (handleDownload order mounted) tt w))
  = if mounted then
      let url := fst (respond env (createObjectURL (innerHTML (receipt order)) "text/html") w) in
      [ Ev (createObjectURL (innerHTML (receipt order)) "text/html") url;
        Ev (anchor_click url ("order-receipt-" ++ String_substring (id order) 0 8 ++ ".html")) tt;
        Ev (revokeObjectURL url) tt ]
    else [].
Proof.
  unfold handleDownload. destruct mounted; [| reflexivity].
  cbn. next_answer ra wa Ea. cbn. unit_answers. reflexivity.
Qed.
End ReceiptSteps.

Lemma verification_code_shape_witness :
  @OrderReceipt.generateVerificationCode sample_runtime
     (OrderReceipt.mkOrder "ab12" "yesterday" 10 "paid" "Ada" "" "" None None [])
  = "AB12NAN".
Proof.
  apply (@verification_code_shape sample_runtime
           (OrderReceipt.mkOrder "ab12" "yesterday" 10 "paid" "Ada" "" "" None None [])).
  - split; intros; cbn; [rewrite Nat.sub_0_r |]; reflexivity.
  - cbn. repeat split; lia.
  - reflexivity.
Defined.

(** ** The install prompt *)

Section InstallPrompt.
Import Main.

Lemma clicks_prompt (k : nat) (p : Page) (e : nat) :
  deferredPrompt p = prompt_event e ->
  Nat.iter k installButton_onClick p
  = mkPage (prompt_event e) (installButton p) (prevented p)
           (prompted p ++ repeat e k) (waiting p ++ repeat e k) (console p) (uncaught p).
Proof.
  intros H. induction k as [| k IH].
  - cbn. rewrite !app_nil_r, <- H. destruct p; reflexivity.
  - rewrite Nat.iter_succ, IH. unfold installButton_onClick. cbn.
    rewrite <- !app_assoc. change (e :: repeat e k) with (repeat e (Datatypes.S k)).
    rewrite <- !repeat_cons. reflexivity.
Qed.

Lemma clicks_throw (k : nat) (p : Page) :
  (forall e, deferredPrompt p <> prompt_event e) ->
  Nat.iter k installButton_onClick p
  = mkPage (deferredPrompt p) (installButton p) (prevented p)
           (prompted p) (waiting p) (console p) (k + uncaught p).
Proof.
  intros H. induction k as [| k IH].
  - destruct p; reflexivity.
  - rewrite Nat.iter_succ, IH. unfold installButton_onClick. cbn.
    destruct (deferredPrompt p) as [| | e]; [reflexivity | reflexivity |].
    exfalso. apply (H e). reflexivity.
Qed.

Lemma callbacks_clear (k : nat) (outcome : string) (p : Page) :
  deferredPrompt (Nat.iter (Datatypes.S k) (userChoice_then outcome) p) = null
  /\ installButton (Nat.iter (Datatypes.S k) (userChoice_then outcome) p) = installButton p
  /\ prompted (Nat.iter (Datatypes.S k) (userChoice_then outcome) p) = prompted p
  /\ uncaught (Nat.iter (Datatypes.S k) (userChoice_then outcome) p) = uncaught p.
Proof.
  induction k as [| k IH]; [repeat split |].
  destruct IH as [_ [I2 [I3 I4]]].
  rewrite Nat.iter_succ. cbn [userChoice_then deferredPrompt installButton prompted uncaught].
  repeat split; assumption.
Qed.

(** X22. Once the user has answered the install prompt, whether
    accepting or dismissing it, the stashed event is dropped but the install
    button stays displayed with its listeners: every later click throws one
    TypeError per listener and opens no prompt. *)
Theorem install_button_dead_after_answer (p : Page) (b : Button) (e : nat)
        (outcome : string) :
  installButton p = Some b ->
  deferredPrompt (answer_prompt e outcome (click (on_beforeinstallprompt e p))) = null
  /\ installButton (answer_prompt e outcome (click (on_beforeinstallprompt e p)))
     = Some (mkButton "block" (Datatypes.S (clickListeners b)))
  /\ prompted (click (answer_prompt e outcome (click (on_beforeinstallprompt e p))))
     = prompted (answer_prompt e outcome (click (on_beforeinstallprompt e p)))
  /\ uncaught (click (answer_prompt e outcome (click (on_beforeinstallprompt e p))))
     = (Datatypes.S (clickListeners b)
        + uncaught (answer_prompt e outcome (click (on_beforeinstallprompt e p))))%nat.
Proof.
  intros Hb.
  assert (Hclick : click (on_beforeinstallprompt e p)
                   = mkPage (prompt_event e)
                            (Some (mkButton "block" (Datatypes.S (clickListeners b))))
                            (prevented p ++ [e])
                            (prompted p ++ repeat e (Datatypes.S (clickListeners b)))
                            (waiting p ++ repeat e (Datatypes.S (clickListeners b)))
                            (console p) (uncaught p)).
  { unfold click, on_beforeinstallprompt. rewrite Hb. cbn [installButton clickListeners].
    rewrite (@clicks_prompt _ _ e) by reflexivity. reflexivity. }
  rewrite Hclick. unfold answer_prompt. cbn [waiting deferredPrompt installButton prevented
                                              prompted console uncaught].
  rewrite count_occ_app. cbn [repeat count_occ].
  destruct (Nat.eq_dec e e) as [_ | N]; [| contradiction].
  rewrite Nat.add_succ_r.
  match goal with
  | |- context [Nat.iter (Datatypes.S ?k) (userChoice_then outcome) ?q] =>
      destruct (callbacks_clear k outcome q) as [C1 [C2 [C3 C4]]];
      remember (Nat.iter (Datatypes.S k) (userChoice_then outcome) q) as p3 eqn:Hp3
  end.
  cbn in C2, C3, C4.
  split; [exact C1 |]. split; [exact C2 |].
  unfold click. rewrite C2. cbn [clickListeners].
  rewrite clicks_throw by (intros e'; rewrite C1; discriminate).
  cbn. split; reflexivity.
Qed.

(** X23. Every beforeinstallprompt event adds one more click listener to
    the install button and replaces the stashed event: after the events
    [es] a single click calls prompt() on the last of them once per
    listener, that is, as many times as events were received (plus the
    listeners the button already had). *)
Theorem click_listeners_accumulate (p : Page) (b : Button) (es : list nat) (e : nat) :
  installButton p = Some b ->
  installButton (fold_left (fun q x => on_beforeinstallprompt x q) (es ++ [e]) p)
  = Some (mkButton "block" (clickListeners b + List.length (es ++ [e])))
  /\ deferredPrompt (fold_left (fun q x => on_beforeinstallprompt x q) (es ++ [e]) p)
     = prompt_event e
  /\ prompted (click (fold_left (fun q x => on_beforeinstallprompt x q) (es ++ [e]) p))
     = prompted p ++ repeat e (clickListeners b + List.length (es ++ [e])).
Proof.
  intros Hb.
  assert (Hfold : forall l q bq,
             installButton q = Some bq ->
             installButton (fold_left (fun q x => on_beforeinstallprompt x q) l q)
             = Some (mkButton (match l with [] => display bq | _ => "block" end)
                              (clickListeners bq + List.length l))
             /\ prompted (fold_left (fun q x => on_beforeinstallprompt x q) l q) = prompted q).
  { induction l as [| x l IH]; intros q bq Hq.
    - cbn. rewrite Hq, Nat.add_0_r. destruct bq; split; reflexivity.
    - cbn [fold_left].
      destruct (IH (on_beforeinstallprompt x q) (mkButton "block" (Datatypes.S (clickListeners bq))))
        as [I1 I2]; [cbn; rewrite Hq; reflexivity |].
      rewrite I1, I2. cbn. split; [| reflexivity].
      f_equal. f_equal; [destruct l; reflexivity | lia]. }
  destruct (Hfold (es ++ [e]) p b Hb) as [F1 F2].
  assert (Hne : match es ++ [e] with [] => display b | _ => "block" end = "block")
    by (destruct es; reflexivity).
  rewrite Hne in F1.
  assert (Hlast : deferredPrompt (fold_left (fun q x => on_beforeinstallprompt x q)
                                            (es ++ [e]) p) = prompt_event e)
    by (rewrite fold_left_app; reflexivity).
  split; [exact F1 |]. split; [exact Hlast |].
  unfold click. rewrite F1. cbn [clickListeners].
  rewrite (@clicks_prompt _ _ e) by exact Hlast. cbn [prompted]. rewrite F2. reflexivity.
Qed.

(** X24. After appinstalled the stashed event is gone and the button, if
    there is one, is hidden but keeps its listeners: a click prompts
    nothing until a new beforeinstallprompt arrives. *)
Theorem installed_page_prompts_nothing (p : Page) :
  deferredPrompt (on_appinstalled p) = null
  /\ installButton (on_appinstalled p)
     = match installButton p with
       | Some b => Some (mkButton "none" (clickListeners b))
       | None => None
       end
  /\ prompted (click (on_appinstalled p)) = prompted p
  /\ console (on_appinstalled p) = console p ++ ["PWA was installed"].
Proof.
  repeat split. unfold click.
  destruct (installButton (on_appinstalled p)) as [b |] eqn:Hb; [| reflexivity].
  rewrite clicks_throw by (intros e; discriminate). reflexivity.
Qed.
End InstallPrompt.

Lemma install_button_dead_after_answer_witness :
  Main.uncaught
    (Main.click (Main.answer_prompt 1 "dismissed"
                   (Main.click (Main.on_beforeinstallprompt 1
                                  (Main.loaded (Some (Main.mkButton "none" 0)))))))
  = 1%nat.
Proof.
  apply (@install_button_dead_after_answer (Main.loaded (Some (Main.mkButton "none" 0)))
           (Main.mkButton "none" 0) 1 "dismissed" eq_refl).
Defined.

Lemma click_listeners_accumulate_witness :
  Main.prompted
    (Main.click (fold_left (fun q x => Main.on_beforeinstallprompt x q) ([1%nat] ++ [2%nat])
                           (Main.loaded (Some (Main.mkButton "none" 0)))))
  = [2%nat; 2%nat].
Proof.
  apply (@click_listeners_accumulate (Main.loaded (Some (Main.mkButton "none" 0)))
           (Main.mkButton "none" 0) [1%nat] 2 eq_refl).
Defined.

Section NothingToAverage.
Import ProductDetails.
Variable env : Env.

#[local] Arguments avgRating : simpl never.

(** X25. When the list of ratings comes back empty or without data, no
    average is computed and nothing is written to the product; the user
    still gets the success notification and no error is logged. *)
Theorem rating_nothing_to_average (s : State) (u : User) (p : Product) (v : Q)
        (w : world env) (a : Response (list Q)) :
  product s = Some p ->
  first_answer select_answer_of (events (trace (run env (handleRating s (Some u) v) s w)))
    = Some (Fulfilled a) ->
  error a = None ->
  (data a = None \/ data a = Some []) ->
  written_back (events (trace (run env (handleRating s (Some u) v) s w))) = []
  /\ queries (events (trace (run env (handleRating s (Some u) v) s w)))
     = [ product_ratings_upsert (Product.id p) (User.id u) v;
         product_ratings_select (Product.id p) ]
  /\ logged (events (trace (run env (handleRating s (Some u) v) s w))) = []
  /\ appended (events (trace (run env (handleRating s (Some u) v) s w))) = [note_rated].
Proof.
  intros Hp. unfold handleRating. rewrite Hp. clear Hp. revert a.
  case_answers; by_answers;
    repeat match goal with
           | H : _ \/ _ |- _ => destruct H
           | H : Some _ = None |- _ => discriminate H
           | H : Some (_ :: _) = Some [] |- _ => discriminate H
           end.
Qed.
End NothingToAverage.


Lemma rating_nothing_to_average_witness :
  written_back
    (events (trace (run Veiled.env (ProductDetails.handleRating three_images (Some ada) 5)
                        three_images shop))) = [].
Proof.
  apply (@rating_nothing_to_average Veiled.env three_images ada lamp 5 shop
           (mkResponse (Some []) None));
    [reflexivity | reflexivity | reflexivity | right; reflexivity].
Defined.

Lemma copy_mark_then_notification_witness :
  ProductCard.linkCopied
    (final (play InMemory.env (fire ProductCard.setLinkCopied) 1
                 (ProductCard.copyToClipboard lamp) ProductCard.initial shop)) = false.
Proof.
  apply (proj1 (@copy_mark_then_notification InMemory.env lamp "p1" ProductCard.initial
                  three_images shop 0) tt shop).
  reflexivity.
Defined.
